(** * GMM colour model of [cmmS1/colorHis.h]

    A shallow embedding of the five-component Gaussian mixture model over
    3-channel colours: the parameter buffer and its three views, the cached
    inverse covariances and determinants, the learning accumulators, and the
    eight member functions, followed by the properties the specification
    states about them and by further properties of the same functions: what
    a learning pass accumulates and fits, when the functions complete, and
    what the cache holds.

    The C++ code computes in [double].  The embedding is written once, over an
    interface of the arithmetic the code uses ([Arith], [Libm]), and read at
    two instances:
    - [b64]: IEEE-754 binary64, Rocq's primitive floats, every operation
      rounded as the hardware rounds it (no fused or extended evaluation);
      this is the arithmetic of the program;
    - [ideal]: the real numbers, the arithmetic the formulas of the
      specification are written in; nothing rounds, overflows or is not a
      number there, so a statement at [ideal] says what the formulas of the
      code mean, not what the program returns.
    A statement is proved for every instance, or at [b64], unless it says
    that it is about exact arithmetic; concrete runs are evaluated at
    [b64]. *)

From Stdlib Require Import ZArith List Bool Lia Permutation.
From Stdlib Require Import Reals Lra Psatz.
From Stdlib Require Import Floats.
From Stdlib Require Uint63.
Import ListNotations.

Set Warnings "-inexact-float".

(* ================================================================== *)
(** ** The arithmetic of the code *)
(* ================================================================== *)

(** The operations on [double] the source uses, and its literals. *)
Class Arith (D : Type) : Type := {
  d_zero  : D;                (* 0, 0.0, Scalar(0) *)
  d_one   : D;                (* 1.0, 1.0f *)
  d_half  : D;                (* 0.5f *)
  d_fix   : D;                (* 0.01 *)
  d_floor : D;                (* 1e-6 *)
  d_eps   : D;                (* std::numeric_limits<double>::epsilon() *)
  d_of_int : Z -> D;          (* (double)n *)
  d_add : D -> D -> D;
  d_sub : D -> D -> D;
  d_mul : D -> D -> D;
  d_div : D -> D -> D;
  d_neg : D -> D;
  d_lt  : D -> D -> bool;
  d_le  : D -> D -> bool
}.

(** The two functions of [<cmath>] the density uses. *)
Class Libm (D : Type) : Type := {
  d_sqrt : D -> D;
  d_exp  : D -> D
}.

Declare Scope arith_scope.
Delimit Scope arith_scope with D.
Notation "x + y" := (d_add x y) : arith_scope.
Notation "x - y" := (d_sub x y) : arith_scope.
Notation "x * y" := (d_mul x y) : arith_scope.
Notation "x / y" := (d_div x y) : arith_scope.
Notation "- x" := (d_neg x) : arith_scope.
Notation "x >? y" := (d_lt y x) : arith_scope.
Notation "x <=? y" := (d_le x y) : arith_scope.

(** *** binary64 *)

(** [(double)n] for an [int] n: exact below 2^53. *)
Definition b64_of_int (z : Z) : float :=
  match z with
  | Z0 => 0%float
  | Zpos _ => PrimFloat.of_uint63 (Uint63.of_Z z)
  | Zneg _ => PrimFloat.opp (PrimFloat.of_uint63 (Uint63.of_Z (Z.opp z)))
  end.

#[global] Instance b64 : Arith float := {|
  d_zero  := 0%float;
  d_one   := 1%float;
  d_half  := 0.5%float;
  d_fix   := 0x1.47ae147ae147bp-7%float;    (* the double nearest 0.01 *)
  d_floor := 0x1.0c6f7a0b5ed8dp-20%float;   (* the double nearest 1e-6 *)
  d_eps   := 0x1p-52%float;
  d_of_int := b64_of_int;
  d_add := PrimFloat.add;
  d_sub := PrimFloat.sub;
  d_mul := PrimFloat.mul;
  d_div := PrimFloat.div;
  d_neg := PrimFloat.opp;
  d_lt  := PrimFloat.ltb;
  d_le  := PrimFloat.leb
|}.

(** [sqrt] is correctly rounded; [exp] is whatever the C library computes. *)
Definition b64_libm (exp : float -> float) : Libm float :=
  {| d_sqrt := PrimFloat.sqrt; d_exp := exp |}.

(** *** Exact arithmetic *)

Definition Rltb (x y : R) : bool := if Rlt_dec x y then true else false.
Definition Rleb (x y : R) : bool := if Rle_dec x y then true else false.

(** The real numbers.  This is not the arithmetic of the program: it is the
    reading of the same expressions without rounding, overflow, underflow or
    not-a-number, in which the specification writes its formulas. *)
#[global] Instance ideal : Arith R := {|
  d_zero  := 0%R;
  d_one   := 1%R;
  d_half  := (1 / 2)%R;
  d_fix   := (1 / 100)%R;
  d_floor := (1 / 1000000)%R;
  d_eps   := (/ 4503599627370496)%R;        (* 2^-52 *)
  d_of_int := IZR;
  d_add := Rplus;
  d_sub := Rminus;
  d_mul := Rmult;
  d_div := Rdiv;
  d_neg := Ropp;
  d_lt  := Rltb;
  d_le  := Rleb
|}.

#[global] Instance ideal_libm : Libm R :=
  {| d_sqrt := R_sqrt.sqrt; d_exp := Rtrigo_def.exp |}.

(** The closed facts about the literals that the structural proofs need;
    they hold at both instances. *)
Class ArithLaws {D : Type} (A : Arith D) : Prop := {
  zero_not_positive : (d_zero >? d_zero)%D = false;
  fix_positive      : (d_fix >? d_zero)%D = true;
  zero_times_zero   : (d_zero * d_zero)%D = d_zero
}.

(** The facts about the order that the scan of [whichComponent] rests on;
    they hold at both instances, not-a-numbers included. *)
Class OrderLaws {D : Type} (A : Arith D) : Prop := {
  lt_irrefl : forall x, d_lt x x = false;
  lt_trans : forall x y z, d_lt x y = true -> d_lt y z = true -> d_lt x z = true;
  lt_le_trans : forall x y z, d_lt x y = true -> d_le y z = true -> d_lt x z = true
}.

(* ================================================================== *)
(** ** Data *)
(* ================================================================== *)

(** [static const int componentsCount = 5]. *)
Definition componentsCount : nat := 5.

(** [int] arithmetic.  Signed overflow is undefined in C++; the model wraps
    as two's-complement hardware does, and every statement about counters
    assumes it does not happen. *)
Definition INT_MAX : Z := 2147483647.
Definition wrap32 (z : Z) : Z := ((z + 2147483648) mod 4294967296 - 2147483648)%Z.
Definition int_incr (n : Z) : Z := wrap32 (n + 1).

(** Writing one element of an array; an index past the end is undefined
    behaviour in C++ and writes nothing here.  The functions below are only
    claimed for component indices below [componentsCount]. *)
Fixpoint upd {A : Type} (l : list A) (i : nat) (v : A) : list A :=
  match l, i with
  | [], _ => []
  | _ :: t, O => v :: t
  | h :: t, S j => h :: upd t j v
  end.

(** [cv::Error::Code]: the two codes the class raises. *)
Inductive ErrorCode : Type :=
  | StsBadArg     (* CV_Error(cv::Error::StsBadArg, ...) *)
  | StsAssert.    (* CV_Assert(...) failed *)

(** A [const] member function returns a value or throws. *)
Inductive res (A : Type) : Type :=
  | Ok (a : A)
  | Err (e : ErrorCode).
Arguments Ok {A} a.
Arguments Err {A} e.

Section Model.
Context {D : Type} {A : Arith D}.
Local Open Scope arith_scope.

(** [cv::Vec3d]. *)
Record Vec3d : Type := mkVec3d { x0 : D; x1 : D; x2 : D }.

(** Modelled from the spec: [cv::Mat], the "opaque numeric buffer" of the
    specification, is declared by OpenCV and not in the repository.  A matrix
    header carries its element type code, its rows and columns (both -1 when
    the matrix has more than two dimensions) and the elements, which are read
    as doubles only when the type is [CV_64FC1]. *)
Record Mat : Type := mkMat {
  mat_type : Z;
  rows : Z;
  cols : Z;
  data : list D
}.

(** [CV_64FC1 = CV_MAKETYPE(CV_64F, 1)]. *)
Definition CV_64FC1 : Z := 6.

(** [Mat::empty()]: no element. *)
Definition mat_empty (m : Mat) : bool :=
  match data m with [] => true | _ => (rows m * cols m =? 0)%Z end.

(** [Mat::create(rows, cols, type)] followed by [setTo(Scalar(0))]. *)
Definition mat_create_zero (r c : Z) (t : Z) : Mat :=
  {| mat_type := t; rows := r; cols := c;
     data := repeat d_zero (Z.to_nat (r * c)) |}.

(** The object.  [coefs], [mean] and [cov] are pointers into the buffer of
    [model] at offsets 0, [componentsCount] and [4 * componentsCount]; they
    are read off [model] below instead of being stored. *)
Record GMM : Type := mkGMM {
  model : Mat;
  inverseCovs : list D;        (* [componentsCount][3][3], row-major *)
  covDeterms : list D;         (* [componentsCount] *)
  sums : list D;               (* [componentsCount][3] *)
  prods : list D;              (* [componentsCount][3][3] *)
  sampleCounts : list Z;       (* int [componentsCount] *)
  totalSampleCount : Z         (* int *)
}.

(** A member function that writes the object returns it, or throws and
    leaves it as it was at the throw. *)
Inductive outcome : Type :=
  | Done (g : GMM)
  | Thrown (e : ErrorCode) (g : GMM).

Definition and_then (o : outcome) (k : GMM -> outcome) : outcome :=
  match o with
  | Done g => k g
  | Thrown e g => Thrown e g
  end.

(** *** Reading and writing through the views *)

Definition coefs_off : nat := 0.
Definition mean_off : nat := componentsCount.
Definition cov_off : nat := componentsCount + 3 * componentsCount.

Definition buf (g : GMM) : list D := data (model g).

Definition set_buf (g : GMM) (i : nat) (v : D) : GMM :=
  {| model := {| mat_type := mat_type (model g); rows := rows (model g);
                 cols := cols (model g); data := upd (buf g) i v |};
     inverseCovs := inverseCovs g; covDeterms := covDeterms g;
     sums := sums g; prods := prods g;
     sampleCounts := sampleCounts g; totalSampleCount := totalSampleCount g |}.

(** [coefs[i]], [mean[i]], [cov[i]]. *)
Definition coefs (g : GMM) (i : nat) : D := nth (coefs_off + i) (buf g) d_zero.
Definition mean (g : GMM) (i : nat) : D := nth (mean_off + i) (buf g) d_zero.
Definition cov (g : GMM) (i : nat) : D := nth (cov_off + i) (buf g) d_zero.

Definition set_coefs (g : GMM) (i : nat) (v : D) : GMM := set_buf g (coefs_off + i) v.
Definition set_mean (g : GMM) (i : nat) (v : D) : GMM := set_buf g (mean_off + i) v.
Definition set_cov (g : GMM) (i : nat) (v : D) : GMM := set_buf g (cov_off + i) v.

(** [inverseCovs[ci][r][c]], [covDeterms[ci]], [sums[ci][k]],
    [prods[ci][r][c]], [sampleCounts[ci]]. *)
Definition inverseCov (g : GMM) (ci r c : nat) : D :=
  nth (9 * ci + 3 * r + c) (inverseCovs g) d_zero.
Definition covDeterm (g : GMM) (ci : nat) : D := nth ci (covDeterms g) d_zero.
Definition sum (g : GMM) (ci k : nat) : D := nth (3 * ci + k) (sums g) d_zero.
Definition prod (g : GMM) (ci r c : nat) : D :=
  nth (9 * ci + 3 * r + c) (prods g) d_zero.
Definition sampleCount (g : GMM) (ci : nat) : Z := nth ci (sampleCounts g) 0%Z.

Definition set_inverseCov (g : GMM) (ci r c : nat) (v : D) : GMM :=
  {| model := model g;
     inverseCovs := upd (inverseCovs g) (9 * ci + 3 * r + c) v;
     covDeterms := covDeterms g; sums := sums g; prods := prods g;
     sampleCounts := sampleCounts g; totalSampleCount := totalSampleCount g |}.

Definition set_covDeterm (g : GMM) (ci : nat) (v : D) : GMM :=
  {| model := model g; inverseCovs := inverseCovs g;
     covDeterms := upd (covDeterms g) ci v;
     sums := sums g; prods := prods g;
     sampleCounts := sampleCounts g; totalSampleCount := totalSampleCount g |}.

Definition set_sum (g : GMM) (ci k : nat) (v : D) : GMM :=
  {| model := model g; inverseCovs := inverseCovs g; covDeterms := covDeterms g;
     sums := upd (sums g) (3 * ci + k) v; prods := prods g;
     sampleCounts := sampleCounts g; totalSampleCount := totalSampleCount g |}.

Definition set_prod (g : GMM) (ci r c : nat) (v : D) : GMM :=
  {| model := model g; inverseCovs := inverseCovs g; covDeterms := covDeterms g;
     sums := sums g; prods := upd (prods g) (9 * ci + 3 * r + c) v;
     sampleCounts := sampleCounts g; totalSampleCount := totalSampleCount g |}.

Definition set_sampleCount (g : GMM) (ci : nat) (n : Z) : GMM :=
  {| model := model g; inverseCovs := inverseCovs g; covDeterms := covDeterms g;
     sums := sums g; prods := prods g;
     sampleCounts := upd (sampleCounts g) ci n;
     totalSampleCount := totalSampleCount g |}.

Definition set_totalSampleCount (g : GMM) (n : Z) : GMM :=
  {| model := model g; inverseCovs := inverseCovs g; covDeterms := covDeterms g;
     sums := sums g; prods := prods g;
     sampleCounts := sampleCounts g; totalSampleCount := n |}.

Definition set_model (g : GMM) (m : Mat) : GMM :=
  {| model := m; inverseCovs := inverseCovs g; covDeterms := covDeterms g;
     sums := sums g; prods := prods g;
     sampleCounts := sampleCounts g; totalSampleCount := totalSampleCount g |}.

(** [for (int ci = 0; ci < componentsCount; ci++) body], stopped by a throw. *)
Fixpoint for_each (cis : list nat) (body : GMM -> nat -> outcome) (g : GMM)
  : outcome :=
  match cis with
  | [] => Done g
  | ci :: rest => and_then (body g ci) (for_each rest body)
  end.

Definition components : list nat := seq 0 componentsCount.

End Model.

Arguments Vec3d D : clear implicits.
Arguments Mat D : clear implicits.
Arguments GMM D : clear implicits.
Arguments outcome D : clear implicits.

(* ================================================================== *)
(** ** The member functions *)
(* ================================================================== *)

Section Code.
Context {D : Type} {A : Arith D}.
Local Open Scope arith_scope.

(** The cofactor expansion both determinant lines of
    [calcInverseCovAndDeterm] spell out, over [c = cov + 9*ci]. *)
Definition dtrm_of (g : GMM D) (ci : nat) : D :=
  let c := fun k => cov g (9 * ci + k) in
  c 0 * (c 4 * c 8 - c 5 * c 7) - c 1 * (c 3 * c 8 - c 5 * c 6)
  + c 2 * (c 3 * c 7 - c 4 * c 6).

(** The nine stores into [inverseCovs[ci]], in source order. *)
Definition store_inverse (g : GMM D) (ci : nat) (inv_dtrm : D) : GMM D :=
  let c := fun k => cov g (9 * ci + k) in
  let h := set_inverseCov g ci 0 0 ((c 4 * c 8 - c 5 * c 7) * inv_dtrm) in
  let h := set_inverseCov h ci 1 0 (- (c 3 * c 8 - c 5 * c 6) * inv_dtrm) in
  let h := set_inverseCov h ci 2 0 ((c 3 * c 7 - c 4 * c 6) * inv_dtrm) in
  let h := set_inverseCov h ci 0 1 (- (c 1 * c 8 - c 2 * c 7) * inv_dtrm) in
  let h := set_inverseCov h ci 1 1 ((c 0 * c 8 - c 2 * c 6) * inv_dtrm) in
  let h := set_inverseCov h ci 2 1 (- (c 0 * c 7 - c 1 * c 6) * inv_dtrm) in
  let h := set_inverseCov h ci 0 2 ((c 1 * c 5 - c 2 * c 4) * inv_dtrm) in
  let h := set_inverseCov h ci 1 2 (- (c 0 * c 5 - c 2 * c 3) * inv_dtrm) in
  set_inverseCov h ci 2 2 ((c 0 * c 4 - c 1 * c 3) * inv_dtrm).

(** The three [c[k] += singularFix] of the regularisation.  Each element is
    read before anything is written to it, so the reads are taken from the
    state at entry. *)
Definition add_white_noise (g : GMM D) (ci : nat) (singularFix : D) : GMM D :=
  let c := fun k => cov g (9 * ci + k) in
  let h := set_cov g (9 * ci + 0) (c 0 + singularFix) in
  let h := set_cov h (9 * ci + 4) (c 4 + singularFix) in
  set_cov h (9 * ci + 8) (c 8 + singularFix).

(** [void GMM::calcInverseCovAndDeterm(int ci, const double singularFix)]. *)
Definition calcInverseCovAndDeterm (g : GMM D) (ci : nat) (singularFix : D)
  : outcome D :=
  if coefs g ci >? d_zero then
    let dtrm := dtrm_of g ci in
    let g :=
      if (dtrm <=? d_floor) && (singularFix >? d_zero)
      then add_white_noise g ci singularFix
      else g in
    let dtrm :=
      if (dtrm <=? d_floor) && (singularFix >? d_zero)
      then dtrm_of g ci
      else dtrm in
    let g := set_covDeterm g ci dtrm in
    if dtrm >? d_eps then
      let inv_dtrm := d_one / dtrm in
      Done (store_inverse g ci inv_dtrm)
    else Thrown StsAssert g
  else Done g.

(** The body of the loop of the constructor. *)
Definition GMM_ctor_body (g : GMM D) (ci : nat) : outcome D :=
  if coefs g ci >? d_zero
  then calcInverseCovAndDeterm g ci d_zero
  else Done g.

(** [GMM::GMM(Mat& _model)].  [self] is the object before the constructor
    runs: its arrays hold whatever the memory held. *)
Definition GMM_ctor (self : GMM D) (_model : Mat D) : outcome D :=
  let modelSize := (3 + 9 + 1)%Z in
  let checked : res (Mat D) :=
    if mat_empty _model then
      Ok (mat_create_zero 1 (modelSize * Z.of_nat componentsCount) CV_64FC1)
    else if negb (mat_type _model =? CV_64FC1)%Z
            || negb (rows _model =? 1)%Z
            || negb (cols _model =? modelSize * Z.of_nat componentsCount)%Z
    then Err StsBadArg
    else Ok _model in
  match checked with
  | Err e => Thrown e self
  | Ok m =>
      and_then
        (for_each components GMM_ctor_body (set_model self m))
        (fun g => Done (set_totalSampleCount g 0%Z))
  end.

(** [void GMM::initLearning()]. *)
Definition initLearning_body (g : GMM D) (ci : nat) : GMM D :=
  let g := set_sum g ci 2 d_zero in
  let g := set_sum g ci 1 d_zero in
  let g := set_sum g ci 0 d_zero in
  let g := set_prod g ci 0 2 d_zero in
  let g := set_prod g ci 0 1 d_zero in
  let g := set_prod g ci 0 0 d_zero in
  let g := set_prod g ci 1 2 d_zero in
  let g := set_prod g ci 1 1 d_zero in
  let g := set_prod g ci 1 0 d_zero in
  let g := set_prod g ci 2 2 d_zero in
  let g := set_prod g ci 2 1 d_zero in
  let g := set_prod g ci 2 0 d_zero in
  set_sampleCount g ci 0%Z.

Definition initLearning (g : GMM D) : GMM D :=
  set_totalSampleCount (fold_left initLearning_body components g) 0%Z.

(** [void GMM::addSample(int ci, const Vec3d color)].  Every [+=] and [++]
    reads an element no earlier statement of the function writes, so the
    reads are taken from the state at entry. *)
Definition addSample (g : GMM D) (ci : nat) (color : Vec3d D) : GMM D :=
  let h := set_sum g ci 0 (sum g ci 0 + x0 color) in
  let h := set_sum h ci 1 (sum g ci 1 + x1 color) in
  let h := set_sum h ci 2 (sum g ci 2 + x2 color) in
  let h := set_prod h ci 0 0 (prod g ci 0 0 + x0 color * x0 color) in
  let h := set_prod h ci 0 1 (prod g ci 0 1 + x0 color * x1 color) in
  let h := set_prod h ci 0 2 (prod g ci 0 2 + x0 color * x2 color) in
  let h := set_prod h ci 1 0 (prod g ci 1 0 + x1 color * x0 color) in
  let h := set_prod h ci 1 1 (prod g ci 1 1 + x1 color * x1 color) in
  let h := set_prod h ci 1 2 (prod g ci 1 2 + x1 color * x2 color) in
  let h := set_prod h ci 2 0 (prod g ci 2 0 + x2 color * x0 color) in
  let h := set_prod h ci 2 1 (prod g ci 2 1 + x2 color * x1 color) in
  let h := set_prod h ci 2 2 (prod g ci 2 2 + x2 color * x2 color) in
  let h := set_sampleCount h ci (int_incr (sampleCount g ci)) in
  set_totalSampleCount h (int_incr (totalSampleCount g)).

(** The stores of [endLearning] between its assertion and its call of
    [calcInverseCovAndDeterm]: weight, mean and the nine covariances.  The
    accumulators are read from the state at entry (nothing here writes
    them); [m[k]] is read back from the buffer after the three stores of the
    mean. *)
Definition endLearning_fit (g : GMM D) (ci : nat) : GMM D :=
  let n := sampleCount g ci in
  let inv_n := d_one / d_of_int n in
  let h := set_coefs g ci (d_of_int n / d_of_int (totalSampleCount g)) in
  let h := set_mean h (3 * ci + 0) (sum g ci 0 * inv_n) in
  let h := set_mean h (3 * ci + 1) (sum g ci 1 * inv_n) in
  let gm := set_mean h (3 * ci + 2) (sum g ci 2 * inv_n) in
  let m := fun k => mean gm (3 * ci + k) in
  let h := set_cov gm (9 * ci + 0) (prod g ci 0 0 * inv_n - m 0 * m 0) in
  let h := set_cov h (9 * ci + 1) (prod g ci 0 1 * inv_n - m 0 * m 1) in
  let h := set_cov h (9 * ci + 2) (prod g ci 0 2 * inv_n - m 0 * m 2) in
  let h := set_cov h (9 * ci + 3) (prod g ci 1 0 * inv_n - m 1 * m 0) in
  let h := set_cov h (9 * ci + 4) (prod g ci 1 1 * inv_n - m 1 * m 1) in
  let h := set_cov h (9 * ci + 5) (prod g ci 1 2 * inv_n - m 1 * m 2) in
  let h := set_cov h (9 * ci + 6) (prod g ci 2 0 * inv_n - m 2 * m 0) in
  let h := set_cov h (9 * ci + 7) (prod g ci 2 1 * inv_n - m 2 * m 1) in
  set_cov h (9 * ci + 8) (prod g ci 2 2 * inv_n - m 2 * m 2).

(** The body of the loop of [endLearning]. *)
Definition endLearning_body (g : GMM D) (ci : nat) : outcome D :=
  let n := sampleCount g ci in
  if (n =? 0)%Z then Done (set_coefs g ci d_zero)
  else if (totalSampleCount g >? 0)%Z
  then calcInverseCovAndDeterm (endLearning_fit g ci) ci d_fix
  else Thrown StsAssert g.

(** [void GMM::endLearning()]. *)
Definition endLearning (g : GMM D) : outcome D :=
  for_each components endLearning_body g.

Context {L : Libm D}.

(** [double GMM::operator()(int ci, const Vec3d color) const]. *)
Definition density (g : GMM D) (ci : nat) (color : Vec3d D) : res D :=
  if coefs g ci >? d_zero then
    if covDeterm g ci >? d_eps then
      let m := fun k => mean g (3 * ci + k) in
      let diff0 := x0 color - m 0 in
      let diff1 := x1 color - m 1 in
      let diff2 := x2 color - m 2 in
      let ic := inverseCov g ci in
      let mult :=
        diff0 * (diff0 * ic 0 0 + diff1 * ic 1 0 + diff2 * ic 2 0)
        + diff1 * (diff0 * ic 0 1 + diff1 * ic 1 1 + diff2 * ic 2 1)
        + diff2 * (diff0 * ic 0 2 + diff1 * ic 1 2 + diff2 * ic 2 2) in
      Ok (d_one / d_sqrt (covDeterm g ci) * d_exp (- d_half * mult))
    else Err StsAssert
  else Ok d_zero.

(** [double GMM::operator()(const Vec3d color) const]: the loop, from the
    components still to visit and the running [res]. *)
Fixpoint mixture_loop (g : GMM D) (color : Vec3d D) (cis : list nat) (r : D)
  : res D :=
  match cis with
  | [] => Ok r
  | ci :: rest =>
      match density g ci color with
      | Ok p => mixture_loop g color rest (r + coefs g ci * p)
      | Err e => Err e
      end
  end.

Definition mixture (g : GMM D) (color : Vec3d D) : res D :=
  mixture_loop g color components d_zero.

(** [int GMM::whichComponent(const Vec3d color) const]: the loop, from the
    components still to visit and the running [k] and [max]. *)
Fixpoint whichComponent_loop (g : GMM D) (color : Vec3d D) (cis : list nat)
  (k : nat) (max : D) : res nat :=
  match cis with
  | [] => Ok k
  | ci :: rest =>
      match density g ci color with
      | Ok p =>
          if p >? max
          then whichComponent_loop g color rest ci p
          else whichComponent_loop g color rest k max
      | Err e => Err e
      end
  end.

Definition whichComponent (g : GMM D) (color : Vec3d D) : res nat :=
  whichComponent_loop g color components 0 d_zero.

End Code.

(* ================================================================== *)
(** ** Vocabulary of the properties *)
(* ================================================================== *)

Section Vocabulary.
Context {D : Type} {A : Arith D}.

(** The member arrays have their declared sizes (the layout of the class). *)
Definition wf_arrays (g : GMM D) : Prop :=
  length (inverseCovs g) = 9 * componentsCount /\
  length (covDeterms g) = componentsCount /\
  length (sums g) = 3 * componentsCount /\
  length (prods g) = 9 * componentsCount /\
  length (sampleCounts g) = componentsCount.

(** The parameter buffer holds [13 * componentsCount] doubles, which the
    constructor establishes. *)
Definition wf_model (g : GMM D) : Prop :=
  length (buf g) = 13 * componentsCount.

Definition wf (g : GMM D) : Prop := wf_model g /\ wf_arrays g.

(** The object an outcome leaves. *)
Definition result_state (o : outcome D) : GMM D :=
  match o with Done g => g | Thrown _ g => g end.

(** Everything the object holds about component [ci]: weight, mean,
    covariance, cached determinant and cached inverse covariance. *)
Record Component : Type := mkComponent {
  weight : D;
  mu : list D;
  sigma : list D;
  sigma_det : D;
  sigma_inv : list D
}.

Definition component (g : GMM D) (ci : nat) : Component :=
  {| weight := coefs g ci;
     mu := map (fun k => mean g (3 * ci + k)) (seq 0 3);
     sigma := map (fun k => cov g (9 * ci + k)) (seq 0 9);
     sigma_det := covDeterm g ci;
     sigma_inv := map (fun k => nth (9 * ci + k) (inverseCovs g) d_zero) (seq 0 9) |}.

(** The learning accumulators. *)
Definition same_accumulators (g h : GMM D) : Prop :=
  sums h = sums g /\ prods h = prods g /\
  sampleCounts h = sampleCounts g /\ totalSampleCount h = totalSampleCount g.

(** [h] differs from [g] at most in what it holds about component [ci]. *)
Definition frame (ci : nat) (g h : GMM D) : Prop :=
  (wf g -> wf h) /\
  same_accumulators g h /\
  (forall cj, cj < componentsCount -> cj <> ci -> component h cj = component g cj).

Definition Zsum (l : list Z) : Z := fold_right Z.add 0%Z l.

(** The accumulator invariant: the total is the sum of the per-component
    counts, none of which is negative. *)
Definition counts_consistent (g : GMM D) : Prop :=
  length (sampleCounts g) = componentsCount /\
  totalSampleCount g = Zsum (sampleCounts g) /\
  Forall (fun n => 0 <= n)%Z (sampleCounts g).

(** A learning pass up to its [endLearning]: [initLearning], then one
    [addSample] per (component, colour) pair. *)
Definition add_samples (g : GMM D) (samples : list (nat * Vec3d D)) : GMM D :=
  fold_left (fun g s => addSample g (fst s) (snd s)) samples g.

Definition learning_pass (g : GMM D) (samples : list (nat * Vec3d D)) : GMM D :=
  add_samples (initLearning g) samples.

(** The sum of the weights [h] holds for the components that received
    samples in [g], in index order. *)
Definition active_weight_sum (g h : GMM D) : D :=
  fold_left
    (fun acc ci => if (0 <? sampleCount g ci)%Z then (acc + coefs h ci)%D else acc)
    components d_zero.

(** The sum the specification writes for the mixture density, over the
    densities [p] of the components, accumulated in index order from 0. *)
Definition weighted_sum (g : GMM D) (p : nat -> D) : D :=
  fold_left (fun acc ci => acc + coefs g ci * p ci)%D components d_zero.

(** The covariance of component [ci] with [singularFix] on its diagonal. *)
Definition regularised (g : GMM D) (ci : nat) (singularFix : D) (k : nat) : D :=
  if (k =? 0)%nat || (k =? 4)%nat || (k =? 8)%nat
  then (cov g (9 * ci + k) + singularFix)%D
  else cov g (9 * ci + k).

Context {L : Libm D}.

(** The density of a component as a number, 0 when the call throws. *)
Definition density_value (g : GMM D) (color : Vec3d D) (ci : nat) : D :=
  match density g ci color with
  | Ok p => p
  | Err _ => d_zero
  end.

(** The state of the scan of [whichComponent] before component [s]: nothing
    positive seen yet, or [k] is the first component that reaches the
    largest density so far. *)
Definition scanned_upto (g : GMM D) (color : Vec3d D) (s k : nat) (max : D)
  : Prop :=
  let p := density_value g color in
  (k = 0 /\ max = d_zero /\ forall i, i < s -> d_lt d_zero (p i) = false) \/
  (k < s /\ max = p k /\ d_lt d_zero max = true /\
   (forall i, i < s -> d_lt (p k) (p i) = false) /\
   (forall i, i < k -> d_le (p k) (p i) = false)).

End Vocabulary.

(** The Mahalanobis form of the specification, [(x-mu)^T S (x-mu)] with
    [S] the cached inverse covariance, in exact arithmetic. *)
Definition mahalanobis (g : GMM R) (ci : nat) (color : Vec3d R) : R :=
  let d := fun i => nth i [x0 color - mean g (3 * ci + 0);
                           x1 color - mean g (3 * ci + 1);
                           x2 color - mean g (3 * ci + 2)]%R 0%R in
  fold_right Rplus 0%R
    (map (fun i =>
            fold_right Rplus 0%R
              (map (fun j => (d i * inverseCov g ci i j * d j)%R) (seq 0 3)))
         (seq 0 3)).


(** The sign bit of a binary64 value is clear, or it is not a number. *)
Definition sign_clear (x : spec_float) : Prop :=
  match x with
  | S754_nan => True
  | S754_zero s | S754_infinity s | S754_finite s _ _ => s = false
  end.

(** The real number a binary64 datum stands for; 0 for the infinities and
    for NaN. *)
Definition SF2R (x : spec_float) : R :=
  match x with
  | S754_finite s m e =>
      ((if s then -1 else 1) * IZR (Zpos m) * powerRZ 2 e)%R
  | _ => 0%R
  end.

Definition b64_value (x : float) : R := SF2R (Prim2SF x).

(** The sum, as a real number, of the binary64 weights [h] holds for the
    components that received samples in [g]. *)
Definition active_weight_value (g h : GMM float) : R :=
  fold_left
    (fun acc ci =>
       if (0 <? sampleCount g ci)%Z then (acc + b64_value (coefs h ci))%R
       else acc)
    components 0%R.

(** Where the exact quotient lies between two consecutive integers, from
    the remainder [r] of the division by [b]. *)
Definition div_location (b r : Z) : location :=
  if (r =? 0)%Z then loc_Exact else loc_Inexact (2 * r ?= b)%Z.

(* ================================================================== *)
(** ** Vocabulary of the learning pass and of the cache *)
(* ================================================================== *)

Section LearningVocabulary.
Context {D : Type} {A : Arith D}.
Local Open Scope arith_scope.

(** [color[k]]. *)
Definition channel (color : Vec3d D) (k : nat) : D :=
  match k with 0 => x0 color | 1 => x1 color | _ => x2 color end.

(** The colours a sequence of [addSample] calls gives component [ci], in
    call order. *)
Definition samples_of (ci : nat) (samples : list (nat * Vec3d D))
  : list (Vec3d D) :=
  map snd (filter (fun s => (fst s =? ci)%nat) samples).

(** Adding up [f] over colours, from [acc], as repeated [+=] does. *)
Definition accumulate (f : Vec3d D -> D) (ys : list (Vec3d D)) (acc : D) : D :=
  fold_left (fun a y => a + f y) ys acc.

(** Every positive weight comes with a cached determinant above epsilon:
    what the assertion of [operator()(int, Vec3d)] tests. *)
Definition cache_ready (g : GMM D) : Prop :=
  forall ci, ci < componentsCount ->
    (coefs g ci >? d_zero) = true -> (covDeterm g ci >? d_eps) = true.

(** The cache of component [ci] is what [calcInverseCovAndDeterm] computes
    from the stored covariance. *)
Definition cache_coherent (g : GMM D) (ci : nat) : Prop :=
  let c := fun k => cov g (9 * ci + k) in
  let inv_dtrm := d_one / covDeterm g ci in
  covDeterm g ci = dtrm_of g ci /\
  (covDeterm g ci >? d_eps) = true /\
  inverseCov g ci 0 0 = (c 4 * c 8 - c 5 * c 7) * inv_dtrm /\
  inverseCov g ci 1 0 = - (c 3 * c 8 - c 5 * c 6) * inv_dtrm /\
  inverseCov g ci 2 0 = (c 3 * c 7 - c 4 * c 6) * inv_dtrm /\
  inverseCov g ci 0 1 = - (c 1 * c 8 - c 2 * c 7) * inv_dtrm /\
  inverseCov g ci 1 1 = (c 0 * c 8 - c 2 * c 6) * inv_dtrm /\
  inverseCov g ci 2 1 = - (c 0 * c 7 - c 1 * c 6) * inv_dtrm /\
  inverseCov g ci 0 2 = (c 1 * c 5 - c 2 * c 4) * inv_dtrm /\
  inverseCov g ci 1 2 = - (c 0 * c 5 - c 2 * c 3) * inv_dtrm /\
  inverseCov g ci 2 2 = (c 0 * c 4 - c 1 * c 3) * inv_dtrm.

(** The header of the matrix: its type, rows and columns. *)
Definition same_header (g h : GMM D) : Prop :=
  mat_type (model h) = mat_type (model g) /\
  rows (model h) = rows (model g) /\ cols (model h) = cols (model g).

End LearningVocabulary.


Section FitVocabulary.
Context {D : Type} {A : Arith D}.
Local Open Scope arith_scope.

(** [m[k] = sums[ci][k] * inv_n] with [inv_n = 1.0 / n]: the mean
    [endLearning] computes for component [ci] from the accumulators. *)
Definition fitted_mean (g : GMM D) (ci k : nat) : D :=
  sum g ci k * (d_one / d_of_int (sampleCount g ci)).

(** [c[3*r+c] = prods[ci][r][c] * inv_n - m[r] * m[c]]: the covariance
    [endLearning] computes before the cache is recomputed. *)
Definition fitted_cov (g : GMM D) (ci r c : nat) : D :=
  prod g ci r c * (d_one / d_of_int (sampleCount g ci))
  - fitted_mean g ci r * fitted_mean g ci c.

(** The cofactor expansion of [calcInverseCovAndDeterm], on a 3x3 matrix
    given by its entries. *)
Definition det3x3 (a : nat -> nat -> D) : D :=
  a 0%nat 0%nat * (a 1%nat 1%nat * a 2%nat 2%nat - a 1%nat 2%nat * a 2%nat 1%nat)
  - a 0%nat 1%nat * (a 1%nat 0%nat * a 2%nat 2%nat - a 1%nat 2%nat * a 2%nat 0%nat)
  + a 0%nat 2%nat * (a 1%nat 0%nat * a 2%nat 1%nat - a 1%nat 1%nat * a 2%nat 0%nat).

(** The quadratic form [d^T S d] of a 3-vector and a 3x3 matrix, in the
    order [operator()(int, Vec3d)] evaluates it: column by column, each
    column sum multiplied by the entry of [d] for that column. *)
Definition quadratic_form (d : nat -> D) (S : nat -> nat -> D) : D :=
  d 0%nat * (d 0%nat * S 0%nat 0%nat + d 1%nat * S 1%nat 0%nat + d 2%nat * S 2%nat 0%nat)
  + d 1%nat * (d 0%nat * S 0%nat 1%nat + d 1%nat * S 1%nat 1%nat + d 2%nat * S 2%nat 1%nat)
  + d 2%nat * (d 0%nat * S 0%nat 2%nat + d 1%nat * S 1%nat 2%nat + d 2%nat * S 2%nat 2%nat).

(** [diff = color - mean] of component [ci]. *)
Definition centred (g : GMM D) (ci : nat) (color : Vec3d D) (k : nat) : D :=
  channel color k - mean g (3 * ci + k).

End FitVocabulary.

(* ================================================================== *)
(** ** Concrete objects *)
(* ================================================================== *)

(** An object whose constructor has not run yet, with some content in its
    arrays, and the empty matrix. *)
Definition raw64 : GMM float :=
  {| model := mkMat 0 0 0 [];
     inverseCovs := repeat 7%float 45; covDeterms := repeat 7%float 5;
     sums := repeat 7%float 15; prods := repeat 7%float 45;
     sampleCounts := repeat 3%Z 5; totalSampleCount := 9 |}.

Definition no_mat64 : Mat float := mkMat 0 0 0 [].

(** [GMM gmm(m)] on an empty [m]. *)
Definition fresh64 : GMM float := result_state (GMM_ctor raw64 no_mat64).

(** The scenario of the specification: ten samples (100,100,100) for
    component 2. *)
Definition ten_samples64 : list (nat * Vec3d float) :=
  repeat (2, mkVec3d 100%float 100%float 100%float) 10.

(** Five samples (0.3,0.3,0.3) for component 0. *)
Definition five_samples64 : list (nat * Vec3d float) :=
  repeat (0, mkVec3d 0x1.3333333333333p-2%float 0x1.3333333333333p-2%float
               0x1.3333333333333p-2%float) 5.

(** Two samples (1e8,1e8,0) and (-1e8,-1e8,0) for component 0. *)
Definition two_samples64 : list (nat * Vec3d float) :=
  [(0, mkVec3d 1e8%float 1e8%float 0%float);
   (0, mkVec3d (-1e8)%float (-1e8)%float 0%float)].

(** The states the runs below go through: after the stores of
    [endLearning] for the component that has the samples, after the
    recomputation of its cache, and after one more recomputation. *)
Definition fitted_two64 : GMM float :=
  endLearning_fit (learning_pass fresh64 two_samples64) 0.
Definition failed_two64 : GMM float :=
  result_state (calcInverseCovAndDeterm fitted_two64 0 d_fix).
Definition fitted_five64 : GMM float :=
  endLearning_fit (learning_pass fresh64 five_samples64) 0.
Definition once_five64 : GMM float :=
  result_state (calcInverseCovAndDeterm fitted_five64 0 d_fix).
Definition twice_five64 : GMM float :=
  result_state (calcInverseCovAndDeterm once_five64 0 d_fix).
Definition fitted_ten64 : GMM float :=
  endLearning_fit (learning_pass fresh64 ten_samples64) 2.
Definition once_ten64 : GMM float :=
  result_state (calcInverseCovAndDeterm fitted_ten64 2 d_fix).

(** Six samples: one for component 0, four for component 1, one for
    component 2. *)
Definition six_samples64 : list (nat * Vec3d float) :=
  [(0, mkVec3d 10%float 20%float 30%float);
   (1, mkVec3d 200%float 100%float 50%float);
   (1, mkVec3d 100%float 200%float 50%float);
   (2, mkVec3d 0%float 0%float 255%float);
   (1, mkVec3d 150%float 150%float 60%float);
   (1, mkVec3d 120%float 130%float 40%float)].

Definition fitted_six64 : GMM float :=
  result_state (endLearning (learning_pass fresh64 six_samples64)).

(** The same objects in exact arithmetic. *)
Definition blank : GMM R :=
  {| model := mkMat CV_64FC1 1 65 (repeat 0%R 65);
     inverseCovs := repeat 0%R 45; covDeterms := repeat 0%R 5;
     sums := repeat 0%R 15; prods := repeat 0%R 45;
     sampleCounts := repeat 0%Z 5; totalSampleCount := 0 |}.

Definition one_sample : list (nat * Vec3d R) :=
  [(2, mkVec3d 100%R 100%R 100%R)].

(** A model with one active component: weight 1, mean 0, unit covariance,
    with its cache. *)
Definition unit_model : GMM R :=
  {| model := mkMat CV_64FC1 1 65
       ([1; 0; 0; 0; 0] ++ repeat 0 15
        ++ [1; 0; 0; 0; 1; 0; 0; 0; 1] ++ repeat 0 36)%R;
     inverseCovs := ([1; 0; 0; 0; 1; 0; 0; 0; 1] ++ repeat 0 36)%R;
     covDeterms := [1; 0; 0; 0; 0]%R;
     sums := repeat 0%R 15; prods := repeat 0%R 45;
     sampleCounts := repeat 0%Z 5; totalSampleCount := 0 |}.

Definition grey : Vec3d R := mkVec3d 1%R 1%R 1%R.


(** Three samples for component 0 in binary64, in two orders. *)
Definition ascending64 : list (nat * Vec3d float) :=
  [(0, mkVec3d 0x1.999999999999ap-4%float 0%float 0%float);
   (0, mkVec3d 0x1.999999999999ap-3%float 0%float 0%float);
   (0, mkVec3d 0x1.3333333333333p-2%float 0%float 0%float)].

Definition descending64 : list (nat * Vec3d float) :=
  [(0, mkVec3d 0x1.3333333333333p-2%float 0%float 0%float);
   (0, mkVec3d 0x1.999999999999ap-3%float 0%float 0%float);
   (0, mkVec3d 0x1.999999999999ap-4%float 0%float 0%float)].

Definition no_mat : Mat R := mkMat 0 0 0 [].

(** What C fixes of [exp] whatever the library (Annex F): [exp(+-0) = 1],
    [exp(-inf) = +0], [exp(+inf) = +inf] and [exp(NaN) = NaN].  This
    function agrees with every conforming [exp] at these arguments and is not
    a number at any other; it serves in the binary64 runs whose result does
    not depend on the library. *)
Definition exp_fixed (x : float) : float :=
  if PrimFloat.eqb x 0 then 1%float
  else if PrimFloat.eqb x neg_infinity then 0%float
  else if PrimFloat.eqb x infinity then infinity
  else nan.

(** A 1 x 65 buffer whose first weight is -1 and everything else 0, the
    object the constructor makes of it, and the colour (0,0,0). *)
Definition negative_weight_mat : Mat float :=
  mkMat CV_64FC1 1 65 ((-1)%float :: repeat 0%float 64).
Definition negative64 : GMM float :=
  result_state (GMM_ctor raw64 negative_weight_mat).
Definition origin64 : Vec3d float := mkVec3d 0%float 0%float 0%float.

(** A 1 x 64 buffer. *)
Definition short_mat64 : Mat float :=
  mkMat CV_64FC1 1 64 (repeat 0%float 64).

(** What a completed pass over the ten samples of the scenario leaves. *)
Definition learned_ten64 : GMM float :=
  result_state (endLearning (learning_pass fresh64 ten_samples64)).

(** Three samples for component 0 whose first channels add up to 5. *)
Definition three_samples64 : list (nat * Vec3d float) :=
  [(0, mkVec3d 1%float 0%float 0%float);
   (0, mkVec3d 2%float 0%float 0%float);
   (0, mkVec3d 2%float 0%float 0%float)].
Definition learned_three64 : GMM float :=
  result_state (endLearning (learning_pass fresh64 three_samples64)).

(** Six finite samples for component 0, of magnitude 1e81 along each axis. *)
Definition huge_samples64 : list (nat * Vec3d float) :=
  [(0, mkVec3d 1e81%float 0%float 0%float);
   (0, mkVec3d (-1e81)%float 0%float 0%float);
   (0, mkVec3d 0%float 1e81%float 0%float);
   (0, mkVec3d 0%float (-1e81)%float 0%float);
   (0, mkVec3d 0%float 0%float 1e81%float);
   (0, mkVec3d 0%float 0%float (-1e81)%float)].
Definition learned_huge64 : GMM float :=
  result_state (endLearning (learning_pass fresh64 huge_samples64)).

(* ================================================================== *)
(** ** Proof tools *)
(* ================================================================== *)

(** Unfold the views down to [nth] and [upd] on the fields of the object. *)
Ltac views :=
  unfold component, coefs, mean, cov, inverseCov, covDeterm, sum, prod,
    sampleCount, set_coefs, set_mean, set_cov, buf, coefs_off, mean_off,
    cov_off, wf, wf_model, wf_arrays, same_accumulators, buf,
    componentsCount in *;
  cbn [model inverseCovs covDeterms sums prods sampleCounts totalSampleCount
       data mat_type rows cols map seq
       set_buf buf set_inverseCov set_covDeterm set_sum set_prod
       set_sampleCount set_totalSampleCount set_model] in *;
  unfold buf in *.

(** Evaluate in exact arithmetic, leaving the reals alone. *)
Ltac Rcompute := cbv -[Rplus Rminus Rmult Rdiv Ropp Rinv IZR Rle Rlt].

(* ================================================================== *)
(** ** Arrays *)
(* ================================================================== *)

Section Arrays.
Variable T : Type.
Implicit Types (l : list T) (i j : nat) (v d : T).

Lemma upd_length l i v : length (upd l i v) = length l.
Proof.
  revert i; induction l as [|h t IH]; intros [|i]; simpl; auto.
Qed.

Lemma nth_upd_same l i v d : i < length l -> nth i (upd l i v) d = v.
Proof.
  revert i; induction l as [|h t IH]; intros [|i] Hi; simpl in *; try lia; auto.
  apply IH; lia.
Qed.

Lemma nth_upd_other l i j v d : i <> j -> nth j (upd l i v) d = nth j l d.
Proof.
  revert i j; induction l as [|h t IH]; intros [|i] [|j] Hij; simpl; auto; try lia.
Qed.

Lemma upd_nth_id l i d : upd l i (nth i l d) = l.
Proof.
  revert i; induction l as [|h t IH]; intros [|i]; simpl; auto.
  now rewrite IH.
Qed.

Lemma upd_present l i v d : nth i l d = v -> upd l i v = l.
Proof. intros <-. apply upd_nth_id. Qed.

Lemma upd_upd_same l i v w : upd (upd l i v) i w = upd l i w.
Proof.
  revert i; induction l as [|h t IH]; intros [|i]; simpl; auto.
  now rewrite IH.
Qed.

Lemma Forall_upd (P : T -> Prop) l i v : Forall P l -> P v -> Forall P (upd l i v).
Proof.
  intros Hl Hv; revert i; induction Hl as [|h t Hh Ht IH]; intros [|i]; simpl;
    constructor; auto.
Qed.

End Arrays.

Lemma Zsum_upd (l : list Z) (i : nat) (v : Z) :
  i < length l -> Zsum (upd l i v) = (Zsum l - nth i l 0 + v)%Z.
Proof.
  revert i; induction l as [|h t IH]; intros [|i] Hi; simpl in *; try lia.
  rewrite IH by lia. lia.
Qed.

(** Read through the stores. *)
Ltac arrays :=
  repeat first
    [ rewrite upd_length
    | rewrite nth_upd_other by lia
    | rewrite nth_upd_same by (rewrite ?upd_length; lia) ].

Section Frames.
Context {D : Type} {A : Arith D}.
Implicit Types (g h : GMM D) (ci cj : nat).

Lemma frame_refl ci g : frame ci g g.
Proof. unfold frame, same_accumulators; intuition auto. Qed.

Lemma frame_trans ci g h k : frame ci g h -> frame ci h k -> frame ci g k.
Proof.
  intros (W1 & (S1 & P1 & C1 & T1) & F1) (W2 & (S2 & P2 & C2 & T2) & F2).
  unfold frame, same_accumulators.
  split; [auto|]. split; [intuition congruence|].
  intros cj Hcj Hne. rewrite F2, F1; auto.
Qed.

Lemma frame_set_coefs ci g v :
  ci < componentsCount -> frame ci g (set_coefs g ci v).
Proof.
  intros Hci. unfold frame; views. repeat split; intros; arrays; intuition auto.
Qed.

Lemma frame_set_mean ci k g v :
  ci < componentsCount -> k < 3 -> frame ci g (set_mean g (3 * ci + k) v).
Proof.
  intros Hci Hk. unfold frame; views. repeat split; intros; arrays; intuition auto.
Qed.

Lemma frame_set_cov ci k g v :
  ci < componentsCount -> k < 9 -> frame ci g (set_cov g (9 * ci + k) v).
Proof.
  intros Hci Hk. unfold frame; views. repeat split; intros; arrays; intuition auto.
Qed.

Lemma frame_set_covDeterm ci g v : frame ci g (set_covDeterm g ci v).
Proof.
  unfold frame; views. repeat split; intros; arrays; intuition auto.
Qed.

Lemma frame_set_inverseCov ci r c g v :
  r < 3 -> c < 3 -> frame ci g (set_inverseCov g ci r c v).
Proof.
  intros Hr Hc. unfold frame; views. repeat split; intros; arrays; intuition auto.
Qed.

End Frames.

(* ================================================================== *)
(** ** The cache *)
(* ================================================================== *)

Section Cache.
Context {D : Type} {A : Arith D}.
Implicit Types (g h : GMM D) (ci cj : nat).
Local Open Scope arith_scope.

Lemma frame_add_white_noise ci g fx :
  ci < componentsCount -> frame ci g (add_white_noise g ci fx).
Proof.
  intros Hci. unfold add_white_noise.
  repeat (eapply frame_trans; [|apply frame_set_cov; lia]).
  apply frame_refl.
Qed.

Lemma frame_store_inverse ci g v : frame ci g (store_inverse g ci v).
Proof.
  unfold store_inverse.
  repeat (eapply frame_trans; [|apply frame_set_inverseCov; lia]).
  apply frame_refl.
Qed.

(** The three shapes a call of [calcInverseCovAndDeterm] can take. *)
Lemma calc_cases g ci fx :
  let g1 := if (dtrm_of g ci <=? d_floor) && (fx >? d_zero)
            then add_white_noise g ci fx else g in
  let g2 := set_covDeterm g1 ci (dtrm_of g1 ci) in
  ((coefs g ci >? d_zero) = false /\ calcInverseCovAndDeterm g ci fx = Done g) \/
  ((coefs g ci >? d_zero) = true /\ (dtrm_of g1 ci >? d_eps) = false /\
   calcInverseCovAndDeterm g ci fx = Thrown StsAssert g2) \/
  ((coefs g ci >? d_zero) = true /\ (dtrm_of g1 ci >? d_eps) = true /\
   calcInverseCovAndDeterm g ci fx =
     Done (store_inverse g2 ci (d_one / dtrm_of g1 ci))).
Proof.
  intros g1 g2. subst g1 g2. unfold calcInverseCovAndDeterm.
  destruct (coefs g ci >? d_zero); [|left; auto].
  right.
  destruct ((dtrm_of g ci <=? d_floor) && (fx >? d_zero)).
  - destruct (dtrm_of (add_white_noise g ci fx) ci >? d_eps); [right|left]; auto.
  - destruct (dtrm_of g ci >? d_eps); [right|left]; auto.
Qed.

Lemma frame_calc ci g fx :
  ci < componentsCount ->
  frame ci g (result_state (calcInverseCovAndDeterm g ci fx)).
Proof.
  intros Hci.
  assert (F1 : frame ci g (if (dtrm_of g ci <=? d_floor) && (fx >? d_zero)
                           then add_white_noise g ci fx else g)).
  { destruct (_ && _); [apply frame_add_white_noise; auto | apply frame_refl]. }
  destruct (calc_cases g ci fx) as [(_ & ->)|[(_ & _ & ->)|(_ & _ & ->)]];
    cbn [result_state].
  - apply frame_refl.
  - eapply frame_trans; [exact F1|apply frame_set_covDeterm].
  - eapply frame_trans; [|apply frame_store_inverse].
    eapply frame_trans; [exact F1|apply frame_set_covDeterm].
Qed.

End Cache.

Section Cache2.
Context {D : Type} {A : Arith D}.
Implicit Types (g h : GMM D) (ci cj : nat).
Local Open Scope arith_scope.

Lemma buf_set_covDeterm g ci v : buf (set_covDeterm g ci v) = buf g.
Proof. reflexivity. Qed.

Lemma buf_store_inverse g ci v : buf (store_inverse g ci v) = buf g.
Proof. reflexivity. Qed.

Lemma covDeterms_store_inverse g ci v :
  covDeterms (store_inverse g ci v) = covDeterms g.
Proof. reflexivity. Qed.

Lemma dtrm_of_buf g h ci : buf h = buf g -> dtrm_of h ci = dtrm_of g ci.
Proof. intros E. unfold dtrm_of, cov. now rewrite E. Qed.

Lemma cov_add_white_noise g ci fx k :
  wf_model g -> ci < componentsCount -> k < 9 ->
  cov (add_white_noise g ci fx) (9 * ci + k) = regularised g ci fx k.
Proof.
  intros W Hci Hk. unfold add_white_noise, regularised.
  do 9 (destruct k as [|k]; [cbn [Nat.eqb orb]; views; arrays; auto|]).
  lia.
Qed.

Lemma coefs_add_white_noise g ci fx i :
  ci < componentsCount -> i < componentsCount ->
  coefs (add_white_noise g ci fx) i = coefs g i.
Proof. intros. unfold add_white_noise. views. arrays. auto. Qed.

Lemma mean_add_white_noise g ci fx j :
  ci < componentsCount -> j < 3 * componentsCount ->
  mean (add_white_noise g ci fx) j = mean g j.
Proof. intros. unfold add_white_noise. views. arrays. auto. Qed.

Lemma calc_keeps_weights g ci fx i :
  ci < componentsCount -> i < componentsCount ->
  coefs (result_state (calcInverseCovAndDeterm g ci fx)) i = coefs g i.
Proof.
  intros Hci Hi.
  destruct (calc_cases g ci fx) as [(_ & ->)|[(_ & _ & ->)|(_ & _ & ->)]];
    cbn [result_state]; auto;
    destruct (_ && _); auto;
    change (coefs (add_white_noise g ci fx) i = coefs g i);
    apply coefs_add_white_noise; auto.
Qed.

Lemma calc_keeps_means g ci fx j :
  ci < componentsCount -> j < 3 * componentsCount ->
  mean (result_state (calcInverseCovAndDeterm g ci fx)) j = mean g j.
Proof.
  intros Hci Hj.
  destruct (calc_cases g ci fx) as [(_ & ->)|[(_ & _ & ->)|(_ & _ & ->)]];
    cbn [result_state]; auto;
    destruct (_ && _); auto;
    change (mean (add_white_noise g ci fx) j = mean g j);
    apply mean_add_white_noise; auto.
Qed.


Lemma inverse_store_inverse g ci v :
  wf_arrays g -> ci < componentsCount ->
  let c := fun k => cov g (9 * ci + k) in
  let h := store_inverse g ci v in
  inverseCov h ci 0 0 = (c 4 * c 8 - c 5 * c 7) * v /\
  inverseCov h ci 1 0 = - (c 3 * c 8 - c 5 * c 6) * v /\
  inverseCov h ci 2 0 = (c 3 * c 7 - c 4 * c 6) * v /\
  inverseCov h ci 0 1 = - (c 1 * c 8 - c 2 * c 7) * v /\
  inverseCov h ci 1 1 = (c 0 * c 8 - c 2 * c 6) * v /\
  inverseCov h ci 2 1 = - (c 0 * c 7 - c 1 * c 6) * v /\
  inverseCov h ci 0 2 = (c 1 * c 5 - c 2 * c 4) * v /\
  inverseCov h ci 1 2 = - (c 0 * c 5 - c 2 * c 3) * v /\
  inverseCov h ci 2 2 = (c 0 * c 4 - c 1 * c 3) * v.
Proof.
  intros W Hci c h. subst c h. unfold store_inverse. views.
  repeat apply conj; arrays; reflexivity.
Qed.

(** What a completed call leaves in the cache of an active component. *)
Lemma calc_done_cache g ci fx h :
  wf g -> ci < componentsCount ->
  (coefs g ci >? d_zero) = true ->
  calcInverseCovAndDeterm g ci fx = Done h ->
  let c := fun k => cov h (9 * ci + k) in
  let inv_dtrm := d_one / covDeterm h ci in
  covDeterm h ci = dtrm_of h ci /\
  (covDeterm h ci >? d_eps) = true /\
  inverseCov h ci 0 0 = (c 4 * c 8 - c 5 * c 7) * inv_dtrm /\
  inverseCov h ci 1 0 = - (c 3 * c 8 - c 5 * c 6) * inv_dtrm /\
  inverseCov h ci 2 0 = (c 3 * c 7 - c 4 * c 6) * inv_dtrm /\
  inverseCov h ci 0 1 = - (c 1 * c 8 - c 2 * c 7) * inv_dtrm /\
  inverseCov h ci 1 1 = (c 0 * c 8 - c 2 * c 6) * inv_dtrm /\
  inverseCov h ci 2 1 = - (c 0 * c 7 - c 1 * c 6) * inv_dtrm /\
  inverseCov h ci 0 2 = (c 1 * c 5 - c 2 * c 4) * inv_dtrm /\
  inverseCov h ci 1 2 = - (c 0 * c 5 - c 2 * c 3) * inv_dtrm /\
  inverseCov h ci 2 2 = (c 0 * c 4 - c 1 * c 3) * inv_dtrm.
Proof.
  intros W Hci Hact Hdone.
  destruct (calc_cases g ci fx) as [(E & _)|[(_ & _ & E)|(_ & Heps & E)]];
    try congruence.
  rewrite E in Hdone. injection Hdone as <-.
  set (g1 := if (dtrm_of g ci <=? d_floor) && (fx >? d_zero)
             then add_white_noise g ci fx else g) in *.
  assert (W1 : wf g1).
  { subst g1. destruct (_ && _); auto.
    apply (frame_add_white_noise ci g fx Hci); auto. }
  clearbody g1.
  set (d := dtrm_of g1 ci) in *. set (g2 := set_covDeterm g1 ci d).
  assert (W2 : wf g2) by (apply (frame_set_covDeterm ci g1 d); auto).
  assert (Edet : covDeterm (store_inverse g2 ci (d_one / d)) ci = d).
  { change (nth ci (upd (covDeterms g1) ci d) d_zero = d).
    apply nth_upd_same. destruct W1 as (_ & _ & -> & _); auto. }
  cbv zeta. rewrite Edet.
  split; [symmetry; apply dtrm_of_buf; reflexivity|].
  split; [exact Heps|].
  apply (inverse_store_inverse g2 ci (d_one / d) (proj2 W2) Hci).
Qed.

End Cache2.

Section Recompute.
Context {D : Type} {A : Arith D}.
Implicit Types (g h : GMM D) (ci cj : nat).
Local Open Scope arith_scope.

Lemma set_inverseCov_present g ci r c v :
  inverseCov g ci r c = v -> set_inverseCov g ci r c v = g.
Proof.
  destruct g. unfold inverseCov, set_inverseCov. cbn. intros H.
  f_equal. eapply upd_present. exact H.
Qed.

Lemma set_covDeterm_present g ci v :
  covDeterm g ci = v -> set_covDeterm g ci v = g.
Proof.
  destruct g. unfold covDeterm, set_covDeterm. cbn. intros H.
  f_equal. eapply upd_present. exact H.
Qed.

Lemma cov_store_inverse g ci v k : cov (store_inverse g ci v) k = cov g k.
Proof. reflexivity. Qed.

Lemma store_inverse_twice g ci v :
  wf_arrays g -> ci < componentsCount ->
  store_inverse (store_inverse g ci v) ci v = store_inverse g ci v.
Proof.
  intros W Hci.
  pose proof (inverse_store_inverse g ci v W Hci) as H. cbv beta zeta in H.
  rewrite <- !(cov_store_inverse g ci v) in H.
  destruct H as (H00 & H10 & H20 & H01 & H11 & H21 & H02 & H12 & H22).
  set (h := store_inverse g ci v) in *.
  unfold store_inverse at 1. cbv beta zeta.
  rewrite (set_inverseCov_present h ci 0 0 _ H00).
  rewrite (set_inverseCov_present h ci 1 0 _ H10).
  rewrite (set_inverseCov_present h ci 2 0 _ H20).
  rewrite (set_inverseCov_present h ci 0 1 _ H01).
  rewrite (set_inverseCov_present h ci 1 1 _ H11).
  rewrite (set_inverseCov_present h ci 2 1 _ H21).
  rewrite (set_inverseCov_present h ci 0 2 _ H02).
  rewrite (set_inverseCov_present h ci 1 2 _ H12).
  apply (set_inverseCov_present h ci 2 2 _ H22).
Qed.

(** A second call with the same arguments after a completed one changes
    nothing when the component is inactive or the first call did not leave a
    determinant at or below the floor together with a positive
    [singularFix]. *)
Lemma calc_again_same (g h : GMM D) (ci : nat) (singularFix : D) :
  wf g -> ci < componentsCount ->
  calcInverseCovAndDeterm g ci singularFix = Done h ->
  (coefs g ci >? d_zero) = false \/
  ((covDeterm h ci <=? d_floor) && (singularFix >? d_zero)) = false ->
  calcInverseCovAndDeterm h ci singularFix = Done h.
Proof.
  intros W Hci Hdone Hcond.
  destruct (calc_cases g ci singularFix) as [(E0 & E)|[(_ & _ & E)|(Hact & Heps & E)]];
    rewrite E in Hdone; try discriminate; injection Hdone as <-.
  - exact E.
  - destruct Hcond as [Hcond|Hcond]; [congruence|].
    remember ((dtrm_of g ci <=? d_floor) && (singularFix >? d_zero)) as b eqn:Eb.
    clear Eb E.
    set (g1 := if b then add_white_noise g ci singularFix else g) in *.
    assert (W1 : wf g1).
    { subst g1. destruct b; auto.
      apply (frame_add_white_noise ci g singularFix Hci); auto. }
    assert (Hw1 : coefs g1 ci = coefs g ci).
    { subst g1. destruct b; auto. apply coefs_add_white_noise; auto. }
    clearbody g1.
    set (d := dtrm_of g1 ci) in *. set (g2 := set_covDeterm g1 ci d) in *.
    assert (W2 : wf g2) by (apply (frame_set_covDeterm ci g1 d); auto).
    set (h := store_inverse g2 ci (d_one / d)) in *.
    assert (Edet : covDeterm h ci = d).
    { change (nth ci (upd (covDeterms g1) ci d) d_zero = d).
      apply nth_upd_same. destruct W1 as (_ & _ & -> & _); auto. }
    assert (Ed : dtrm_of h ci = d) by (apply dtrm_of_buf; reflexivity).
    rewrite Edet in Hcond.
    unfold calcInverseCovAndDeterm.
    change (coefs h ci) with (coefs g1 ci). rewrite Hw1, Hact.
    rewrite Ed, Hcond, Heps.
    rewrite (set_covDeterm_present h ci d Edet).
    f_equal. subst h. apply store_inverse_twice; [apply W2|exact Hci].
Qed.

Context {AL : ArithLaws A}.

(** C6, as amended.  For an active component whose covariance has a
    determinant at or below 1e-6, [calcInverseCovAndDeterm] with the fix
    0.01 of [endLearning] adds 0.01 to each diagonal entry and to nothing
    else, recomputes the determinant from the corrected entries and stores
    it; the call completes exactly when that determinant exceeds machine
    epsilon, and otherwise the assertion fails, with the corrected
    covariance and the determinant already stored.  The assertion is
    reachable ([regularisation_can_fail]). *)
Theorem regularisation_guard (g : GMM D) (ci : nat) :
  wf g -> ci < componentsCount ->
  (coefs g ci >? d_zero) = true ->
  (dtrm_of g ci <=? d_floor) = true ->
  let g1 := add_white_noise g ci d_fix in
  (forall k, k < 9 -> cov g1 (9 * ci + k) = regularised g ci d_fix k) /\
  ((dtrm_of g1 ci >? d_eps) = true ->
     exists h, calcInverseCovAndDeterm g ci d_fix = Done h /\
       (forall k, k < 9 -> cov h (9 * ci + k) = regularised g ci d_fix k) /\
       covDeterm h ci = dtrm_of g1 ci) /\
  ((dtrm_of g1 ci >? d_eps) = false ->
     exists h, calcInverseCovAndDeterm g ci d_fix = Thrown StsAssert h /\
       (forall k, k < 9 -> cov h (9 * ci + k) = regularised g ci d_fix k) /\
       covDeterm h ci = dtrm_of g1 ci).
Proof.
  intros W Hci Hact Hlow g1.
  assert (Hcov : forall k, k < 9 -> cov g1 (9 * ci + k) = regularised g ci d_fix k).
  { intros k Hk. apply cov_add_white_noise; [apply W|exact Hci|exact Hk]. }
  assert (W1 : wf g1) by (apply (frame_add_white_noise ci g d_fix Hci); auto).
  assert (Edet : forall v, nth ci (upd (covDeterms g1) ci v) d_zero = v).
  { intros v. apply nth_upd_same. destruct W1 as (_ & _ & -> & _); auto. }
  pose proof (calc_cases g ci d_fix) as C. cbv zeta in C.
  rewrite Hlow, fix_positive in C. cbn [andb] in C. fold g1 in C.
  split; [exact Hcov|]. split; intros Heps.
  - destruct C as [(E & _)|[(_ & E & _)|(_ & _ & E)]]; try congruence.
    eexists. split; [exact E|]. split; [exact Hcov|apply Edet].
  - destruct C as [(E & _)|[(_ & _ & E)|(_ & E & _)]]; try congruence.
    eexists. split; [exact E|]. split; [exact Hcov|apply Edet].
Qed.

End Recompute.

(* ================================================================== *)
(** ** Loops over the components *)
(* ================================================================== *)

Section Loops.
Context {D : Type} {A : Arith D}.
Implicit Types (g h : GMM D) (ci cj : nat).
Local Open Scope arith_scope.

Lemma result_state_and_then (o : outcome D) k :
  result_state (and_then o k) =
  match o with Done g => result_state (k g) | Thrown _ g => g end.
Proof. destruct o; reflexivity. Qed.

Lemma and_then_done (o : outcome D) k h :
  and_then o k = Done h -> exists g1, o = Done g1 /\ k g1 = Done h.
Proof. destruct o; simpl; intros E; [eauto|discriminate]. Qed.

Section Body.
Variable body : GMM D -> nat -> outcome D.
Hypothesis body_frame :
  forall g ci, ci < componentsCount -> frame ci g (result_state (body g ci)).

Lemma for_each_frame l g :
  Forall (fun ci => ci < componentsCount) l ->
  let h := result_state (for_each l body g) in
  (wf g -> wf h) /\ same_accumulators g h /\
  (forall cj, cj < componentsCount -> ~ In cj l -> component h cj = component g cj).
Proof.
  intros Hl. revert g. induction Hl as [|a l Ha Hl IH]; intros g h; subst h.
  - cbn. unfold same_accumulators. intuition auto.
  - cbn [for_each]. rewrite result_state_and_then.
    pose proof (body_frame g a Ha) as (W1 & S1 & F1).
    destruct (body g a) as [g1|e g1]; cbn [result_state] in *.
    + destruct (IH g1) as (W2 & S2 & F2).
      split; [auto|]. split.
      * unfold same_accumulators in *. intuition congruence.
      * intros cj Hcj Hin. rewrite F2, F1; auto; intros ->||intros ?;
          apply Hin; simpl; auto.
    + split; [auto|]. split; [auto|].
      intros cj Hcj Hin. apply F1; auto. intros ->. apply Hin; simpl; auto.
Qed.

Lemma for_each_done l g h :
  NoDup l -> Forall (fun ci => ci < componentsCount) l ->
  for_each l body g = Done h ->
  forall ci, In ci l ->
    exists gi gc, (wf g -> wf gi) /\ same_accumulators g gi /\
      component gi ci = component g ci /\
      body gi ci = Done gc /\ component h ci = component gc ci.
Proof.
  intros Hnd Hl. revert g. induction Hl as [|a l Ha Hl IH]; intros g Hdone ci Hin.
  - destruct Hin.
  - cbn [for_each] in Hdone. apply and_then_done in Hdone as (g1 & Hb & Hrest).
    inversion Hnd as [|? ? Hnotin Hnd']; subst.
    pose proof (body_frame g a Ha) as (W1 & S1 & F1).
    rewrite Hb in W1, S1, F1. cbn [result_state] in *.
    destruct Hin as [->|Hin].
    + exists g, g1. split; [auto|]. split; [unfold same_accumulators; auto|].
      split; [reflexivity|]. split; [auto|].
      pose proof (for_each_frame l g1 Hl) as (_ & _ & F2).
      rewrite Hrest in F2. cbn [result_state] in F2. apply F2; auto.
    + destruct (IH Hnd' g1 Hrest ci Hin) as (gi & gc & W2 & S2 & Hsame & Hbi & Hc).
      exists gi, gc. split; [auto|]. split.
      * unfold same_accumulators in *. intuition congruence.
      * split; [|auto]. rewrite Hsame. apply F1.
        -- rewrite Forall_forall in Hl. apply Hl. exact Hin.
        -- intros ->. contradiction.
Qed.

End Body.

Lemma frame_fit ci g :
  ci < componentsCount -> frame ci g (endLearning_fit g ci).
Proof.
  intros Hci. unfold endLearning_fit.
  repeat (eapply frame_trans; [|apply frame_set_cov; lia]).
  repeat (eapply frame_trans; [|apply frame_set_mean; lia]).
  apply frame_set_coefs; auto.
Qed.

Lemma frame_endLearning_body g ci :
  ci < componentsCount -> frame ci g (result_state (endLearning_body g ci)).
Proof.
  intros Hci. unfold endLearning_body.
  destruct (sampleCount g ci =? 0)%Z; cbn [result_state].
  - apply frame_set_coefs; auto.
  - destruct (totalSampleCount g >? 0)%Z; cbn [result_state].
    + eapply frame_trans; [apply frame_fit; auto|apply frame_calc; auto].
    + apply frame_refl.
Qed.

(** What [endLearning] stores before it recomputes the cache. *)
Lemma fit_values g ci :
  wf_model g -> ci < componentsCount ->
  let h := endLearning_fit g ci in
  let n := d_of_int (sampleCount g ci) in
  let inv_n := d_one / n in
  coefs h ci = n / d_of_int (totalSampleCount g) /\
  (forall k, k < 3 -> mean h (3 * ci + k) = sum g ci k * inv_n) /\
  (forall r c, r < 3 -> c < 3 ->
     cov h (9 * ci + (3 * r + c)) =
     prod g ci r c * inv_n - mean h (3 * ci + r) * mean h (3 * ci + c)).
Proof.
  intros W Hci h n inv_n. subst h n inv_n. unfold endLearning_fit.
  split; [|split].
  - views. arrays. reflexivity.
  - intros k Hk. do 3 (destruct k as [|k]; [views; arrays; reflexivity|]). lia.
  - intros r c Hr Hc.
    do 3 (destruct r as [|r];
          [do 3 (destruct c as [|c]; [views; arrays; reflexivity|]); lia|]).
    lia.
Qed.

End Loops.

(** The comparisons of exact arithmetic, and the list of the components. *)

Lemma Rltb_true x y : (x < y)%R -> Rltb x y = true.
Proof. intros H. unfold Rltb. destruct (Rlt_dec x y); [reflexivity|contradiction]. Qed.

Lemma Rltb_false x y : (y <= x)%R -> Rltb x y = false.
Proof. intros H. unfold Rltb. destruct (Rlt_dec x y); [lra|reflexivity]. Qed.

Lemma Rltb_spec x y : Rltb x y = true <-> (x < y)%R.
Proof.
  unfold Rltb. destruct (Rlt_dec x y); split; intros; auto; try discriminate; lra.
Qed.

Lemma Rleb_spec x y : Rleb x y = true <-> (x <= y)%R.
Proof.
  unfold Rleb. destruct (Rle_dec x y); split; intros; auto; try discriminate; lra.
Qed.

Lemma components_nodup : NoDup components.
Proof. apply seq_NoDup. Qed.

Lemma components_below : Forall (fun ci => ci < componentsCount) components.
Proof. apply Forall_forall. intros ci H. apply in_seq in H. lia. Qed.

Lemma components_in ci : ci < componentsCount -> In ci components.
Proof. intros H. apply in_seq. unfold componentsCount in *. lia. Qed.

Section EndLearning.
Context {D : Type} {A : Arith D}.
Implicit Types (g h : GMM D) (ci cj : nat).

Lemma endLearning_frame g :
  let h := result_state (endLearning g) in
  (wf g -> wf h) /\ same_accumulators g h.
Proof.
  intros h.
  destruct (for_each_frame endLearning_body frame_endLearning_body
              components g components_below) as (W & S & _).
  split; assumption.
Qed.

(** The assertion of [endLearning]: a component with samples while the total
    is not positive. *)
Lemma endLearning_asserts l g :
  (totalSampleCount g <= 0)%Z ->
  (exists ci, In ci l /\ sampleCount g ci <> 0%Z) ->
  exists h, for_each l endLearning_body g = Thrown StsAssert h.
Proof.
  intros Htot. revert g Htot. induction l as [|a l IH]; intros g Htot (ci & Hin & Hn).
  - destruct Hin.
  - cbn [for_each]. unfold endLearning_body at 1.
    destruct (sampleCount g a =? 0)%Z eqn:Ea.
    + cbn [and_then]. apply IH.
      * exact Htot.
      * exists ci. split.
        -- destruct Hin as [->|Hin]; [|exact Hin].
           apply Z.eqb_eq in Ea. contradiction.
        -- exact Hn.
    + destruct (totalSampleCount g >? 0)%Z eqn:Et.
      * apply Z.gtb_lt in Et. lia.
      * cbn [and_then]. eauto.
Qed.

End EndLearning.

(* ================================================================== *)
(** ** Rounding of a binary64 quotient *)
(* ================================================================== *)

Section Quotient.
Local Open Scope Z_scope.

Lemma digits2_pos_size (p : positive) : digits2_pos p = Pos.size p.
Proof. induction p; cbn; congruence. Qed.

Lemma Zdigits2_log2 (p : positive) : Zdigits2 (Zpos p) = Z.log2 (Zpos p) + 1.
Proof.
  cbn [Zdigits2]. rewrite digits2_pos_size.
  destruct p; cbn [Z.log2 Pos.size]; lia.
Qed.

Lemma Zdigits2_unique (q d : Z) :
  0 < d -> 2 ^ (d - 1) <= q < 2 ^ d -> Zdigits2 q = d.
Proof.
  intros Hd Hq.
  assert (0 < q) by (pose proof (Z.pow_pos_nonneg 2 (d - 1)); lia).
  destruct q as [|p|p]; try lia.
  rewrite Zdigits2_log2.
  rewrite (Z.log2_unique (Zpos p) (d - 1)); try lia.
  replace (Z.succ (d - 1)) with d by lia. exact Hq.
Qed.

(** The location of the remainder [r] of a division by [b]. *)
Lemma new_location_spec (b r : Z) :
  0 <= r < b ->
  new_location b r =
  if r =? 0 then loc_Exact else loc_Inexact (2 * r ?= b).
Proof.
  intros H. unfold new_location, new_location_even, new_location_odd.
  destruct (Z.even b) eqn:Eb; destruct (r =? 0) eqn:Er; try reflexivity.
  f_equal.
  assert (Hodd : Z.odd b = true) by (rewrite <- Z.negb_even, Eb; reflexivity).
  apply Z.odd_spec in Hodd. destruct Hodd as (k & Hk).
  destruct (Z.compare_spec (2 * r + 1) b), (Z.compare_spec (2 * r) b);
    try reflexivity; lia.
Qed.

Lemma shr_fexp_53 (q e : Z) (l : location) :
  Zdigits2 q = 53 -> -1074 <= e ->
  shr_fexp 53 1024 q e l = (shr_record_of_loc q l, e).
Proof.
  intros Hd He. unfold shr_fexp. rewrite Hd.
  replace (fexp 53 1024 (53 + e) - e) with 0
    by (unfold fexp, emin; lia).
  reflexivity.
Qed.

Lemma shr_fexp_54 (q e : Z) (l : location) :
  Zdigits2 q = 54 -> -1075 <= e ->
  shr_fexp 53 1024 q e l = (shr_1 (shr_record_of_loc q l), e + 1).
Proof.
  intros Hd He. unfold shr_fexp. rewrite Hd.
  replace (fexp 53 1024 (54 + e) - e) with 1
    by (unfold fexp, emin; lia).
  reflexivity.
Qed.

Lemma loc_of_shr_record_of_loc (q : Z) (l : location) :
  loc_of_shr_record (shr_record_of_loc q l) = l.
Proof. destruct l as [|[]]; reflexivity. Qed.

Lemma shr_m_of_loc (q : Z) (l : location) :
  shr_m (shr_record_of_loc q l) = q.
Proof. destruct l as [|[]]; reflexivity. Qed.

(** Rounding a 53-bit significand that needs no further shift, with the
    carry into the next binade when it rounds up to [2^53]. *)
Lemma round_53 (m e : Z) :
  2 ^ 52 <= m <= 2 ^ 53 -> -1074 <= e <= 900 ->
  exists (p : positive) (k : Z),
    (let '(mrs, e2) := shr_fexp 53 1024 m e loc_Exact in
     match shr_m mrs with
     | Z0 => S754_zero false
     | Zpos m => if Z.leb e2 (1024 - 53) then S754_finite false m e2
                 else S754_infinity false
     | Zneg _ => S754_nan
     end) = S754_finite false p (e + k) /\
    2 ^ 52 <= Zpos p < 2 ^ 53 /\ 0 <= k <= 1 /\ Zpos p * 2 ^ k = m.
Proof.
  intros Hm He.
  destruct (Z.eq_dec m (2 ^ 53)) as [->|Hne].
  - exists (Z.to_pos (2 ^ 52)), 1.
    rewrite shr_fexp_54; [|reflexivity|lia].
    cbn [shr_record_of_loc]. 
    change (shr_m (shr_1 {| shr_m := 2 ^ 53; shr_r := false; shr_s := false |}))
      with (Zpos (Z.to_pos (2 ^ 52))).
    replace (e + 1 <=? 1024 - 53) with true by (symmetry; apply Z.leb_le; lia).
    repeat apply conj; try reflexivity; try lia.
  - assert (Hd : Zdigits2 m = 53) by (apply Zdigits2_unique; lia).
    destruct m as [|p|p]; try lia.
    exists p, 0.
    rewrite shr_fexp_53; [|exact Hd|lia].
    cbn [shr_record_of_loc shr_m].
    replace (e <=? 1024 - 53) with true by (symmetry; apply Z.leb_le; lia).
    replace (e + 0) with e by lia.
    repeat apply conj; try reflexivity; try lia.
Qed.


Lemma round_nearest_even_error (q r b : Z) :
  0 <= r < b ->
  q <= round_nearest_even q (div_location b r) <= q + 1 /\
  2 * Z.abs (round_nearest_even q (div_location b r) * b - (q * b + r)) <= b.
Proof.
  intros H. unfold div_location.
  destruct (Z.eqb_spec r 0) as [->|Hr]; cbn [round_nearest_even].
  - split; lia.
  - destruct (Z.compare_spec (2 * r) b); cbn [round_nearest_even];
      try destruct (Z.even q); split; lia.
Qed.

Lemma round_nearest_even_half_error (h r b : Z) (odd : bool) :
  0 <= r < b ->
  let q := 2 * h + (if odd then 1 else 0) in
  let l := loc_of_shr_record
             (Build_shr_record h odd
                (shr_r (shr_record_of_loc q (div_location b r)) ||
                 shr_s (shr_record_of_loc q (div_location b r)))) in
  h <= round_nearest_even h l <= h + 1 /\
  2 * Z.abs (round_nearest_even h l * 2 * b - (q * b + r)) <= 2 * b.
Proof.
  intros H q l. subst q l. unfold div_location.
  destruct (Z.eqb_spec r 0) as [->|Hr].
  - destruct odd;
      cbn [loc_of_shr_record shr_record_of_loc shr_r shr_s orb
           round_nearest_even];
      try destruct (Z.even h); split; lia.
  - destruct (Z.compare_spec (2 * r) b); destruct odd;
      cbn [loc_of_shr_record shr_record_of_loc shr_r shr_s orb
           round_nearest_even];
      try destruct (Z.even h); split; lia.
Qed.

Lemma shr_1_of_loc (p : positive) (l : location) :
  shr_1 (shr_record_of_loc (Zpos p) l) =
  Build_shr_record (Zpos p / 2) (Z.odd (Zpos p))
    (shr_r (shr_record_of_loc (Zpos p) l) ||
     shr_s (shr_record_of_loc (Zpos p) l)).
Proof.
  rewrite <- Z.div2_div.
  destruct l as [|[]]; destruct p; reflexivity.
Qed.

(** Rounding to nearest-even of a quotient [q + r/b] whose integer part has
    53 or 54 bits: the result is a normal number within half a unit in the
    last place of the exact value. *)
Lemma round_quotient (q r b e : Z) :
  0 <= r < b -> 2 ^ 52 <= q < 2 ^ 54 -> -1074 <= e <= 800 ->
  exists (p : positive) (k : Z),
    binary_round_aux 53 1024 false q e (new_location b r)
      = S754_finite false p (e + k) /\
    2 ^ 52 <= Zpos p < 2 ^ 53 /\ 0 <= k <= 2 /\
    2 * Z.abs (Zpos p * 2 ^ k * b - (q * b + r)) <= 2 ^ k * b.
Proof.
  intros Hr Hq He.
  rewrite new_location_spec by exact Hr. fold (div_location b r).
  unfold binary_round_aux.
  destruct (Z_lt_le_dec q (2 ^ 53)) as [Hlt|Hge].
  - rewrite shr_fexp_53; [|apply Zdigits2_unique; lia|lia].
    rewrite shr_m_of_loc, loc_of_shr_record_of_loc.
    destruct (round_nearest_even_error q r b Hr) as (Hm & Herr).
    destruct (round_53 (round_nearest_even q (div_location b r)) e)
      as (p & k & Heq & Hp & Hk & Hpm); [lia|lia|].
    exists p, k. split; [exact Heq|].
    split; [exact Hp|]. split; [lia|].
    rewrite Hpm.
    assert (Hk' : k = 0 \/ k = 1) by lia.
    destruct Hk' as [->| ->]; change (2 ^ 0) with 1; change (2 ^ 1) with 2; lia.
  - rewrite shr_fexp_54; [|apply Zdigits2_unique; lia|lia].
    destruct q as [|pq|pq]; try lia.
    rewrite shr_1_of_loc. cbn [shr_m].
    set (h := Zpos pq / 2).
    assert (Hq2 : Zpos pq = 2 * h + (if Z.odd (Zpos pq) then 1 else 0)).
    { subst h. rewrite (Z.div_mod (Zpos pq) 2) at 1 by lia.
      rewrite Zmod_odd. reflexivity. }
    pose proof (round_nearest_even_half_error h r b (Z.odd (Zpos pq)) Hr)
      as Hh. cbv zeta in Hh. rewrite <- Hq2 in Hh.
    destruct Hh as (Hm & Herr).
    assert (Hh : 2 ^ 52 <= h < 2 ^ 53).
    { subst h. split.
      - apply Z.div_le_lower_bound; lia.
      - apply Z.div_lt_upper_bound; lia. }
    match goal with
    | |- context [round_nearest_even h ?l] =>
        set (m := round_nearest_even h l) in *
    end.
    destruct (round_53 m (e + 1)) as (p & k & Heq & Hp & Hk & Hpm);
      [lia|lia|].
    exists p, (1 + k). split.
    { replace (e + (1 + k)) with (e + 1 + k) by lia. exact Heq. }
    split; [exact Hp|]. split; [lia|].
    assert (Hk' : k = 0 \/ k = 1) by lia.
    destruct Hk' as [->| ->];
      [change (2 ^ (1 + 0)) with 2|change (2 ^ (1 + 1)) with 4];
      [change (2 ^ 0) with 1 in Hpm|change (2 ^ 1) with 2 in Hpm]; lia.
Qed.

Lemma round_exact_53 (p : positive) (e : Z) :
  2 ^ 52 <= Zpos p < 2 ^ 53 -> -1074 <= e <= 971 ->
  binary_round_aux 53 1024 false (Zpos p) e loc_Exact = S754_finite false p e.
Proof.
  intros Hp He.
  assert (Hd : Zdigits2 (Zpos p) = 53) by (apply Zdigits2_unique; lia).
  unfold binary_round_aux.
  rewrite shr_fexp_53; [|exact Hd|lia].
  cbn [shr_record_of_loc shr_m loc_of_shr_record round_nearest_even].
  rewrite shr_fexp_53; [|exact Hd|lia].
  cbn [shr_record_of_loc shr_m].
  replace (e <=? 1024 - 53) with true by (symmetry; apply Z.leb_le; lia).
  reflexivity.
Qed.

Lemma iter_xO (k p : positive) :
  Zpos (Pos.iter xO p k) = Zpos p * 2 ^ Zpos k.
Proof.
  induction k as [|k IH] using Pos.peano_ind.
  - cbn [Pos.iter]. lia.
  - rewrite Pos.iter_succ, Pos2Z.inj_succ, Z.pow_succ_r by lia.
    rewrite Pos2Z.inj_xO, IH. ring.
Qed.

(** The binary64 value of a positive [int]: a normal number, exactly. *)
Lemma normalize_int (n : Z) :
  0 < n < 2 ^ 31 ->
  exists (p : positive) (s : Z),
    binary_normalize 53 1024 n 0 false = S754_finite false p (- s) /\
    2 ^ 52 <= Zpos p < 2 ^ 53 /\ 22 <= s <= 52 /\ Zpos p = n * 2 ^ s.
Proof.
  intros Hn. destruct n as [|pn|pn]; try lia.
  set (d := Zdigits2 (Zpos pn)).
  assert (Hd : 1 <= d <= 31 /\ 2 ^ (d - 1) <= Zpos pn < 2 ^ d).
  { subst d. rewrite Zdigits2_log2.
    pose proof (Z.log2_nonneg (Zpos pn)).
    pose proof (Z.log2_spec (Zpos pn) ltac:(lia)) as Hs.
    replace (Z.log2 (Zpos pn) + 1 - 1) with (Z.log2 (Zpos pn)) by lia.
    replace (Z.log2 (Zpos pn) + 1) with (Z.succ (Z.log2 (Zpos pn))) by lia.
    split; [|exact Hs]. split; [lia|].
    assert (Z.log2 (Zpos pn) < 31); [|lia].
    apply Z.log2_lt_pow2; lia. }
  destruct Hd as (Hd & Hpow).
  exists (Pos.iter xO pn (Z.to_pos (53 - d))), (53 - d).
  assert (Hval : Zpos (Pos.iter xO pn (Z.to_pos (53 - d)))
                 = Zpos pn * 2 ^ (53 - d)).
  { rewrite iter_xO, Z2Pos.id by lia. reflexivity. }
  assert (Hrange : 2 ^ 52 <= Zpos pn * 2 ^ (53 - d) < 2 ^ 53).
  { assert (E52 : 2 ^ 52 = 2 ^ (d - 1) * 2 ^ (53 - d))
      by (rewrite <- Z.pow_add_r by lia; f_equal; lia).
    assert (E53 : 2 ^ 53 = 2 ^ d * 2 ^ (53 - d))
      by (rewrite <- Z.pow_add_r by lia; f_equal; lia).
    rewrite E52, E53.
    pose proof (Z.pow_pos_nonneg 2 (53 - d) ltac:(lia) ltac:(lia)).
    split; [apply Z.mul_le_mono_nonneg_r|apply Z.mul_lt_mono_pos_r]; lia. }
  split; [|rewrite Hval; repeat apply conj; try lia].
  cbn [binary_normalize]. unfold binary_round, shl_align.
  change (Zpos (digits2_pos pn)) with d.
  replace (fexp 53 1024 (d + 0) - 0) with (Zneg (Z.to_pos (53 - d))).
  2:{ unfold fexp, emin. rewrite <- Pos2Z.opp_pos, Z2Pos.id by lia. lia. }
  replace (fexp 53 1024 (d + 0)) with (- (53 - d))
    by (unfold fexp, emin; lia).
  apply round_exact_53; [rewrite Hval; exact Hrange|lia].
Qed.

(** The quotient of two normal numbers of nearby exponents is rounded to
    within half a unit in the last place. *)
Lemma SFdiv_normal (p1 p2 : positive) (e1 e2 : Z) :
  2 ^ 52 <= Zpos p1 < 2 ^ 53 -> 2 ^ 52 <= Zpos p2 < 2 ^ 53 ->
  -100 <= e1 <= 100 -> -100 <= e2 <= 100 ->
  exists (p : positive) (k : Z),
    SFdiv 53 1024 (S754_finite false p1 e1) (S754_finite false p2 e2)
      = S754_finite false p (e1 - e2 - 53 + k) /\
    2 ^ 52 <= Zpos p < 2 ^ 53 /\ 0 <= k <= 2 /\
    2 * Z.abs (Zpos p * 2 ^ k * Zpos p2 - Zpos p1 * 2 ^ 53)
      <= 2 ^ k * Zpos p2.
Proof.
  intros H1 H2 He1 He2.
  cbn [SFdiv xorb]. unfold SFdiv_core_binary.
  rewrite !(Zdigits2_unique _ 53) by lia.
  replace (Z.min (fexp 53 1024 (53 + e1 - (53 + e2))) (e1 - e2))
    with (e1 - e2 - 53) by (unfold fexp, emin; lia).
  replace (e1 - e2 - (e1 - e2 - 53)) with 53 by lia.
  rewrite Z.shiftl_mul_pow2 by lia.
  pose proof (Z.div_eucl_eq (Zpos p1 * 2 ^ 53) (Zpos p2) ltac:(lia)) as Hdiv.
  pose proof (Z.mod_pos_bound (Zpos p1 * 2 ^ 53) (Zpos p2) ltac:(lia)) as Hmod.
  unfold Z.modulo in Hmod.
  destruct (Z.div_eucl (Zpos p1 * 2 ^ 53) (Zpos p2)) as (q, r).
  assert (Hq : 2 ^ 52 <= q < 2 ^ 54) by nia.
  destruct (round_quotient q r (Zpos p2) (e1 - e2 - 53) Hmod Hq ltac:(lia))
    as (p & k & Heq & Hp & Hk & Herr).
  exists p, k. split; [exact Heq|]. split; [exact Hp|]. split; [exact Hk|].
  rewrite Hdiv. replace (Zpos p2 * q + r) with (q * Zpos p2 + r) by ring.
  exact Herr.
Qed.

End Quotient.

Lemma IZR_pow2 (z : Z) : (0 <= z)%Z -> IZR (2 ^ z) = powerRZ 2 z.
Proof.
  intros H. rewrite <- (Z2Nat.id z H) at 1 2.
  rewrite <- pow_IZR, <- pow_powerRZ. reflexivity.
Qed.

Lemma Prim2SF_of_int (n : Z) :
  (0 < n < 2 ^ 31)%Z ->
  Prim2SF (b64_of_int n) = binary_normalize 53 1024 n 0 false.
Proof.
  intros H. destruct n as [|p|p]; try lia.
  cbn [b64_of_int]. rewrite of_uint63_spec.
  rewrite Uint63.of_Z_spec, Z.mod_small; [reflexivity|].
  change Uint63.wB with (2 ^ 63)%Z. lia.
Qed.

(** The stored weight [(double)n / N] is within a relative [2^-52] of the
    exact quotient. *)
Lemma weight_rounding (n N : Z) :
  (0 < n <= N)%Z -> (N < 2 ^ 31)%Z ->
  (Rabs (b64_value (b64_of_int n / b64_of_int N)%float - IZR n / IZR N)
   <= IZR n / IZR N * / 2 ^ 52)%R.
Proof.
  intros Hn HN. unfold b64_value.
  rewrite div_spec, !Prim2SF_of_int by lia.
  destruct (normalize_int n ltac:(lia)) as (p1 & s1 & -> & Hp1 & Hs1 & E1).
  destruct (normalize_int N ltac:(lia)) as (p2 & s2 & -> & Hp2 & Hs2 & E2).
  destruct (SFdiv_normal p1 p2 (- s1) (- s2) Hp1 Hp2 ltac:(lia) ltac:(lia))
    as (p & k & Hdiv & Hp & Hk & Herr).
  unfold SF64div, FloatOps.prec, FloatOps.emax. rewrite Hdiv. cbn [SF2R].
  (* to the reals *)
  set (A := IZR (2 ^ s1)). set (B := IZR (2 ^ s2)). set (K := IZR (2 ^ k)).
  assert (HA : (0 < A)%R) by (apply IZR_lt, Z.pow_pos_nonneg; lia).
  assert (HB : (0 < B)%R) by (apply IZR_lt, Z.pow_pos_nonneg; lia).
  assert (HK : (0 < K)%R) by (apply IZR_lt, Z.pow_pos_nonneg; lia).
  assert (Hn1 : (IZR (Zpos p1) = IZR n * A)%R)
    by (unfold A; rewrite <- mult_IZR, E1; reflexivity).
  assert (Hn2 : (IZR (Zpos p2) = IZR N * B)%R)
    by (unfold B; rewrite <- mult_IZR, E2; reflexivity).
  assert (HnR : (0 < IZR n)%R) by (apply IZR_lt; lia).
  assert (HNR : (0 < IZR N)%R) by (apply IZR_lt; lia).
  assert (HP : (2 ^ 52 <= IZR (Zpos p))%R).
  { rewrite (pow_IZR 2 52 : (2 ^ 52)%R = IZR (2 ^ 52)).
    apply IZR_le. exact (proj1 Hp). }
  assert (Hpow : (powerRZ 2 (- s1 - - s2 - 53 + k) = B * K / (A * 2 ^ 53))%R).
  { replace (- s1 - - s2 - 53 + k)%Z with ((s2 + k) + - (s1 + 53))%Z by lia.
    rewrite powerRZ_add by lra. rewrite powerRZ_neg'.
    rewrite <- !IZR_pow2 by lia.
    rewrite !Z.pow_add_r by lia. rewrite !mult_IZR.
    fold A B K. rewrite (eq_sym (pow_IZR 2 53) : IZR (2 ^ 53) = (2 ^ 53)%R).
    field. lra. }
  rewrite Hpow.
  set (T := (B * K / (A * 2 ^ 53))%R).
  assert (HT : (0 < T)%R).
  { unfold T. apply Rdiv_lt_0_compat; [|apply Rmult_lt_0_compat];
      try apply pow_lt; try lra. apply Rmult_lt_0_compat; lra. }
  set (x := (IZR n / IZR N)%R).
  set (E := (1 * IZR (Zpos p) * T - x)%R).
  assert (Hz : (2 * Rabs (IZR (Zpos p) * K * IZR (Zpos p2)
                           - IZR (Zpos p1) * 2 ^ 53)
                <= K * IZR (Zpos p2))%R).
  { rewrite (pow_IZR 2 53 : (2 ^ 53)%R = IZR (2 ^ 53)). unfold K.
    rewrite <- !mult_IZR, <- minus_IZR, <- abs_IZR, <- !mult_IZR.
    apply IZR_le. exact Herr. }
  assert (HE : (E = B / (A * 2 ^ 53 * IZR (Zpos p2))
                    * (IZR (Zpos p) * K * IZR (Zpos p2)
                       - IZR (Zpos p1) * 2 ^ 53))%R).
  { unfold E, T, x. rewrite Hn1, Hn2. field.
    repeat split; try apply pow_nonzero; lra. }
  assert (Ha : (Rabs E <= T / 2)%R).
  { rewrite HE, Rabs_mult.
    assert (Hc : (0 < B / (A * 2 ^ 53 * IZR (Zpos p2)))%R).
    { apply Rdiv_lt_0_compat; [lra|].
      repeat apply Rmult_lt_0_compat; try apply pow_lt; try lra.
      rewrite Hn2. apply Rmult_lt_0_compat; lra. }
    rewrite (Rabs_pos_eq _ (Rlt_le _ _ Hc)).
    apply Rle_trans with
      (B / (A * 2 ^ 53 * IZR (Zpos p2)) * (K * IZR (Zpos p2) / 2))%R.
    - apply Rmult_le_compat_l; [lra|]. lra.
    - apply Req_le. unfold T. field.
      repeat split; try apply pow_nonzero; try lra.
      rewrite Hn2. apply Rgt_not_eq, Rmult_lt_0_compat; lra. }
  assert (Hb : (2 ^ 52 * T <= x + E)%R).
  { replace (x + E)%R with (IZR (Zpos p) * T)%R by (unfold E; ring).
    apply Rmult_le_compat_r; lra. }
  assert (H52 : (2 ^ 52 = 4503599627370496)%R) by (simpl; lra).
  rewrite H52 in *.
  revert Ha. unfold Rabs. destruct (Rcase_abs E); destruct (Rcase_abs E);
    intros Ha; try lra.
Qed.

(* ================================================================== *)
(** ** The learning pass *)
(* ================================================================== *)

Lemma wrap32_small z : (- 2147483648 <= z <= INT_MAX)%Z -> wrap32 z = z.
Proof.
  unfold wrap32, INT_MAX. intros H.
  rewrite Z.mod_small by lia. lia.
Qed.

Lemma Zsum_bounds (l : list Z) (i : nat) :
  Forall (fun n => 0 <= n)%Z l -> (0 <= nth i l 0 <= Zsum l)%Z.
Proof.
  intros H. revert i. induction H as [|h t Hh Ht IH]; intros [|i]; simpl; try lia.
  - assert (0 <= Zsum t)%Z by (specialize (IH 0); destruct t; simpl in *; lia).
    lia.
  - specialize (IH i). lia.
Qed.

Section Accumulators.
Context {D : Type} {A : Arith D}.
Implicit Types (g h : GMM D) (ci cj : nat).

Lemma sampleCounts_initLearning g :
  length (sampleCounts g) = componentsCount ->
  sampleCounts (initLearning g) = repeat 0%Z componentsCount.
Proof.
  intros H. unfold initLearning, components, componentsCount in *.
  cbn [seq fold_left]. unfold initLearning_body.
  cbn [sampleCounts set_totalSampleCount set_sampleCount set_prod set_sum].
  destruct (sampleCounts g) as [|a [|b [|c [|d [|e [|f t]]]]]]; try discriminate.
  reflexivity.
Qed.

Lemma counts_initLearning g :
  length (sampleCounts g) = componentsCount ->
  counts_consistent (initLearning g) /\ totalSampleCount (initLearning g) = 0%Z.
Proof.
  intros H. unfold counts_consistent.
  rewrite (sampleCounts_initLearning g H).
  repeat split; try reflexivity. repeat constructor; lia.
Qed.

Lemma counts_addSample g ci color :
  counts_consistent g -> ci < componentsCount ->
  (totalSampleCount g < INT_MAX)%Z ->
  let h := addSample g ci color in
  counts_consistent h /\
  sampleCount h ci = (sampleCount g ci + 1)%Z /\
  (forall cj, cj <> ci -> sampleCount h cj = sampleCount g cj) /\
  totalSampleCount h = (totalSampleCount g + 1)%Z.
Proof.
  intros (Hlen & Htot & Hpos) Hci Hmax h. subst h.
  pose proof (Zsum_bounds (sampleCounts g) ci Hpos) as Hb.
  unfold counts_consistent, addSample, sampleCount, int_incr.
  cbn [sampleCounts totalSampleCount set_totalSampleCount set_sampleCount
       set_prod set_sum].
  rewrite !wrap32_small by (unfold INT_MAX in *; lia).
  unfold componentsCount in *.
  repeat apply conj.
  - now rewrite upd_length.
  - rewrite Zsum_upd by lia. lia.
  - apply Forall_upd; [exact Hpos|lia].
  - apply nth_upd_same. lia.
  - intros cj Hne. apply nth_upd_other. auto.
  - reflexivity.
Qed.

Lemma counts_add_samples samples : forall g,
  counts_consistent g ->
  Forall (fun s => fst s < componentsCount) samples ->
  (totalSampleCount g + Z.of_nat (length samples) <= INT_MAX)%Z ->
  counts_consistent (add_samples g samples) /\
  totalSampleCount (add_samples g samples) =
    (totalSampleCount g + Z.of_nat (length samples))%Z.
Proof.
  induction samples as [|[ci color] rest IH]; intros g Hg Hs Hmax.
  - cbn. split; [exact Hg|lia].
  - inversion Hs as [|? ? Hci Hrest]; subst. cbn [fst] in Hci.
    cbn [length] in Hmax. rewrite Nat2Z.inj_succ in Hmax.
    destruct (counts_addSample g ci color Hg Hci ltac:(lia)) as (H1 & _ & _ & T1).
    unfold add_samples in *. cbn [fold_left fst snd].
    destruct (IH (addSample g ci color) H1 Hrest ltac:(lia)) as (H2 & T2).
    split; [exact H2|]. rewrite T2, T1. cbn [length]. lia.
Qed.

(** A pass of [n] samples counts [n]. *)
Lemma counts_learning_pass g samples :
  length (sampleCounts g) = componentsCount ->
  Forall (fun s => fst s < componentsCount) samples ->
  (Z.of_nat (length samples) <= INT_MAX)%Z ->
  counts_consistent (learning_pass g samples) /\
  totalSampleCount (learning_pass g samples) = Z.of_nat (length samples).
Proof.
  intros Hlen Hs Hmax. unfold learning_pass.
  destruct (counts_initLearning g Hlen) as (H0 & T0).
  destruct (counts_add_samples samples (initLearning g) H0 Hs ltac:(lia))
    as (H1 & T1).
  split; [exact H1|]. rewrite T1, T0. lia.
Qed.

End Accumulators.

Section WfLearning.
Context {D : Type} {A : Arith D}.
Implicit Types (g h : GMM D) (ci cj : nat).

Lemma wf_initLearning g : wf g -> wf (initLearning g).
Proof.
  unfold initLearning, components, componentsCount.
  cbn [seq fold_left]. unfold initLearning_body. intros W. views.
  rewrite !upd_length. exact W.
Qed.

Lemma wf_addSample g ci color : wf g -> wf (addSample g ci color).
Proof.
  unfold addSample. intros W. views. rewrite !upd_length. exact W.
Qed.

Lemma wf_learning_pass g samples : wf g -> wf (learning_pass g samples).
Proof.
  intros W. unfold learning_pass. apply wf_initLearning in W.
  revert W. generalize (initLearning g). unfold add_samples.
  induction samples as [|[ci color] rest IH]; intros g1 W; cbn; auto.
  apply IH. apply wf_addSample. exact W.
Qed.

End WfLearning.


Section ActiveWeight.
Context {D : Type} {A : Arith D}.
Implicit Types (g h : GMM D) (ci : nat).
Local Open Scope arith_scope.

(** In any arithmetic, the weight [endLearning] leaves for a component that
    received samples is the quotient the code computes. *)
Lemma endLearning_active_weight g h ci :
  wf g -> endLearning g = Done h -> ci < componentsCount ->
  (sampleCount g ci > 0)%Z ->
  coefs h ci = d_of_int (sampleCount g ci) / d_of_int (totalSampleCount g).
Proof.
  intros W Hdone Hci Hn. set (n := sampleCount g ci) in *.
  destruct (for_each_done endLearning_body frame_endLearning_body
              components g h components_nodup components_below Hdone ci
              (components_in ci Hci))
    as (gi & gc & Wi & (Es & Ep & Ec & Et) & _ & Hbody & Hcomp).
  assert (En : sampleCount gi ci = n) by (unfold n, sampleCount; now rewrite Ec).
  unfold endLearning_body in Hbody. rewrite En, Et in Hbody.
  destruct (n =? 0)%Z eqn:E0; [apply Z.eqb_eq in E0; lia|].
  destruct (totalSampleCount g >? 0)%Z eqn:Et0; [|discriminate].
  destruct (fit_values gi ci (proj1 (Wi W)) Hci) as (Fw & _).
  rewrite En, Et in Fw.
  change (coefs h ci) with (weight (component h ci)). rewrite Hcomp.
  cbn [weight component].
  pose proof (calc_keeps_weights (endLearning_fit gi ci) ci d_fix ci Hci Hci)
    as K.
  rewrite Hbody in K. cbn [result_state] in K. rewrite K. exact Fw.
Qed.

End ActiveWeight.

(** What a completed [endLearning] leaves about a component, in exact
    arithmetic. *)
Lemma endLearning_fitted (g h : GMM R) (ci : nat) :
  wf g -> endLearning g = Done h -> ci < componentsCount ->
  (sampleCount g ci = 0%Z -> coefs h ci = 0%R) /\
  ((sampleCount g ci > 0)%Z ->
     (totalSampleCount g > 0)%Z /\
     exists fitted cached : GMM R,
       coefs fitted ci
       = (IZR (sampleCount g ci) / IZR (totalSampleCount g))%R /\
       (forall k, k < 3 ->
          mean fitted (3 * ci + k) = (sum g ci k / IZR (sampleCount g ci))%R) /\
       (forall r c, r < 3 -> c < 3 ->
          cov fitted (9 * ci + (3 * r + c)) =
          (prod g ci r c / IZR (sampleCount g ci)
           - mean fitted (3 * ci + r) * mean fitted (3 * ci + c))%R) /\
       calcInverseCovAndDeterm fitted ci (1 / 100)%R = Done cached /\
       component h ci = component cached ci).
Proof.
  intros W Hdone Hci. set (n := sampleCount g ci).
  destruct (for_each_done endLearning_body frame_endLearning_body
              components g h components_nodup components_below Hdone ci
              (components_in ci Hci))
    as (gi & gc & Wi & (Es & Ep & Ec & Et) & _ & Hbody & Hcomp).
  assert (En : sampleCount gi ci = n) by (unfold n, sampleCount; now rewrite Ec).
  unfold endLearning_body in Hbody. rewrite En, Et in Hbody.
  split.
  - intros Hn. rewrite Hn in Hbody. cbn in Hbody. injection Hbody as <-.
    change (coefs h ci) with (weight (component h ci)). rewrite Hcomp.
    cbn [weight component]. destruct (Wi W) as (Wm & _).
    views. arrays. reflexivity.
  - intros Hn. destruct (n =? 0)%Z eqn:E0; [apply Z.eqb_eq in E0; lia|].
    destruct (totalSampleCount g >? 0)%Z eqn:Et0; [|discriminate].
    split; [apply Z.gtb_lt in Et0; lia|].
    exists (endLearning_fit gi ci), gc.
    destruct (fit_values gi ci (proj1 (Wi W)) Hci) as (Fw & Fm & Fc).
    cbv zeta in Fw, Fm, Fc. rewrite En, Et in *.
    assert (Hn0 : IZR n <> 0%R) by (apply not_0_IZR; lia).
    split; [exact Fw|]. split; [|split; [|split; [exact Hbody|exact Hcomp]]].
    + intros k Hk. rewrite (Fm k Hk). unfold sum. rewrite Es.
      cbn. field. exact Hn0.
    + intros r c Hr Hc. rewrite (Fc r c Hr Hc). unfold prod. rewrite Ep.
      cbn. field. exact Hn0.
Qed.

(** The weight [endLearning] leaves for a component that received samples. *)
Lemma endLearning_weight (g h : GMM R) ci :
  wf g -> endLearning g = Done h -> ci < componentsCount ->
  (sampleCount g ci > 0)%Z ->
  coefs h ci = (IZR (sampleCount g ci) / IZR (totalSampleCount g))%R.
Proof.
  intros W Hdone Hci Hn.
  destruct (endLearning_fitted g h ci W Hdone Hci) as (_ & Hpos).
  destruct (Hpos Hn) as (_ & fitted & cached & Hw & _ & _ & Hcalc & Hcomp).
  change (coefs h ci) with (weight (component h ci)). rewrite Hcomp.
  cbn [weight component].
  pose proof (calc_keeps_weights fitted ci (1 / 100)%R ci Hci Hci) as K.
  rewrite Hcalc in K. cbn [result_state] in K. rewrite K. exact Hw.
Qed.

(** In exact arithmetic, for a pass that begins with [initLearning] and adds
    at least one sample, when [endLearning] completes the weights of the
    components with a positive sample count sum to 1 exactly. *)
Lemma active_weights_exact (g0 : GMM R) (samples : list (nat * Vec3d R))
    (h : GMM R) :
  wf g0 ->
  samples <> [] ->
  Forall (fun s => fst s < componentsCount) samples ->
  (Z.of_nat (length samples) <= INT_MAX)%Z ->
  endLearning (learning_pass g0 samples) = Done h ->
  active_weight_sum (learning_pass g0 samples) h = 1%R.
Proof.
  intros W Hne Hs Hmax Hdone.
  pose proof (wf_learning_pass g0 samples W) as Wg.
  destruct (counts_learning_pass g0 samples (proj2 (proj2 (proj2 (proj2 (proj2 W))))) Hs Hmax)
    as ((Hlen & Htot & Hpos) & Hn).
  set (g := learning_pass g0 samples) in *.
  assert (HN : (totalSampleCount g > 0)%Z).
  { rewrite Hn. destruct samples; [congruence|cbn [length]; lia]. }
  assert (HNR : IZR (totalSampleCount g) <> 0%R) by (apply not_0_IZR; lia).
  assert (step : forall acc ci, ci < componentsCount ->
            (if (0 <? sampleCount g ci)%Z then acc + coefs h ci else acc)%R =
            (acc + IZR (sampleCount g ci) / IZR (totalSampleCount g))%R).
  { intros acc ci Hci.
    pose proof (Zsum_bounds (sampleCounts g) ci Hpos) as Hb.
    fold (sampleCount g ci) in Hb.
    destruct (0 <? sampleCount g ci)%Z eqn:E.
    - apply Z.ltb_lt in E.
      rewrite (endLearning_weight g h ci Wg Hdone Hci) by lia. reflexivity.
    - apply Z.ltb_ge in E. replace (sampleCount g ci) with 0%Z by lia.
      unfold Rdiv. rewrite Rmult_0_l, Rplus_0_r. reflexivity. }
  unfold active_weight_sum, components, componentsCount in *.
  cbn [seq fold_left d_zero d_add ideal].
  rewrite !step by lia.
  assert (Esum : IZR (totalSampleCount g) =
                 (IZR (sampleCount g 0) + IZR (sampleCount g 1)
                  + IZR (sampleCount g 2) + IZR (sampleCount g 3)
                  + IZR (sampleCount g 4))%R).
  { rewrite Htot. unfold sampleCount.
    destruct (sampleCounts g) as [|a [|b [|c [|d [|e [|f t]]]]]]; try discriminate.
    cbn [nth Zsum fold_right]. rewrite <- !plus_IZR. f_equal. lia. }
  field_simplify_eq; [lra|exact HNR].
Qed.

(** C2.  In binary64, for a pass that begins with [initLearning] and adds
    at least one sample, when [endLearning] completes the weights stored for
    the components with a positive sample count sum, as real numbers, to 1
    within [2^-52]. *)
Theorem active_weights_sum_to_one (g0 : GMM float)
    (samples : list (nat * Vec3d float)) (h : GMM float) :
  wf g0 ->
  samples <> [] ->
  Forall (fun s => fst s < componentsCount) samples ->
  (Z.of_nat (length samples) <= INT_MAX)%Z ->
  endLearning (learning_pass g0 samples) = Done h ->
  (Rabs (active_weight_value (learning_pass g0 samples) h - 1) <= / 2 ^ 52)%R.
Proof.
  intros W Hne Hs Hmax Hdone.
  pose proof (wf_learning_pass g0 samples W) as Wg.
  destruct (counts_learning_pass g0 samples
              (proj2 (proj2 (proj2 (proj2 (proj2 W))))) Hs Hmax)
    as ((Hlen & Htot & Hpos) & Hn).
  set (g := learning_pass g0 samples) in *.
  assert (HN : (0 < totalSampleCount g < 2 ^ 31)%Z).
  { rewrite Hn. unfold INT_MAX in Hmax.
    destruct samples; [congruence|cbn [length] in *; lia]. }
  assert (HNR : (0 < IZR (totalSampleCount g))%R) by (apply IZR_lt; lia).
  set (x ci := (IZR (sampleCount g ci) / IZR (totalSampleCount g))%R).
  assert (step : forall acc ci, ci < componentsCount ->
            exists w,
              (if (0 <? sampleCount g ci)%Z
               then acc + b64_value (coefs h ci) else acc)%R = (acc + w)%R /\
              (0 <= x ci)%R /\
              (- (x ci * / 2 ^ 52) <= w - x ci <= x ci * / 2 ^ 52)%R).
  { intros acc ci Hci.
    pose proof (Zsum_bounds (sampleCounts g) ci Hpos) as Hb.
    rewrite <- Htot in Hb. fold (sampleCount g ci) in Hb.
    destruct (0 <? sampleCount g ci)%Z eqn:E.
    - apply Z.ltb_lt in E.
      exists (b64_value (coefs h ci)). split; [reflexivity|].
      rewrite (endLearning_active_weight g h ci Wg Hdone Hci) by lia.
      set (w := b64_value _).
      assert (Hr : (Rabs (w - x ci) <= x ci * / 2 ^ 52)%R)
        by exact (weight_rounding (sampleCount g ci) (totalSampleCount g)
                    ltac:(lia) ltac:(lia)).
      assert (0 < x ci)%R
        by (apply Rdiv_lt_0_compat; [apply IZR_lt; lia|exact HNR]).
      split; [lra|]. revert Hr. unfold Rabs.
      destruct (Rcase_abs _); lra.
    - apply Z.ltb_ge in E. exists 0%R. split; [ring|].
      unfold x. replace (sampleCount g ci) with 0%Z by lia.
      unfold Rdiv. rewrite !Rmult_0_l. split; lra. }
  assert (Esum : (x 0%nat + x 1%nat + x 2%nat + x 3%nat + x 4%nat = 1)%R).
  { unfold x. rewrite Htot. unfold sampleCount.
    destruct (sampleCounts g) as [|a [|b [|c [|d [|e [|f t]]]]]];
      try discriminate.
    cbn [nth Zsum fold_right].
    replace (a + (b + (c + (d + (e + 0)))))%Z with (a + b + c + d + e)%Z by lia.
    rewrite !plus_IZR. field.
    rewrite <- !plus_IZR. apply not_0_IZR.
    rewrite Htot in HN. cbn [Zsum fold_right] in HN. lia. }
  unfold active_weight_value, components, componentsCount in *.
  cbn [seq fold_left].
  destruct (step 0%R 0 ltac:(lia)) as (w0 & -> & P0 & B0).
  destruct (step (0 + w0)%R 1 ltac:(lia)) as (w1 & -> & P1 & B1).
  destruct (step (0 + w0 + w1)%R 2 ltac:(lia)) as (w2 & -> & P2 & B2).
  destruct (step (0 + w0 + w1 + w2)%R 3 ltac:(lia)) as (w3 & -> & P3 & B3).
  destruct (step (0 + w0 + w1 + w2 + w3)%R 4 ltac:(lia)) as (w4 & -> & P4 & B4).
  apply Rabs_le.
  assert (H52 : (0 < / 2 ^ 52)%R) by (apply Rinv_0_lt_compat, pow_lt; lra).
  set (eps := (/ 2 ^ 52)%R) in *.
  assert (Heps : (x 0%nat * eps + x 1%nat * eps + x 2%nat * eps + x 3%nat * eps + x 4%nat * eps
                  = eps)%R).
  { transitivity ((x 0%nat + x 1%nat + x 2%nat + x 3%nat + x 4%nat) * eps)%R; [ring|].
    rewrite Esum. ring. }
  lra.
Qed.

(* ================================================================== *)
(** ** Densities *)
(* ================================================================== *)

Section DensityCode.
Context {D : Type} {A : Arith D} {L : Libm D}.
Local Open Scope arith_scope.

(** The three outcomes of the density as the code computes them, in either
    arithmetic. *)
Lemma density_outcomes (g : GMM D) (ci : nat) (color : Vec3d D) :
  let m := fun k => mean g (3 * ci + k) in
  let diff0 := x0 color - m 0 in
  let diff1 := x1 color - m 1 in
  let diff2 := x2 color - m 2 in
  let ic := inverseCov g ci in
  let mult :=
    diff0 * (diff0 * ic 0 0 + diff1 * ic 1 0 + diff2 * ic 2 0)
    + diff1 * (diff0 * ic 0 1 + diff1 * ic 1 1 + diff2 * ic 2 1)
    + diff2 * (diff0 * ic 0 2 + diff1 * ic 1 2 + diff2 * ic 2 2) in
  ((coefs g ci >? d_zero) = false -> density g ci color = Ok d_zero) /\
  ((coefs g ci >? d_zero) = true -> (covDeterm g ci >? d_eps) = false ->
     density g ci color = Err StsAssert) /\
  ((coefs g ci >? d_zero) = true -> (covDeterm g ci >? d_eps) = true ->
     density g ci color =
       Ok (d_one / d_sqrt (covDeterm g ci) * d_exp (- d_half * mult))).
Proof.
  cbv zeta. unfold density. repeat apply conj.
  - intros ->. reflexivity.
  - intros -> ->. reflexivity.
  - intros -> ->. reflexivity.
Qed.

End DensityCode.

Lemma eps_positive : (0 < d_eps)%R.
Proof. cbn. apply Rinv_0_lt_compat. lra. Qed.

Lemma density_cases (g : GMM R) ci color :
  let m := fun k => mean g (3 * ci + k) in
  let diff0 := (x0 color - m 0%nat)%R in
  let diff1 := (x1 color - m 1%nat)%R in
  let diff2 := (x2 color - m 2%nat)%R in
  let ic := inverseCov g ci in
  let mult :=
    (diff0 * (diff0 * ic 0%nat 0%nat + diff1 * ic 1%nat 0%nat + diff2 * ic 2%nat 0%nat)
     + diff1 * (diff0 * ic 0%nat 1%nat + diff1 * ic 1%nat 1%nat + diff2 * ic 2%nat 1%nat)
     + diff2 * (diff0 * ic 0%nat 2%nat + diff1 * ic 1%nat 2%nat + diff2 * ic 2%nat 2%nat))%R in
  ((coefs g ci <= 0)%R /\ density g ci color = Ok 0%R) \/
  ((0 < coefs g ci)%R /\ (covDeterm g ci <= d_eps)%R /\
   density g ci color = Err StsAssert) \/
  ((0 < coefs g ci)%R /\ (d_eps < covDeterm g ci)%R /\
   density g ci color =
     Ok (1 / R_sqrt.sqrt (covDeterm g ci) * Rtrigo_def.exp (- (1 / 2) * mult))%R).
Proof.
  intros m diff0 diff1 diff2 ic mult. unfold density.
  cbn [d_lt d_zero d_eps ideal].
  unfold Rltb.
  destruct (Rlt_dec 0 (coefs g ci)) as [Hw|Hw]; [|left; split; [lra|reflexivity]].
  right.
  destruct (Rlt_dec (/ 4503599627370496) (covDeterm g ci)) as [Hd|Hd].
  - right. split; [exact Hw|]. split; [exact Hd|]. reflexivity.
  - left. split; [exact Hw|]. split; [cbn; lra|reflexivity].
Qed.

Lemma mahalanobis_unfold (g : GMM R) ci color :
  let m := fun k => mean g (3 * ci + k) in
  let diff0 := (x0 color - m 0%nat)%R in
  let diff1 := (x1 color - m 1%nat)%R in
  let diff2 := (x2 color - m 2%nat)%R in
  let ic := inverseCov g ci in
  mahalanobis g ci color =
    (diff0 * (diff0 * ic 0%nat 0%nat + diff1 * ic 1%nat 0%nat + diff2 * ic 2%nat 0%nat)
     + diff1 * (diff0 * ic 0%nat 1%nat + diff1 * ic 1%nat 1%nat + diff2 * ic 2%nat 1%nat)
     + diff2 * (diff0 * ic 0%nat 2%nat + diff1 * ic 1%nat 2%nat + diff2 * ic 2%nat 2%nat))%R.
Proof.
  cbv zeta. unfold mahalanobis. cbn [seq map fold_right nth]. ring.
Qed.

(** In exact arithmetic the value the code computes for an active component
    is the quotient the specification writes, [exp(-Q/2) / sqrt(determinant)]
    with [Q] the Mahalanobis form under the cached inverse covariance. *)
Lemma density_quotient_exact (g : GMM R) (ci : nat) (color : Vec3d R) :
  (0 < coefs g ci)%R -> (d_eps < covDeterm g ci)%R ->
  density g ci color =
    Ok (Rtrigo_def.exp (- (1 / 2) * mahalanobis g ci color)
        / R_sqrt.sqrt (covDeterm g ci))%R.
Proof.
  intros Hw Hd. pose proof eps_positive as He.
  rewrite mahalanobis_unfold.
  destruct (density_cases g ci color) as [(H0 & E)|[(H0 & Hd' & E)|(H0 & Hd' & E)]];
    cbv zeta in E; rewrite E; clear E; try lra.
  f_equal. cbv zeta. field.
  apply Rgt_not_eq. apply sqrt_lt_R0. lra.
Qed.

(** Under the precondition of the evaluator the density is a value, and
    that value is not negative. *)
Lemma density_value_nonnegative (g : GMM R) (ci : nat) (color : Vec3d R) :
  ((0 < coefs g ci)%R -> (d_eps < covDeterm g ci)%R) ->
  density g ci color = Ok (density_value g color ci) /\
  (0 <= density_value g color ci)%R.
Proof.
  intros Hpre. pose proof eps_positive as He. unfold density_value.
  destruct (density_cases g ci color) as [(H0 & E)|[(H0 & Hd & E)|(H0 & Hd & E)]];
    cbv zeta in E; rewrite E; clear E.
  - split; [reflexivity|lra].
  - specialize (Hpre H0). lra.
  - split; [reflexivity|].
    apply Rmult_le_pos.
    + apply Rlt_le. apply Rdiv_lt_0_compat; [lra|]. apply sqrt_lt_R0. lra.
    + apply Rlt_le. apply exp_pos.
Qed.

Lemma ideal_order : OrderLaws ideal.
Proof.
  split; cbn; intros *; rewrite ?Rltb_spec, ?Rleb_spec.
  - apply Rltb_false. lra.
  - lra.
  - lra.
Qed.


Section FirstMaximum.
Context {D : Type} {A : Arith D} {L : Libm D} {OL : OrderLaws A}.
Variables (g : GMM D) (color : Vec3d D).
Hypothesis defined :
  forall ci, ci < componentsCount -> exists p, density g ci color = Ok p.

Lemma density_is_value ci :
  ci < componentsCount -> density g ci color = Ok (density_value g color ci).
Proof.
  intros Hci. destruct (defined ci Hci) as (p & E).
  unfold density_value. now rewrite E.
Qed.

Lemma scan_upto n : forall s k max,
  s + n <= componentsCount ->
  scanned_upto g color s k max ->
  exists k' max', whichComponent_loop g color (seq s n) k max = Ok k' /\
                  scanned_upto g color (s + n) k' max'.
Proof.
  unfold scanned_upto. cbv zeta.
  induction n as [|n IH]; intros s k max Hs Hinv.
  - exists k, max. rewrite Nat.add_0_r. split; [reflexivity|exact Hinv].
  - cbn [seq whichComponent_loop].
    rewrite (density_is_value s) by lia.
    replace (s + S n) with (S s + n) by lia.
    set (p := density_value g color) in *.
    destruct (d_lt max (p s)) eqn:Hgt; apply IH; try lia.
    + right. split; [lia|]. split; [reflexivity|].
      destruct Hinv as [(-> & -> & H0)|(Hk & -> & Hpos & Hall & Hfirst)].
      * split; [exact Hgt|]. split.
        -- intros i Hi. destruct (Nat.eq_dec i s) as [->|Hne]; [apply lt_irrefl|].
           destruct (d_lt (p s) (p i)) eqn:E; [|reflexivity].
           rewrite <- (H0 i ltac:(lia)). symmetry.
           eapply lt_trans; eassumption.
        -- intros i Hi.
           destruct (d_le (p s) (p i)) eqn:E; [|reflexivity].
           rewrite <- (H0 i ltac:(lia)). symmetry.
           eapply lt_le_trans; eassumption.
      * split; [eapply lt_trans; eassumption|]. split.
        -- intros i Hi. destruct (Nat.eq_dec i s) as [->|Hne]; [apply lt_irrefl|].
           destruct (d_lt (p s) (p i)) eqn:E; [|reflexivity].
           rewrite <- (Hall i ltac:(lia)). symmetry.
           eapply lt_trans; eassumption.
        -- intros i Hi.
           destruct (d_le (p s) (p i)) eqn:E; [|reflexivity].
           rewrite <- (Hall i ltac:(lia)). symmetry.
           eapply lt_le_trans; eassumption.
    + destruct Hinv as [(-> & -> & H0)|(Hk & -> & Hpos & Hall & Hfirst)].
      * left. split; [reflexivity|]. split; [reflexivity|].
        intros i Hi. destruct (Nat.eq_dec i s) as [->|Hne]; [exact Hgt|].
        apply H0. lia.
      * right. split; [lia|]. split; [reflexivity|]. split; [exact Hpos|].
        split; [|exact Hfirst].
        intros i Hi. destruct (Nat.eq_dec i s) as [->|Hne]; [exact Hgt|].
        apply Hall. lia.
Qed.

(** In either arithmetic [whichComponent] returns 0 when no density is
    positive, and otherwise the first component whose positive density no
    other density exceeds. *)
Lemma whichComponent_first_maximum :
  exists k, whichComponent g color = Ok k /\ k < componentsCount /\
    let p := density_value g color in
    ((k = 0 /\ forall ci, ci < componentsCount -> d_lt d_zero (p ci) = false) \/
     (d_lt d_zero (p k) = true /\
      (forall ci, ci < componentsCount -> d_lt (p k) (p ci) = false) /\
      (forall ci, ci < k -> d_le (p k) (p ci) = false))).
Proof.
  destruct (scan_upto componentsCount 0 0 d_zero) as (k & max & E & Hinv).
  - lia.
  - left. split; [reflexivity|]. split; [reflexivity|]. intros i Hi. lia.
  - exists k. split; [exact E|]. unfold scanned_upto in Hinv. cbv zeta in *.
    destruct Hinv as [(-> & -> & H0)|(Hk & -> & Hpos & Hall & Hfirst)].
    + split; [unfold componentsCount; lia|]. left. split; [reflexivity|exact H0].
    + split; [exact Hk|]. right. split; [exact Hpos|]. split; assumption.
Qed.

End FirstMaximum.


(** C4.  In exact arithmetic, when every active component has a cached
    determinant above machine epsilon: [whichComponent] returns an index
    below [componentsCount] whose density no other density exceeds and which
    every earlier density is strictly below; it returns 0 when no density is
    positive, and any other result has a positive density. *)
Theorem whichComponent_argmax (g : GMM R) (color : Vec3d R) :
  (forall ci, ci < componentsCount ->
     (0 < coefs g ci)%R -> (d_eps < covDeterm g ci)%R) ->
  exists k,
    whichComponent g color = Ok k /\ k < componentsCount /\
    (forall ci, ci < componentsCount ->
       (density_value g color ci <= density_value g color k)%R) /\
    (forall ci, ci < k ->
       (density_value g color ci < density_value g color k)%R) /\
    ((forall ci, ci < componentsCount -> (density_value g color ci <= 0)%R) ->
       k = 0) /\
    (k <> 0 -> (0 < density_value g color k)%R).
Proof.
  intros Hfit.
  assert (Hval : forall ci, ci < componentsCount ->
            density g ci color = Ok (density_value g color ci) /\
            (0 <= density_value g color ci)%R).
  { intros ci Hci. apply density_value_nonnegative. apply Hfit. exact Hci. }
  destruct (@whichComponent_first_maximum R ideal ideal_libm ideal_order g color)
    as (k & E & Hk & Hscan).
  { intros ci Hci. eexists. apply (Hval ci Hci). }
  exists k. split; [exact E|]. split; [exact Hk|].
  cbv zeta in Hscan. cbn [d_lt d_le d_zero ideal] in Hscan.
  destruct Hscan as [(-> & H0)|(Hpos & Hall & Hfirst)].
  - assert (H0' : forall ci, ci < componentsCount ->
              (density_value g color ci <= 0)%R).
    { intros ci Hci. specialize (H0 ci Hci).
      destruct (Rle_dec (density_value g color ci) 0) as [Hle|Hgt]; [exact Hle|].
      rewrite Rltb_true in H0 by lra. discriminate. }
    destruct (Hval 0 Hk) as (_ & Hp0).
    split; [intros ci Hci; specialize (H0' ci Hci); lra|].
    split; [intros ci Hci; lia|]. split; [reflexivity|]. intros Hne. congruence.
  - apply Rltb_spec in Hpos.
    assert (Hall' : forall ci, ci < componentsCount ->
              (density_value g color ci <= density_value g color k)%R).
    { intros ci Hci. specialize (Hall ci Hci).
      destruct (Rle_dec (density_value g color ci) (density_value g color k))
        as [Hle|Hgt]; [exact Hle|].
      rewrite Rltb_true in Hall by lra. discriminate. }
    split; [exact Hall'|]. split.
    + intros ci Hci. specialize (Hfirst ci Hci).
      destruct (Rlt_dec (density_value g color ci) (density_value g color k))
        as [Hlt|Hge]; [exact Hlt|].
      rewrite (proj2 (Rleb_spec _ _)) in Hfirst by lra. discriminate.
    + split; [|intros _; exact Hpos].
      intros H0. specialize (H0 k Hk). lra.
Qed.

Section Mixture.
Context {D : Type} {A : Arith D} {L : Libm D}.
Implicit Types (g h : GMM D) (ci cj : nat).
Local Open Scope arith_scope.

Lemma density_throws_assert g ci color e :
  density g ci color = Err e -> e = StsAssert.
Proof.
  unfold density. destruct (coefs g ci >? d_zero); [|discriminate].
  destruct (covDeterm g ci >? d_eps); [discriminate|]. congruence.
Qed.

Lemma mixture_loop_ok g color l : forall r,
  (forall ci, In ci l -> exists v, density g ci color = Ok v) ->
  mixture_loop g color l r =
  Ok (fold_left (fun acc ci => acc + coefs g ci * density_value g color ci) l r).
Proof.
  induction l as [|a l IH]; intros r Hok; [reflexivity|].
  cbn [mixture_loop fold_left].
  destruct (Hok a (or_introl eq_refl)) as (v & Ev).
  unfold density_value at 2. rewrite Ev. apply IH.
  intros ci Hci. apply Hok. right. exact Hci.
Qed.

Lemma mixture_loop_err g color l : forall r,
  (exists ci, In ci l /\ density g ci color = Err StsAssert) ->
  mixture_loop g color l r = Err StsAssert.
Proof.
  induction l as [|a l IH]; intros r (ci & Hin & E); [destruct Hin|].
  cbn [mixture_loop].
  destruct (density g a color) as [v|e] eqn:Ea.
  - apply IH. exists ci. split; [|exact E].
    destruct Hin as [->|Hin]; [congruence|exact Hin].
  - f_equal. eapply density_throws_assert. exact Ea.
Qed.

Context {AL : ArithLaws A}.

(** C5.  For every colour and every state, in either arithmetic: when the
    five densities are values the mixture density is the sum, accumulated
    from 0 in index order over all five components, of
    [coefs[ci] * density ci]; when a density throws, so does the mixture;
    and a component of weight 0 has density 0 and contributes exactly 0. *)
Theorem mixture_weighted_sum (g : GMM D) (color : Vec3d D) :
  ((forall ci, ci < componentsCount -> exists v, density g ci color = Ok v) ->
     mixture g color = Ok (weighted_sum g (density_value g color))) /\
  ((exists ci, ci < componentsCount /\ density g ci color = Err StsAssert) ->
     mixture g color = Err StsAssert) /\
  (forall ci, coefs g ci = d_zero ->
     density g ci color = Ok d_zero /\
     coefs g ci * density_value g color ci = d_zero).
Proof.
  split; [|split].
  - intros Hok. unfold mixture, weighted_sum. apply mixture_loop_ok.
    intros ci Hci. apply Hok. apply in_seq in Hci. unfold componentsCount in *. lia.
  - intros (ci & Hci & E). apply mixture_loop_err.
    exists ci. split; [apply components_in; exact Hci|exact E].
  - intros ci Hw.
    assert (E : density g ci color = Ok d_zero).
    { unfold density. rewrite Hw, zero_not_positive. reflexivity. }
    split; [exact E|].
    unfold density_value. rewrite E, Hw. apply zero_times_zero.
Qed.

End Mixture.

(* ================================================================== *)
(** ** The constructor *)
(* ================================================================== *)

Section Constructor.
Context {D : Type} {A : Arith D} {AL : ArithLaws A}.
Implicit Types (g h : GMM D) (ci cj : nat).

Lemma frame_ctor_body g ci :
  ci < componentsCount -> frame ci g (result_state (GMM_ctor_body g ci)).
Proof.
  intros Hci. unfold GMM_ctor_body. destruct (coefs g ci >? d_zero)%D.
  - apply frame_calc. exact Hci.
  - apply frame_refl.
Qed.

(** Without a correction the recomputation leaves the buffer alone. *)
Lemma calc_zero_fix_model g ci :
  model (result_state (calcInverseCovAndDeterm g ci d_zero)) = model g.
Proof.
  pose proof (calc_cases g ci d_zero) as C. cbv zeta in C.
  rewrite zero_not_positive, andb_false_r in C.
  destruct C as [(_ & ->)|[(_ & _ & ->)|(_ & _ & ->)]]; reflexivity.
Qed.

Lemma ctor_body_model g ci : model (result_state (GMM_ctor_body g ci)) = model g.
Proof.
  unfold GMM_ctor_body. destruct (coefs g ci >? d_zero)%D;
    [apply calc_zero_fix_model|reflexivity].
Qed.

Lemma for_each_ctor_model l : forall g,
  model (result_state (for_each l GMM_ctor_body g)) = model g.
Proof.
  induction l as [|a l IH]; intros g; [reflexivity|].
  cbn [for_each]. rewrite result_state_and_then.
  pose proof (ctor_body_model g a) as M.
  destruct (GMM_ctor_body g a) as [g1|e g1]; cbn [result_state] in *.
  - rewrite IH. exact M.
  - exact M.
Qed.

Lemma for_each_ctor_zero l : forall g,
  (forall ci, coefs g ci = d_zero) -> for_each l GMM_ctor_body g = Done g.
Proof.
  induction l as [|a l IH]; intros g Hz; [reflexivity|].
  cbn [for_each]. unfold GMM_ctor_body at 1.
  rewrite (Hz a), zero_not_positive. cbn [and_then]. apply IH. exact Hz.
Qed.

Lemma for_each_ctor_throws l : forall g e h,
  for_each l GMM_ctor_body g = Thrown e h -> e = StsAssert.
Proof.
  induction l as [|a l IH]; intros g e h; [discriminate|].
  cbn [for_each]. unfold GMM_ctor_body at 1.
  destruct (coefs g a >? d_zero)%D.
  - destruct (calc_cases g a d_zero) as [(_ & ->)|[(_ & _ & ->)|(_ & _ & ->)]];
      cbn [and_then]; try apply IH. congruence.
  - cbn [and_then]. apply IH.
Qed.

Lemma dtrm_of_sigma g h ci :
  sigma (component g ci) = sigma (component h ci) -> dtrm_of g ci = dtrm_of h ci.
Proof.
  intros E. unfold dtrm_of. cbv beta zeta.
  change (cov g (9 * ci + 0)) with (nth 0 (sigma (component g ci)) d_zero).
  change (cov g (9 * ci + 1)) with (nth 1 (sigma (component g ci)) d_zero).
  change (cov g (9 * ci + 2)) with (nth 2 (sigma (component g ci)) d_zero).
  change (cov g (9 * ci + 3)) with (nth 3 (sigma (component g ci)) d_zero).
  change (cov g (9 * ci + 4)) with (nth 4 (sigma (component g ci)) d_zero).
  change (cov g (9 * ci + 5)) with (nth 5 (sigma (component g ci)) d_zero).
  change (cov g (9 * ci + 6)) with (nth 6 (sigma (component g ci)) d_zero).
  change (cov g (9 * ci + 7)) with (nth 7 (sigma (component g ci)) d_zero).
  change (cov g (9 * ci + 8)) with (nth 8 (sigma (component g ci)) d_zero).
  rewrite E. reflexivity.
Qed.

End Constructor.

(* ================================================================== *)
(** ** Runs *)
(* ================================================================== *)

Lemma body_skip {D} {A : Arith D} (g : GMM D) ci :
  sampleCount g ci = 0%Z ->
  endLearning_body g ci = Done (set_coefs g ci d_zero).
Proof. intros E. unfold endLearning_body. now rewrite E. Qed.

Lemma body_fit {D} {A : Arith D} (g : GMM D) ci :
  sampleCount g ci <> 0%Z -> (0 < totalSampleCount g)%Z ->
  endLearning_body g ci = calcInverseCovAndDeterm (endLearning_fit g ci) ci d_fix.
Proof.
  intros En Et. unfold endLearning_body.
  apply Z.eqb_neq in En. rewrite En.
  apply Z.gtb_lt in Et. now rewrite Et.
Qed.

Lemma calc_regularised_done (g : GMM R) ci :
  (0 < coefs g ci)%R ->
  (dtrm_of g ci <= 1 / 1000000)%R ->
  (d_eps < dtrm_of (add_white_noise g ci d_fix) ci)%R ->
  calcInverseCovAndDeterm g ci d_fix =
  Done (store_inverse
          (set_covDeterm (add_white_noise g ci d_fix) ci
             (dtrm_of (add_white_noise g ci d_fix) ci))
          ci (d_one / dtrm_of (add_white_noise g ci d_fix) ci)%D).
Proof.
  intros Hw Hlow Heps. unfold calcInverseCovAndDeterm.
  cbn [d_lt d_le d_zero d_floor d_eps ideal] in *.
  rewrite (Rltb_true _ _ Hw). rewrite (proj2 (Rleb_spec _ _) Hlow).
  rewrite (Rltb_true 0 d_fix) by (cbn; lra). cbn [andb].
  rewrite (Rltb_true _ _ Heps). reflexivity.
Qed.


(* ================================================================== *)
(** ** The two arithmetics *)
(* ================================================================== *)

Lemma b64_laws : ArithLaws b64.
Proof. split; reflexivity. Qed.

Lemma ideal_laws : ArithLaws ideal.
Proof.
  split; cbn.
  - apply Rltb_false. lra.
  - apply Rltb_true. lra.
  - ring.
Qed.


#[global] Existing Instance b64_laws.
#[global] Existing Instance ideal_laws.

(** The order of binary64. *)

Lemma SFltb_irrefl (x : spec_float) : SFltb x x = false.
Proof.
  unfold SFltb, SFcompare.
  destruct x as [[|]|[|]| |[|] m e]; try reflexivity;
    rewrite Z.compare_refl;
    change (Pos.compare_cont Eq m m) with (Pos.compare m m);
    rewrite Pos.compare_refl; reflexivity.
Qed.

Ltac order_cases :=
  repeat match goal with
  | H : context [Pos.compare_cont Eq ?a ?b] |- _ =>
      change (Pos.compare_cont Eq a b) with (Pos.compare a b) in H
  | |- context [Pos.compare_cont Eq ?a ?b] =>
      change (Pos.compare_cont Eq a b) with (Pos.compare a b)
  end;
  repeat match goal with
  | H : context [Z.compare ?a ?b] |- _ =>
      destruct (Z.compare_spec a b); cbn in H; try discriminate H
  | H : context [Pos.compare ?a ?b] |- _ =>
      destruct (Pos.compare_spec a b); cbn in H; try discriminate H
  end;
  repeat match goal with
  | |- context [Z.compare ?a ?b] =>
      destruct (Z.compare_spec a b); cbn; try reflexivity; try lia
  | |- context [Pos.compare ?a ?b] =>
      destruct (Pos.compare_spec a b); cbn; try reflexivity; try lia
  end.

Lemma SFltb_trans (x y z : spec_float) :
  SFltb x y = true -> SFltb y z = true -> SFltb x z = true.
Proof.
  unfold SFltb, SFcompare.
  destruct x as [[|]|[|]| |[|] mx ex], y as [[|]|[|]| |[|] my ey],
    z as [[|]|[|]| |[|] mz ez]; cbn; intros Hxy Hyz;
    try discriminate; try reflexivity; order_cases.
Qed.

Lemma SFltb_SFleb_trans (x y z : spec_float) :
  SFltb x y = true -> SFleb y z = true -> SFltb x z = true.
Proof.
  unfold SFltb, SFleb, SFcompare.
  destruct x as [[|]|[|]| |[|] mx ex], y as [[|]|[|]| |[|] my ey],
    z as [[|]|[|]| |[|] mz ez]; cbn; intros Hxy Hyz;
    try discriminate; try reflexivity; order_cases.
Qed.


Lemma b64_order : OrderLaws b64.
Proof.
  split; cbn; intros *; rewrite ?ltb_spec, ?leb_spec.
  - apply SFltb_irrefl.
  - apply SFltb_trans.
  - apply SFltb_SFleb_trans.
Qed.


(** The signs of binary64. *)

Lemma binary_round_aux_sign (m e : Z) (l : location) :
  sign_clear (binary_round_aux prec emax false m e l).
Proof.
  unfold binary_round_aux.
  destruct (shr_fexp prec emax m e l) as (mrs', e').
  destruct (shr_fexp prec emax _ e' loc_Exact) as (mrs'', e'').
  destruct (shr_m mrs'') as [|p|p]; cbn; auto.
  destruct (e'' <=? 971)%Z; reflexivity.
Qed.

Lemma SFltb_positive (x y : spec_float) :
  sign_clear x -> SFltb x y = true -> sign_clear y.
Proof.
  unfold SFltb, SFcompare.
  destruct x as [[|]|[|]| |[|] mx ex], y as [[|]|[|]| |[|] my ey];
    cbn; intros Hx H; try discriminate; auto.
Qed.

Lemma SFsqrt_sign (x : spec_float) :
  sign_clear x -> sign_clear (SF64sqrt x).
Proof.
  unfold SF64sqrt, SFsqrt.
  destruct x as [[|]|[|]| |[|] m e]; cbn; intros H; try discriminate; auto.
  destruct (SFsqrt_core_binary prec emax (Zpos m) e) as ((mz, ez), lz).
  apply binary_round_aux_sign.
Qed.

Lemma SFdiv_sign (x y : spec_float) :
  sign_clear x -> sign_clear y -> sign_clear (SF64div x y).
Proof.
  unfold SF64div, SFdiv.
  destruct x as [[|]|[|]| |[|] mx ex], y as [[|]|[|]| |[|] my ey];
    cbn; intros Hx Hy; try discriminate; auto.
  destruct (SFdiv_core_binary prec emax (Zpos mx) ex (Zpos my) ey) as ((mz, ez), lz).
  apply binary_round_aux_sign.
Qed.

Lemma SFmul_not_negative (x y : spec_float) :
  sign_clear x -> SFltb y (S754_zero false) = false ->
  SFltb (SF64mul x y) (S754_zero false) = false.
Proof.
  unfold SF64mul, SFmul, SFltb, SFcompare.
  destruct x as [[|]|[|]| |[|] mx ex], y as [[|]|[|]| |[|] my ey];
    cbn; intros Hx Hy; try discriminate; auto.
  pose proof (binary_round_aux_sign (Zpos (Pos.mul mx my)) (Z.add ex ey) loc_Exact) as S.
  destruct (binary_round_aux prec emax false _ _ _) as [[|]|[|]| |[|] m e];
    cbn in S; try discriminate; reflexivity.
Qed.

(** The density is never negative in binary64, whatever the colour and the
    state, when [exp] never returns a negative number; it can be a NaN. *)
Lemma density_b64_not_negative (exp : float -> float) :
  (forall x, PrimFloat.ltb (exp x) 0 = false) ->
  forall (g : GMM float) (ci : nat) (color : Vec3d float) (p : float),
    @density float b64 (b64_libm exp) g ci color = Ok p ->
    PrimFloat.ltb p 0 = false.
Proof.
  intros Hexp g ci color p. unfold density.
  cbn [d_lt d_zero d_eps d_one d_div d_mul d_sqrt d_exp b64 b64_libm].
  destruct (PrimFloat.ltb 0 (coefs g ci)).
  - destruct (PrimFloat.ltb 0x1p-52 (covDeterm g ci)) eqn:Hdet; [|discriminate].
    intros E. injection E as <-.
    rewrite ltb_spec in Hdet |- *. rewrite mul_spec, div_spec, sqrt_spec.
    apply SFmul_not_negative.
    + apply SFdiv_sign; [reflexivity|].
      apply SFsqrt_sign. eapply SFltb_positive; [|exact Hdet]. reflexivity.
    + change (S754_zero false) with (Prim2SF 0%float).
      rewrite <- ltb_spec. apply Hexp.
  - intros E. injection E as <-. reflexivity.
Qed.


(** In exact arithmetic the regularisation is enough for a symmetric
    covariance whose principal minors are not negative: the determinant
    after the correction is at least 1e-6. *)
Lemma regularised_determinant_exact (g : GMM R) (ci : nat) :
  wf g -> ci < componentsCount ->
  cov g (9 * ci + 1) = cov g (9 * ci + 3) ->
  cov g (9 * ci + 2) = cov g (9 * ci + 6) ->
  cov g (9 * ci + 5) = cov g (9 * ci + 7) ->
  (0 <= cov g (9 * ci + 0))%R ->
  (0 <= cov g (9 * ci + 4))%R ->
  (0 <= cov g (9 * ci + 8))%R ->
  (0 <= cov g (9 * ci + 0) * cov g (9 * ci + 4)
        - cov g (9 * ci + 1) * cov g (9 * ci + 3))%R ->
  (0 <= cov g (9 * ci + 0) * cov g (9 * ci + 8)
        - cov g (9 * ci + 2) * cov g (9 * ci + 6))%R ->
  (0 <= cov g (9 * ci + 4) * cov g (9 * ci + 8)
        - cov g (9 * ci + 5) * cov g (9 * ci + 7))%R ->
  (0 <= dtrm_of g ci)%R ->
  (1 / 1000000 <= dtrm_of (add_white_noise g ci (1 / 100)%R) ci)%R.
Proof.
  intros W Hci S13 S26 S57 H0 H4 H8 M01 M02 M12 Hdet.
  assert (Hcov : forall k, k < 9 ->
            cov (add_white_noise g ci (1 / 100)%R) (9 * ci + k)
            = regularised g ci (1 / 100)%R k).
  { intros k Hk. apply cov_add_white_noise; [apply W|exact Hci|exact Hk]. }
  unfold dtrm_of in *. cbv beta zeta in *.
  rewrite !Hcov by lia. unfold regularised. cbn [Nat.eqb orb].
  cbn [d_add d_sub d_mul ideal] in *.
  set (c0 := cov g (9 * ci + 0)) in *. set (c1 := cov g (9 * ci + 1)) in *.
  set (c2 := cov g (9 * ci + 2)) in *. set (c3 := cov g (9 * ci + 3)) in *.
  set (c4 := cov g (9 * ci + 4)) in *. set (c5 := cov g (9 * ci + 5)) in *.
  set (c6 := cov g (9 * ci + 6)) in *. set (c7 := cov g (9 * ci + 7)) in *.
  set (c8 := cov g (9 * ci + 8)) in *.
  clearbody c0 c1 c2 c3 c4 c5 c6 c7 c8. subst c3 c6 c7.
  replace ((c0 + 1 / 100) * ((c4 + 1 / 100) * (c8 + 1 / 100) - c5 * c5)
           - c1 * (c1 * (c8 + 1 / 100) - c5 * c2)
           + c2 * (c1 * c5 - (c4 + 1 / 100) * c2))%R
    with (1 / 1000000 + (c0 + c4 + c8) / 10000
          + ((c0 * c4 - c1 * c1) + (c0 * c8 - c2 * c2) + (c4 * c8 - c5 * c5)) / 100
          + (c0 * (c4 * c8 - c5 * c5) - c1 * (c1 * c8 - c5 * c2)
             + c2 * (c1 * c5 - c4 * c2)))%R by field.
  lra.
Qed.

(** So there the assertion cannot fail after a correction. *)
Lemma regularisation_suffices_exact (g : GMM R) (ci : nat) :
  wf g -> ci < componentsCount ->
  (0 < coefs g ci)%R ->
  (dtrm_of g ci <= 1 / 1000000)%R ->
  (1 / 1000000 <= dtrm_of (add_white_noise g ci (1 / 100)%R) ci)%R ->
  exists h, calcInverseCovAndDeterm g ci (1 / 100)%R = Done h.
Proof.
  intros W Hci Hw Hlow Hbound. eexists.
  apply (calc_regularised_done g ci Hw Hlow).
  pose proof eps_positive as He. cbn in *.
  assert (/ 4503599627370496 < 1 / 1000000)%R.
  { apply Rmult_lt_reg_r with 4503599627370496%R; [lra|].
    rewrite Rinv_l by lra. lra. }
  lra.
Qed.

(* ================================================================== *)
(** ** The accumulator invariant *)
(* ================================================================== *)

Section Invariant.
Context {D : Type} {A : Arith D}.

(** C10.  After [initLearning] the total sample count is the sum of the
    per-component counts and no count is negative; every [addSample] on a
    valid component, short of the overflow of [int], keeps this, adds 1 to
    the count of that component and to the total and leaves the other
    counts as they were; so a pass of n samples ends with a total of n. *)
Theorem accumulator_invariant (g0 : GMM D) :
  length (sampleCounts g0) = componentsCount ->
  counts_consistent (initLearning g0) /\
  (forall g ci color,
     counts_consistent g -> ci < componentsCount ->
     (totalSampleCount g < INT_MAX)%Z ->
     counts_consistent (addSample g ci color) /\
     sampleCount (addSample g ci color) ci = (sampleCount g ci + 1)%Z /\
     (forall cj, cj <> ci ->
        sampleCount (addSample g ci color) cj = sampleCount g cj) /\
     totalSampleCount (addSample g ci color) = (totalSampleCount g + 1)%Z) /\
  (forall samples,
     Forall (fun s => fst s < componentsCount) samples ->
     (Z.of_nat (length samples) <= INT_MAX)%Z ->
     counts_consistent (learning_pass g0 samples) /\
     totalSampleCount (learning_pass g0 samples) = Z.of_nat (length samples)).
Proof.
  intros Hlen. split; [apply counts_initLearning; exact Hlen|]. split.
  - intros g ci color Hg Hci Hmax. apply counts_addSample; assumption.
  - intros samples Hs Hmax. apply counts_learning_pass; assumption.
Qed.

End Invariant.


(* ================================================================== *)
(** ** Runs in binary64 *)
(* ================================================================== *)

(** Multiplying by the reciprocal, as [endLearning] and the density do, is
    not dividing: in binary64 the two can differ in the last place. *)
Remark reciprocal_is_not_quotient :
  PrimFloat.eqb (d_of_int 5 * (d_one / d_of_int 3))%D (d_of_int 5 / d_of_int 3)%D
  = false.
Proof. vm_compute. reflexivity. Qed.

(** C6 as stated fails in binary64.  [initLearning], [addSample] of
    (1e8,1e8,0) and of (-1e8,-1e8,0) for component 0, [endLearning]: the
    fitted covariance is [[1e16,1e16,0],[1e16,1e16,0],[0,0,0]], its
    determinant 0 is at most 1e-6, the component is active, 0.01 is added to
    the diagonal (where 1e16 absorbs it), the determinant is 0 again, and
    the assertion fails. *)
Lemma regularisation_can_fail :
  (coefs fitted_two64 0 >? d_zero)%D = true /\
  (dtrm_of fitted_two64 0 <=? d_floor)%D = true /\
  calcInverseCovAndDeterm fitted_two64 0 d_fix = Thrown StsAssert failed_two64 /\
  sigma (component failed_two64 0) =
    [1e16; 1e16; 0; 1e16; 1e16; 0; 0; 0; 0.01]%float /\
  covDeterm failed_two64 0 = 0%float /\
  (covDeterm failed_two64 0 >? d_eps)%D = false /\
  endLearning (learning_pass fresh64 two_samples64) = Thrown StsAssert failed_two64.
Proof. repeat apply conj; vm_compute; reflexivity. Qed.

(** C7 as stated fails in binary64.  After a pass of five samples
    (0.3,0.3,0.3) for component 0, the call of [calcInverseCovAndDeterm]
    that [endLearning] makes leaves a determinant just below 1e-6; the same
    call once more adds 0.01 to the diagonal again and caches another
    determinant. *)
Lemma recompute_twice_differs :
  endLearning (learning_pass fresh64 five_samples64) = Done once_five64 /\
  calcInverseCovAndDeterm fitted_five64 0 d_fix = Done once_five64 /\
  calcInverseCovAndDeterm once_five64 0 d_fix = Done twice_five64 /\
  cov once_five64 0 = 0.0099999999999999725%float /\
  cov twice_five64 0 = 0.019999999999999973%float /\
  covDeterm once_five64 0 = 9.999999999999917e-07%float /\
  covDeterm twice_five64 0 = 7.9999999999999675e-06%float.
Proof. repeat apply conj; vm_compute; reflexivity. Qed.

(** [active_weights_sum_to_one] on the pass of six samples for the
    components 0, 1 and 2. *)
Lemma active_weights_sum_to_one_witness :
  endLearning (learning_pass fresh64 six_samples64) = Done fitted_six64 /\
  (Rabs (active_weight_value (learning_pass fresh64 six_samples64) fitted_six64
         - 1) <= / 2 ^ 52)%R.
Proof.
  split; [vm_compute; reflexivity|].
  apply (active_weights_sum_to_one fresh64 six_samples64 fitted_six64).
  - repeat apply conj; vm_compute; reflexivity.
  - discriminate.
  - repeat constructor.
  - vm_compute. discriminate.
  - vm_compute. reflexivity.
Defined.

(** The tolerance is needed: on that pass the weights are the binary64
    numbers nearest 1/6, 4/6 and 1/6, and adding them up in binary64, in
    index order, gives the number just below 1. *)
Remark active_weights_float_sum :
  coefs fitted_six64 0 = 0x1.5555555555555p-3%float /\
  coefs fitted_six64 1 = 0x1.5555555555555p-1%float /\
  coefs fitted_six64 2 = 0x1.5555555555555p-3%float /\
  active_weight_sum (learning_pass fresh64 six_samples64) fitted_six64
  = 0x1.fffffffffffffp-1%float.
Proof. repeat apply conj; vm_compute; reflexivity. Qed.

(* ================================================================== *)
(** ** Runs in exact arithmetic and instances of the theorems *)
(* ================================================================== *)

(** The objects of the runs are well formed, and the pass of one sample
    completes. *)
Lemma wf_blank : wf blank.
Proof. repeat apply conj; reflexivity. Qed.

Lemma wf_one_sample : wf (learning_pass blank one_sample).
Proof. apply wf_learning_pass. exact wf_blank. Qed.

Lemma one_sample_done :
  exists h, endLearning (learning_pass blank one_sample) = Done h.
Proof.
  unfold endLearning, components, componentsCount. cbn [seq for_each].
  rewrite body_skip by reflexivity. cbn [and_then].
  rewrite body_skip by reflexivity. cbn [and_then].
  rewrite body_fit by (vm_compute; (discriminate || reflexivity)).
  rewrite calc_regularised_done; [| Rcompute; lra ..].
  cbn [and_then].
  rewrite body_skip by reflexivity. cbn [and_then].
  rewrite body_skip by reflexivity. cbn [and_then].
  eexists. reflexivity.
Qed.

Lemma unit_model_fitted :
  forall ci, ci < componentsCount ->
    (0 < coefs unit_model ci)%R -> (d_eps < covDeterm unit_model ci)%R.
Proof.
  intros ci Hci. unfold componentsCount in Hci.
  do 5 (destruct ci as [|ci]; [Rcompute; intros; lra|]). lia.
Qed.

Lemma wf_fitted_ten64 : wf fitted_ten64.
Proof. repeat apply conj; vm_compute; reflexivity. Qed.

(** [active_weights_exact] on the same pass. *)
Lemma active_weights_exact_run :
  exists h, endLearning (learning_pass blank one_sample) = Done h /\
            active_weight_sum (learning_pass blank one_sample) h = 1%R.
Proof.
  destruct one_sample_done as (h & E). exists h. split; [exact E|].
  apply (active_weights_exact blank one_sample h).
  - exact wf_blank.
  - discriminate.
  - repeat constructor.
  - cbn. unfold INT_MAX. lia.
  - exact E.
Defined.

(** [whichComponent_argmax] on [unit_model]. *)
Lemma whichComponent_argmax_witness :
  exists k, whichComponent unit_model grey = Ok k /\ k < componentsCount.
Proof.
  destruct (whichComponent_argmax unit_model grey unit_model_fitted)
    as (k & E & Hk & _).
  exists k. split; assumption.
Defined.

(** [mixture_weighted_sum] on [unit_model], in exact arithmetic. *)
Lemma mixture_weighted_sum_witness :
  mixture unit_model grey =
    Ok (weighted_sum unit_model (density_value unit_model grey)).
Proof.
  apply (@mixture_weighted_sum R ideal ideal_libm ideal_laws unit_model grey).
  intros ci Hci.
  exists (density_value unit_model grey ci).
  apply density_value_nonnegative. apply unit_model_fitted. exact Hci.
Defined.

(** [regularisation_guard] on the scenario of the specification, in
    binary64: the determinant after the correction is the double above
    1e-6. *)
Lemma regularisation_guard_witness :
  exists h, calcInverseCovAndDeterm fitted_ten64 2 d_fix = Done h /\
            covDeterm h 2 = 1.0000000000000002e-06%float.
Proof.
  destruct (@regularisation_guard float b64 b64_laws fitted_ten64 2 wf_fitted_ten64)
    as (_ & Hdone & _).
  - unfold componentsCount. lia.
  - vm_compute. reflexivity.
  - vm_compute. reflexivity.
  - destruct Hdone as (h & E & _ & Hd); [vm_compute; reflexivity|].
    exists h. split; [exact E|]. rewrite Hd. vm_compute. reflexivity.
Defined.

(** [accumulator_invariant] from an object that was never initialised. *)
Lemma accumulator_invariant_witness :
  counts_consistent (initLearning raw64).
Proof.
  exact (proj1 (@accumulator_invariant float b64 raw64 eq_refl)).
Defined.

(* ================================================================== *)
(** ** What a learning pass accumulates *)
(* ================================================================== *)

Section Sums.
Context {D : Type} {A : Arith D}.
Implicit Types (g h : GMM D) (ci cj : nat).
Local Open Scope arith_scope.

Lemma sum_addSample g cj color ci k :
  wf_arrays g -> cj < componentsCount -> ci < componentsCount -> k < 3 ->
  sum (addSample g cj color) ci k =
  if (cj =? ci)%nat then sum g ci k + channel color k else sum g ci k.
Proof.
  intros W Hcj Hci Hk. unfold addSample. views.
  destruct W as (_ & _ & Ls & _).
  destruct (Nat.eqb_spec cj ci) as [->|Hne].
  - destruct k as [|[|[|k]]]; [| | |lia]; arrays; reflexivity.
  - arrays. reflexivity.
Qed.

Lemma prod_addSample g cj color ci r c :
  wf_arrays g -> cj < componentsCount -> ci < componentsCount ->
  r < 3 -> c < 3 ->
  prod (addSample g cj color) ci r c =
  if (cj =? ci)%nat then prod g ci r c + channel color r * channel color c
  else prod g ci r c.
Proof.
  intros W Hcj Hci Hr Hc. unfold addSample. views.
  destruct W as (_ & _ & _ & Lp & _).
  destruct (Nat.eqb_spec cj ci) as [->|Hne].
  - destruct r as [|[|[|r]]]; [| | |lia];
      (destruct c as [|[|[|c]]]; [| | |lia]); arrays; reflexivity.
  - arrays. reflexivity.
Qed.

Lemma wf_arrays_addSample g ci color : wf_arrays g -> wf_arrays (addSample g ci color).
Proof. unfold addSample. intros W. views. rewrite !upd_length. exact W. Qed.

Lemma wf_arrays_initLearning g : wf_arrays g -> wf_arrays (initLearning g).
Proof.
  unfold initLearning, components, componentsCount.
  cbn [seq fold_left]. unfold initLearning_body. intros W. views.
  rewrite !upd_length. exact W.
Qed.

Lemma sum_initLearning g ci k :
  wf_arrays g -> ci < componentsCount -> k < 3 ->
  sum (initLearning g) ci k = d_zero.
Proof.
  intros W Hci Hk. unfold initLearning, components, componentsCount in *.
  cbn [seq fold_left]. unfold initLearning_body. views.
  destruct W as (_ & _ & Ls & _).
  destruct ci as [|[|[|[|[|ci]]]]]; [| | | | |lia];
    (destruct k as [|[|[|k]]]; [| | |lia]); arrays; reflexivity.
Qed.

Lemma prod_initLearning g ci r c :
  wf_arrays g -> ci < componentsCount -> r < 3 -> c < 3 ->
  prod (initLearning g) ci r c = d_zero.
Proof.
  intros W Hci Hr Hc. unfold initLearning, components, componentsCount in *.
  cbn [seq fold_left]. unfold initLearning_body. views.
  destruct W as (_ & _ & _ & Lp & _).
  destruct ci as [|[|[|[|[|ci]]]]]; [| | | | |lia];
    (destruct r as [|[|[|r]]]; [| | |lia]);
    (destruct c as [|[|[|c]]]; [| | |lia]); arrays; reflexivity.
Qed.

Lemma sum_add_samples samples ci k : forall g,
  wf_arrays g -> Forall (fun s => fst s < componentsCount) samples ->
  ci < componentsCount -> k < 3 ->
  sum (add_samples g samples) ci k =
  accumulate (fun y => channel y k) (samples_of ci samples) (sum g ci k).
Proof.
  induction samples as [|[cj color] rest IH]; intros g W Hs Hci Hk.
  - reflexivity.
  - inversion Hs as [|? ? Hcj Hrest]; subst. cbn [fst] in Hcj.
    unfold add_samples in *. cbn [fold_left fst snd].
    rewrite (IH (addSample g cj color)
               (wf_arrays_addSample g cj color W) Hrest Hci Hk).
    rewrite (sum_addSample g cj color ci k W Hcj Hci Hk).
    unfold samples_of. cbn [filter fst].
    destruct (cj =? ci)%nat; reflexivity.
Qed.

Lemma prod_add_samples samples ci r c : forall g,
  wf_arrays g -> Forall (fun s => fst s < componentsCount) samples ->
  ci < componentsCount -> r < 3 -> c < 3 ->
  prod (add_samples g samples) ci r c =
  accumulate (fun y => channel y r * channel y c) (samples_of ci samples)
    (prod g ci r c).
Proof.
  induction samples as [|[cj color] rest IH]; intros g W Hs Hci Hr Hc.
  - reflexivity.
  - inversion Hs as [|? ? Hcj Hrest]; subst. cbn [fst] in Hcj.
    unfold add_samples in *. cbn [fold_left fst snd].
    rewrite (IH (addSample g cj color)
               (wf_arrays_addSample g cj color W) Hrest Hci Hr Hc).
    rewrite (prod_addSample g cj color ci r c W Hcj Hci Hr Hc).
    unfold samples_of. cbn [filter fst].
    destruct (cj =? ci)%nat; reflexivity.
Qed.

Lemma sampleCount_add_samples samples ci : forall g,
  counts_consistent g ->
  Forall (fun s => fst s < componentsCount) samples ->
  (totalSampleCount g + Z.of_nat (length samples) <= INT_MAX)%Z ->
  sampleCount (add_samples g samples) ci =
  (sampleCount g ci + Z.of_nat (length (samples_of ci samples)))%Z.
Proof.
  induction samples as [|[cj color] rest IH]; intros g Hg Hs Hmax.
  - cbn. lia.
  - inversion Hs as [|? ? Hcj Hrest]; subst. cbn [fst] in Hcj.
    cbn [length] in Hmax. rewrite Nat2Z.inj_succ in Hmax.
    destruct (counts_addSample g cj color Hg Hcj ltac:(lia))
      as (H1 & Hsame & Hother & T1).
    unfold add_samples in *. cbn [fold_left fst snd].
    rewrite (IH (addSample g cj color) H1 Hrest ltac:(lia)).
    unfold samples_of. cbn [filter fst].
    destruct (Nat.eqb_spec cj ci) as [->|Hne].
    + rewrite Hsame. cbn [map length]. lia.
    + rewrite (Hother ci) by auto. reflexivity.
Qed.

(** What the accumulators hold after a pass. *)
Lemma accumulators_learning_pass g0 samples ci :
  wf_arrays g0 ->
  Forall (fun s => fst s < componentsCount) samples ->
  ci < componentsCount ->
  (forall k, k < 3 ->
     sum (learning_pass g0 samples) ci k =
     accumulate (fun y => channel y k) (samples_of ci samples) d_zero) /\
  (forall r c, r < 3 -> c < 3 ->
     prod (learning_pass g0 samples) ci r c =
     accumulate (fun y => channel y r * channel y c) (samples_of ci samples)
       d_zero).
Proof.
  intros W Hs Hci. unfold learning_pass.
  pose proof (wf_arrays_initLearning g0 W) as W0.
  split.
  - intros k Hk. rewrite sum_add_samples by auto.
    rewrite sum_initLearning by auto. reflexivity.
  - intros r c Hr Hc. rewrite prod_add_samples by auto.
    rewrite prod_initLearning by auto. reflexivity.
Qed.

Lemma sampleCount_learning_pass g0 samples ci :
  wf_arrays g0 ->
  Forall (fun s => fst s < componentsCount) samples ->
  (Z.of_nat (length samples) <= INT_MAX)%Z ->
  ci < componentsCount ->
  sampleCount (learning_pass g0 samples) ci =
  Z.of_nat (length (samples_of ci samples)).
Proof.
  intros W Hs Hmax Hci. unfold learning_pass.
  destruct W as (_ & _ & _ & _ & Lc).
  destruct (counts_initLearning g0 Lc) as (H0 & T0).
  rewrite sampleCount_add_samples by (auto; lia).
  unfold sampleCount. rewrite (sampleCounts_initLearning g0 Lc).
  unfold componentsCount in *.
  destruct ci as [|[|[|[|[|ci]]]]]; cbn; lia.
Qed.

(** X1.  What the accumulators hold after [initLearning] and a sequence
    of [addSample] calls, in either arithmetic: for each component the count
    of its samples, the sums of their channels and of the products of their
    channels, added up from 0 in call order; and in the total the number of
    calls. *)
Theorem accumulators_after_pass g0 samples ci :
  wf_arrays g0 ->
  Forall (fun s => fst s < componentsCount) samples ->
  (Z.of_nat (length samples) <= INT_MAX)%Z ->
  ci < componentsCount ->
  sampleCount (learning_pass g0 samples) ci
  = Z.of_nat (length (samples_of ci samples)) /\
  totalSampleCount (learning_pass g0 samples) = Z.of_nat (length samples) /\
  (forall k, k < 3 ->
     sum (learning_pass g0 samples) ci k =
     accumulate (fun y => channel y k) (samples_of ci samples) d_zero) /\
  (forall r c, r < 3 -> c < 3 ->
     prod (learning_pass g0 samples) ci r c =
     accumulate (fun y => channel y r * channel y c) (samples_of ci samples)
       d_zero).
Proof.
  intros W Hs Hmax Hci.
  split; [apply sampleCount_learning_pass; assumption|].
  split; [apply counts_learning_pass; [apply W|assumption..]|].
  apply accumulators_learning_pass; assumption.
Qed.

End Sums.


(* ================================================================== *)
(** ** The queries during and after learning *)
(* ================================================================== *)

Section Queries.
Context {D : Type} {A : Arith D} {L : Libm D}.
Implicit Types (g h : GMM D) (ci cj : nat).
Local Open Scope arith_scope.

(** *** The learning calls leave the model alone *)

Lemma model_initLearning g :
  model (initLearning g) = model g /\
  inverseCovs (initLearning g) = inverseCovs g /\
  covDeterms (initLearning g) = covDeterms g.
Proof.
  unfold initLearning, components, componentsCount. cbn [seq fold_left].
  unfold initLearning_body.
  cbn [model inverseCovs covDeterms set_totalSampleCount set_sampleCount
       set_prod set_sum].
  auto.
Qed.

Lemma model_addSample g ci color :
  model (addSample g ci color) = model g /\
  inverseCovs (addSample g ci color) = inverseCovs g /\
  covDeterms (addSample g ci color) = covDeterms g.
Proof.
  unfold addSample.
  cbn [model inverseCovs covDeterms set_totalSampleCount set_sampleCount
       set_prod set_sum].
  auto.
Qed.

Lemma model_learning_pass g samples :
  model (learning_pass g samples) = model g /\
  inverseCovs (learning_pass g samples) = inverseCovs g /\
  covDeterms (learning_pass g samples) = covDeterms g.
Proof.
  unfold learning_pass.
  destruct (model_initLearning g) as (M0 & I0 & C0).
  rewrite <- M0, <- I0, <- C0. generalize (initLearning g). clear.
  unfold add_samples.
  induction samples as [|[ci color] rest IH]; intros g; cbn [fold_left fst snd].
  - auto.
  - destruct (IH (addSample g ci color)) as (M & I & C).
    destruct (model_addSample g ci color) as (M1 & I1 & C1).
    rewrite M, I, C. auto.
Qed.

Lemma density_same_model g h ci color :
  model h = model g -> inverseCovs h = inverseCovs g ->
  covDeterms h = covDeterms g ->
  density h ci color = density g ci color.
Proof.
  intros M I C. unfold density, coefs, mean, covDeterm, inverseCov, buf.
  rewrite M, I, C. reflexivity.
Qed.

Lemma mixture_same_model g h color :
  model h = model g -> inverseCovs h = inverseCovs g ->
  covDeterms h = covDeterms g ->
  mixture h color = mixture g color.
Proof.
  intros M I C. unfold mixture. generalize d_zero.
  assert (Hc : forall i, coefs h i = coefs g i)
    by (intros i; unfold coefs, buf; rewrite M; reflexivity).
  induction components as [|a l IH]; intros r; cbn [mixture_loop].
  - reflexivity.
  - rewrite (density_same_model g h a color M I C).
    destruct (density g a color); [|reflexivity].
    rewrite Hc. apply IH.
Qed.

Lemma whichComponent_same_model g h color :
  model h = model g -> inverseCovs h = inverseCovs g ->
  covDeterms h = covDeterms g ->
  whichComponent h color = whichComponent g color.
Proof.
  intros M I C. unfold whichComponent. generalize d_zero. generalize 0.
  induction components as [|a l IH]; intros k r; cbn [whichComponent_loop].
  - reflexivity.
  - rewrite (density_same_model g h a color M I C).
    destruct (density g a color) as [p|]; [|reflexivity].
    destruct (p >? r); apply IH.
Qed.

(** X2.  [initLearning] and [addSample] write the accumulators only: while
    a pass accumulates, every query answers as it did before the pass. *)
Theorem learning_keeps_model (g : GMM D) (samples : list (nat * Vec3d D))
    (color : Vec3d D) :
  model (learning_pass g samples) = model g /\
  (forall ci, density (learning_pass g samples) ci color = density g ci color) /\
  mixture (learning_pass g samples) color = mixture g color /\
  whichComponent (learning_pass g samples) color = whichComponent g color.
Proof.
  destruct (model_learning_pass g samples) as (M & I & C).
  split; [exact M|]. split; [|split].
  - intros ci. apply density_same_model; assumption.
  - apply mixture_same_model; assumption.
  - apply whichComponent_same_model; assumption.
Qed.

(** *** The scan of [whichComponent] *)

Lemma whichComponent_loop_cases g color l : forall k max,
  (exists k', whichComponent_loop g color l k max = Ok k' /\
              (k' = k \/ In k' l) /\
              forall ci, In ci l -> exists p, density g ci color = Ok p) \/
  (whichComponent_loop g color l k max = Err StsAssert /\
   exists ci, In ci l /\ density g ci color = Err StsAssert).
Proof.
  induction l as [|a l IH]; intros k max; cbn [whichComponent_loop].
  - left. exists k. split; [reflexivity|]. split; [auto|]. intros ci [].
  - destruct (density g a color) as [p|e] eqn:Ea.
    + assert (step : forall k1 max1,
                (exists k', whichComponent_loop g color l k1 max1 = Ok k' /\
                   (k' = k1 \/ In k' l) /\
                   forall ci, In ci l -> exists p, density g ci color = Ok p) \/
                (whichComponent_loop g color l k1 max1 = Err StsAssert /\
                 exists ci, In ci l /\ density g ci color = Err StsAssert))
        by (intros; apply IH).
      assert (lift : forall k1 max1, k1 = k \/ k1 = a ->
                (exists k', whichComponent_loop g color l k1 max1 = Ok k' /\
                   (k' = k \/ In k' (a :: l)) /\
                   forall ci, In ci (a :: l) ->
                     exists p, density g ci color = Ok p) \/
                (whichComponent_loop g color l k1 max1 = Err StsAssert /\
                 exists ci, In ci (a :: l) /\
                            density g ci color = Err StsAssert)).
      { intros k1 max1 Hk1.
        destruct (step k1 max1) as [(k' & E & Hk' & Hall)|(E & ci & Hin & Hc)].
        - left. exists k'. split; [exact E|]. split.
          + destruct Hk' as [->|Hin]; [|right; right; exact Hin].
            destruct Hk1 as [->| ->]; [left; reflexivity|right; left; reflexivity].
          + intros ci [<-|Hin]; [eauto|auto].
        - right. split; [exact E|]. exists ci. split; [right; exact Hin|exact Hc]. }
      destruct (p >? max); apply lift; auto.
    + right. pose proof (density_throws_assert g a color e Ea) as ->.
      split; [reflexivity|]. exists a. split; [left; reflexivity|exact Ea].
Qed.

Lemma whichComponent_cases (g : GMM D) (color : Vec3d D) :
  (exists k, whichComponent g color = Ok k /\ k < componentsCount /\
     forall ci, ci < componentsCount -> exists p, density g ci color = Ok p) \/
  (whichComponent g color = Err StsAssert /\
   exists ci, ci < componentsCount /\ density g ci color = Err StsAssert).
Proof.
  pose proof components_below as Hb. rewrite Forall_forall in Hb.
  destruct (whichComponent_loop_cases g color components 0 d_zero)
    as [(k & E & Hk & Hall)|(E & ci & Hin & Hc)].
  - left. exists k. split; [exact E|]. split.
    + destruct Hk as [->|Hin]; [unfold componentsCount; lia|auto].
    + intros ci Hci. apply Hall, components_in, Hci.
  - right. split; [exact E|]. exists ci. split; [auto|exact Hc].
Qed.

(** X3.  [whichComponent] returns an index below [componentsCount], and it
    throws exactly when the density of some component throws. *)
Theorem whichComponent_outcomes (g : GMM D) (color : Vec3d D) :
  (exists k, whichComponent g color = Ok k /\ k < componentsCount /\
     forall ci, ci < componentsCount -> exists p, density g ci color = Ok p) \/
  (whichComponent g color = Err StsAssert /\
   exists ci, ci < componentsCount /\ density g ci color = Err StsAssert).
Proof. exact (whichComponent_cases g color). Qed.

(** *** The precondition of the queries *)


Lemma ready_density g color ci :
  cache_ready g -> ci < componentsCount ->
  exists p, density g ci color = Ok p.
Proof.
  intros R Hci. unfold density.
  destruct (coefs g ci >? d_zero) eqn:E; [|eauto].
  rewrite (R ci Hci E). eauto.
Qed.

Lemma ready_queries g color :
  cache_ready g ->
  (forall ci, ci < componentsCount -> exists p, density g ci color = Ok p) /\
  (exists v, mixture g color = Ok v) /\
  (exists k, whichComponent g color = Ok k /\ k < componentsCount).
Proof.
  intros R.
  assert (Hd : forall ci, ci < componentsCount ->
                 exists p, density g ci color = Ok p)
    by (intros; apply ready_density; assumption).
  split; [exact Hd|]. split.
  - eexists. unfold mixture. apply mixture_loop_ok.
    intros ci Hin. apply Hd.
    pose proof components_below as Hb. rewrite Forall_forall in Hb. auto.
  - destruct (whichComponent_cases g color)
      as [(k & E & Hk & _)|(_ & ci & Hci & Hc)]; [eauto|].
    destruct (Hd ci Hci) as (p & Ep). congruence.
Qed.

Context {AL : ArithLaws A}.

Lemma endLearning_ready g h :
  wf g -> endLearning g = Done h -> cache_ready h.
Proof.
  intros W Hdone ci Hci Hact.
  destruct (for_each_done endLearning_body frame_endLearning_body
              components g h components_nodup components_below Hdone ci
              (components_in ci Hci))
    as (gi & gc & Wi & _ & _ & Hbody & Hcomp).
  change (coefs h ci) with (weight (component h ci)) in Hact.
  change (covDeterm h ci) with (sigma_det (component h ci)).
  rewrite Hcomp in *. cbn [weight sigma_det component] in *.
  unfold endLearning_body in Hbody.
  destruct (sampleCount gi ci =? 0)%Z.
  - injection Hbody as <-. exfalso. revert Hact.
    destruct (Wi W) as (Wm & _). views. arrays.
    rewrite zero_not_positive. discriminate.
  - destruct (totalSampleCount gi >? 0)%Z; [|discriminate].
    pose proof (calc_keeps_weights (endLearning_fit gi ci) ci d_fix ci Hci Hci)
      as K.
    rewrite Hbody in K. cbn [result_state] in K. rewrite K in Hact.
    assert (Wf : wf (endLearning_fit gi ci))
      by (apply (frame_fit ci gi Hci); auto).
    apply (calc_done_cache (endLearning_fit gi ci) ci d_fix gc Wf Hci Hact Hbody).
Qed.

(** X4.  After a completed [endLearning] no query can throw: the density
    of every component, the mixture density and [whichComponent] return
    values for every colour. *)
Theorem queries_defined_after_endLearning (g h : GMM D) (color : Vec3d D) :
  wf g -> endLearning g = Done h ->
  (forall ci, ci < componentsCount -> exists p, density h ci color = Ok p) /\
  (exists v, mixture h color = Ok v) /\
  (exists k, whichComponent h color = Ok k /\ k < componentsCount).
Proof.
  intros W Hdone. apply ready_queries. exact (endLearning_ready g h W Hdone).
Qed.

End Queries.


(* ================================================================== *)
(** ** Components and their cache *)
(* ================================================================== *)

Section Fields.
Context {D : Type} {A : Arith D}.

(** Two objects that hold the same about a component agree on each of its
    numbers. *)
Lemma component_fields (g h : GMM D) ci :
  component h ci = component g ci ->
  coefs h ci = coefs g ci /\
  (forall k, k < 3 -> mean h (3 * ci + k) = mean g (3 * ci + k)) /\
  (forall k, k < 9 -> cov h (9 * ci + k) = cov g (9 * ci + k)) /\
  covDeterm h ci = covDeterm g ci /\
  (forall k, k < 9 ->
     nth (9 * ci + k) (inverseCovs h) d_zero = nth (9 * ci + k) (inverseCovs g) d_zero).
Proof.
  intros E.
  assert (Ew := f_equal weight E). assert (Em := f_equal mu E).
  assert (Es := f_equal sigma E). assert (Ed := f_equal sigma_det E).
  assert (Ei := f_equal sigma_inv E).
  cbn [component weight mu sigma sigma_det sigma_inv map seq] in *.
  split; [exact Ew|]. split; [|split; [|split; [exact Ed|]]].
  - intros k Hk. injection Em as E0 E1 E2.
    destruct k as [|[|[|k]]]; [assumption..|lia].
  - intros k Hk. injection Es as E0 E1 E2 E3 E4 E5 E6 E7 E8.
    destruct k as [|[|[|[|[|[|[|[|[|k]]]]]]]]]; [assumption..|lia].
  - intros k Hk. injection Ei as E0 E1 E2 E3 E4 E5 E6 E7 E8.
    destruct k as [|[|[|[|[|[|[|[|[|k]]]]]]]]]; [assumption..|lia].
Qed.

Lemma cov_set_covDeterm (g : GMM D) ci v k :
  cov (set_covDeterm g ci v) k = cov g k.
Proof. reflexivity. Qed.

End Fields.


Section CacheView.
Context {D : Type} {A : Arith D}.
Implicit Types (g h a b : GMM D) (ci cj : nat).
Local Open Scope arith_scope.


Lemma inverseCov_index g ci r c :
  inverseCov g ci r c = nth (9 * ci + (3 * r + c)) (inverseCovs g) d_zero.
Proof. unfold inverseCov. f_equal. lia. Qed.

Lemma inverseCov_nth g ci r c k :
  k = (3 * r + c)%nat ->
  inverseCov g ci r c = nth (9 * ci + k) (inverseCovs g) d_zero.
Proof. intros ->. apply inverseCov_index. Qed.

Lemma component_eq_intro g h ci :
  coefs h ci = coefs g ci ->
  (forall k, k < 3 -> mean h (3 * ci + k) = mean g (3 * ci + k)) ->
  (forall k, k < 9 -> cov h (9 * ci + k) = cov g (9 * ci + k)) ->
  covDeterm h ci = covDeterm g ci ->
  (forall r c, r < 3 -> c < 3 -> inverseCov h ci r c = inverseCov g ci r c) ->
  component h ci = component g ci.
Proof.
  intros Ew Em Es Ed Ei. unfold component. cbn [map seq].
  rewrite Ew, Ed, !Em, !Es by lia.
  pose proof (Ei 0 0 ltac:(lia) ltac:(lia)) as I0.
  rewrite !(inverseCov_nth _ ci 0 0 0 eq_refl) in I0.
  pose proof (Ei 0 1 ltac:(lia) ltac:(lia)) as I1.
  rewrite !(inverseCov_nth _ ci 0 1 1 eq_refl) in I1.
  pose proof (Ei 0 2 ltac:(lia) ltac:(lia)) as I2.
  rewrite !(inverseCov_nth _ ci 0 2 2 eq_refl) in I2.
  pose proof (Ei 1 0 ltac:(lia) ltac:(lia)) as I3.
  rewrite !(inverseCov_nth _ ci 1 0 3 eq_refl) in I3.
  pose proof (Ei 1 1 ltac:(lia) ltac:(lia)) as I4.
  rewrite !(inverseCov_nth _ ci 1 1 4 eq_refl) in I4.
  pose proof (Ei 1 2 ltac:(lia) ltac:(lia)) as I5.
  rewrite !(inverseCov_nth _ ci 1 2 5 eq_refl) in I5.
  pose proof (Ei 2 0 ltac:(lia) ltac:(lia)) as I6.
  rewrite !(inverseCov_nth _ ci 2 0 6 eq_refl) in I6.
  pose proof (Ei 2 1 ltac:(lia) ltac:(lia)) as I7.
  rewrite !(inverseCov_nth _ ci 2 1 7 eq_refl) in I7.
  pose proof (Ei 2 2 ltac:(lia) ltac:(lia)) as I8.
  rewrite !(inverseCov_nth _ ci 2 2 8 eq_refl) in I8.
  rewrite I0, I1, I2, I3, I4, I5, I6, I7, I8. reflexivity.
Qed.

Lemma inverse_fields g h ci :
  (forall k, k < 9 ->
     nth (9 * ci + k) (inverseCovs h) d_zero = nth (9 * ci + k) (inverseCovs g) d_zero) ->
  forall r c, r < 3 -> c < 3 -> inverseCov h ci r c = inverseCov g ci r c.
Proof.
  intros H r c Hr Hc. rewrite !inverseCov_index. apply H. lia.
Qed.

(** Coherence is a property of what the object holds about the component. *)
Lemma cache_coherent_component g h ci :
  component h ci = component g ci -> cache_coherent g ci -> cache_coherent h ci.
Proof.
  intros E.
  destruct (component_fields g h ci E) as (_ & _ & Hc & Hd & Hi).
  pose proof (inverse_fields g h ci Hi) as Hi'.
  pose proof (dtrm_of_sigma h g ci (f_equal sigma E)) as Hdt.
  unfold cache_coherent. cbv zeta.
  rewrite Hd, Hdt, !Hc, !Hi' by lia. auto.
Qed.

Lemma calc_done_coherent g ci fx h :
  wf g -> ci < componentsCount -> (coefs g ci >? d_zero) = true ->
  calcInverseCovAndDeterm g ci fx = Done h -> cache_coherent h ci.
Proof. intros. eapply calc_done_cache; eassumption. Qed.

(** What a call leaves about the component follows from the weight, the
    mean and the covariance it finds, whatever the cache held. *)
Lemma calc_component a b ci fx a' :
  wf a -> wf b -> ci < componentsCount ->
  coefs b ci = coefs a ci ->
  (forall k, k < 3 -> mean b (3 * ci + k) = mean a (3 * ci + k)) ->
  (forall k, k < 9 -> cov b (9 * ci + k) = cov a (9 * ci + k)) ->
  (coefs a ci >? d_zero) = true ->
  calcInverseCovAndDeterm a ci fx = Done a' ->
  exists b', calcInverseCovAndDeterm b ci fx = Done b' /\
             component b' ci = component a' ci.
Proof.
  intros Wa Wb Hci Ew Em Es Hact Ha.
  assert (Hactb : (coefs b ci >? d_zero) = true) by (rewrite Ew; exact Hact).
  assert (Ed : dtrm_of b ci = dtrm_of a ci).
  { unfold dtrm_of. cbv zeta. rewrite !Es by lia. reflexivity. }
  pose proof (calc_cases a ci fx) as Ca. pose proof (calc_cases b ci fx) as Cb.
  cbv zeta in Ca, Cb. rewrite Ed in Cb.
  set (cond := (dtrm_of a ci <=? d_floor) && (fx >? d_zero)) in *.
  set (a1 := if cond then add_white_noise a ci fx else a) in *.
  set (b1 := if cond then add_white_noise b ci fx else b) in *.
  assert (Wa1 : wf a1).
  { subst a1. destruct cond; [|exact Wa].
    apply (frame_add_white_noise ci a fx Hci); exact Wa. }
  assert (Wb1 : wf b1).
  { subst b1. destruct cond; [|exact Wb].
    apply (frame_add_white_noise ci b fx Hci); exact Wb. }
  assert (Es1 : forall k, k < 9 -> cov b1 (9 * ci + k) = cov a1 (9 * ci + k)).
  { intros k Hk. subst a1 b1. destruct cond; [|apply Es; exact Hk].
    rewrite !cov_add_white_noise by (try apply Wa; try apply Wb; assumption).
    unfold regularised. rewrite Es by exact Hk. reflexivity. }
  assert (Ed1 : dtrm_of b1 ci = dtrm_of a1 ci).
  { unfold dtrm_of. cbv zeta. rewrite !Es1 by lia. reflexivity. }
  rewrite Ed1 in Cb.
  destruct Ca as [(E & _)|[(_ & _ & E)|(_ & Heps & Ea)]]; [congruence..|].
  destruct Cb as [(E & _)|[(_ & E & _)|(_ & _ & Eb)]]; [congruence..|].
  eexists. split; [exact Eb|].
  assert (Ea' : a' = store_inverse (set_covDeterm a1 ci (dtrm_of a1 ci)) ci
                       (d_one / dtrm_of a1 ci)) by congruence.
  pose proof (calc_done_coherent a ci fx a' Wa Hci Hact Ha) as Ka.
  pose proof (calc_done_coherent b ci fx _ Wb Hci Hactb Eb) as Kb.
  set (b' := store_inverse (set_covDeterm b1 ci (dtrm_of a1 ci)) ci
               (d_one / dtrm_of a1 ci)) in *.
  assert (Ec : forall k, k < 9 -> cov b' (9 * ci + k) = cov a' (9 * ci + k)).
  { intros k Hk. rewrite Ea'. subst b'.
    rewrite !cov_store_inverse, !cov_set_covDeterm. apply Es1, Hk. }
  assert (Edet : covDeterm b' ci = covDeterm a' ci).
  { destruct Ka as (-> & _). destruct Kb as (-> & _).
    unfold dtrm_of. cbv zeta. rewrite !Ec by lia. reflexivity. }
  apply component_eq_intro.
  - pose proof (calc_keeps_weights a ci fx ci Hci Hci) as K1.
    pose proof (calc_keeps_weights b ci fx ci Hci Hci) as K2.
    rewrite Ha in K1. rewrite Eb in K2. cbn [result_state] in K1, K2.
    rewrite K1, K2. exact Ew.
  - intros k Hk.
    pose proof (calc_keeps_means a ci fx (3 * ci + k) Hci
                  ltac:(unfold componentsCount in *; lia)) as K1.
    pose proof (calc_keeps_means b ci fx (3 * ci + k) Hci
                  ltac:(unfold componentsCount in *; lia)) as K2.
    rewrite Ha in K1. rewrite Eb in K2. cbn [result_state] in K1, K2.
    rewrite K1, K2. apply Em, Hk.
  - exact Ec.
  - exact Edet.
  - unfold cache_coherent in Ka, Kb. cbv zeta in Ka, Kb.
    destruct Ka as (_ & _ & A0 & A1 & A2 & A3 & A4 & A5 & A6 & A7 & A8).
    destruct Kb as (_ & _ & B0 & B1 & B2 & B3 & B4 & B5 & B6 & B7 & B8).
    rewrite Edet, !Ec in B0, B1, B2, B3, B4, B5, B6, B7, B8 by lia.
    intros r c Hr Hc.
    destruct r as [|[|[|r]]]; [| | |lia];
      (destruct c as [|[|[|c]]]; [| | |lia]); congruence.
Qed.

End CacheView.

Section Again.
Context {D : Type} {A : Arith D}.
Implicit Types (g h a b : GMM D) (ci cj : nat).
Local Open Scope arith_scope.

Section CompletesAt.
Variable body : GMM D -> nat -> outcome D.
Hypothesis body_frame :
  forall g ci, ci < componentsCount -> frame ci g (result_state (body g ci)).

(** A loop completes when its body completes on every state that holds,
    about the component it is called for, what the state at entry held. *)
Lemma for_each_completes_at l : forall g,
  NoDup l -> Forall (fun ci => ci < componentsCount) l -> wf g ->
  (forall gi ci, In ci l -> wf gi -> same_accumulators g gi ->
     component gi ci = component g ci ->
     exists gc, body gi ci = Done gc) ->
  exists h, for_each l body g = Done h.
Proof.
  induction l as [|a l IH]; intros g Hnd Hl W Hbody.
  - cbn. eauto.
  - inversion Hl as [|? ? Ha Hl']; subst.
    inversion Hnd as [|? ? Hnotin Hnd']; subst.
    destruct (Hbody g a (or_introl eq_refl) W) as (g1 & E1);
      [unfold same_accumulators; auto|reflexivity|].
    pose proof (body_frame g a Ha) as (W1 & S1 & F1).
    rewrite E1 in W1, S1, F1. cbn [result_state] in W1, S1, F1.
    cbn [for_each]. rewrite E1. cbn [and_then].
    apply IH; [exact Hnd'|exact Hl'|auto|].
    intros gi ci Hin Wi Si Ci. apply Hbody; [right; exact Hin|exact Wi| |].
    + unfold same_accumulators in *. intuition congruence.
    + rewrite Ci. apply F1.
      * rewrite Forall_forall in Hl'. auto.
      * intros ->. contradiction.
Qed.

End CompletesAt.

Lemma cache_endLearning_fit g ci :
  inverseCovs (endLearning_fit g ci) = inverseCovs g /\
  covDeterms (endLearning_fit g ci) = covDeterms g.
Proof.
  unfold endLearning_fit, set_cov, set_mean, set_coefs.
  cbn [inverseCovs covDeterms set_buf]. auto.
Qed.

(** What the stores of [endLearning] write follows from the accumulators. *)
Lemma fit_local g g' ci :
  wf g -> wf g' -> ci < componentsCount ->
  same_accumulators g g' ->
  coefs (endLearning_fit g' ci) ci = coefs (endLearning_fit g ci) ci /\
  (forall k, k < 3 ->
     mean (endLearning_fit g' ci) (3 * ci + k)
     = mean (endLearning_fit g ci) (3 * ci + k)) /\
  (forall k, k < 9 ->
     cov (endLearning_fit g' ci) (9 * ci + k)
     = cov (endLearning_fit g ci) (9 * ci + k)).
Proof.
  intros W W' Hci (Es & Ep & Ec & Et).
  destruct (fit_values g ci (proj1 W) Hci) as (Fw & Fm & Fc).
  destruct (fit_values g' ci (proj1 W') Hci) as (Fw' & Fm' & Fc').
  cbv zeta in *.
  assert (En : sampleCount g' ci = sampleCount g ci)
    by (unfold sampleCount; rewrite Ec; reflexivity).
  assert (Esum : forall k, sum g' ci k = sum g ci k)
    by (intros; unfold sum; rewrite Es; reflexivity).
  assert (Eprod : forall r c, prod g' ci r c = prod g ci r c)
    by (intros; unfold prod; rewrite Ep; reflexivity).
  rewrite En, Et in *.
  assert (M : forall k, k < 3 ->
            mean (endLearning_fit g' ci) (3 * ci + k)
            = mean (endLearning_fit g ci) (3 * ci + k)).
  { intros k Hk. rewrite Fm, Fm', Esum by exact Hk. reflexivity. }
  split; [congruence|]. split; [exact M|].
  assert (C : forall r c, r < 3 -> c < 3 ->
            cov (endLearning_fit g' ci) (9 * ci + (3 * r + c))
            = cov (endLearning_fit g ci) (9 * ci + (3 * r + c))).
  { intros r c Hr Hc. rewrite Fc, Fc', Eprod, !M by assumption. reflexivity. }
  intros k Hk.
  destruct k as [|[|[|[|[|[|[|[|[|k]]]]]]]]]; [| | | | | | | | |lia].
  - apply (C 0 0); lia.
  - apply (C 0 1); lia.
  - apply (C 0 2); lia.
  - apply (C 1 0); lia.
  - apply (C 1 1); lia.
  - apply (C 1 2); lia.
  - apply (C 2 0); lia.
  - apply (C 2 1); lia.
  - apply (C 2 2); lia.
Qed.

Lemma set_coefs_fields g ci v :
  wf g -> ci < componentsCount ->
  coefs (set_coefs g ci v) ci = v /\
  (forall k, k < 3 -> mean (set_coefs g ci v) (3 * ci + k) = mean g (3 * ci + k)) /\
  (forall k, k < 9 -> cov (set_coefs g ci v) (9 * ci + k) = cov g (9 * ci + k)).
Proof.
  intros (Wm & _) Hci. views. repeat split; intros; arrays; reflexivity.
Qed.

(** The body of the loop of [endLearning], run again on a state that holds
    the same accumulators and, about the component, what a completed
    [endLearning] left. *)
Lemma body_again g h gi' ci :
  wf g -> endLearning g = Done h -> ci < componentsCount ->
  wf gi' -> same_accumulators g gi' -> component gi' ci = component h ci ->
  exists gc', endLearning_body gi' ci = Done gc' /\
              component gc' ci = component h ci.
Proof.
  intros W Hdone Hci Wi' Sacc' Hc'.
  destruct (for_each_done endLearning_body frame_endLearning_body
              components g h components_nodup components_below Hdone ci
              (components_in ci Hci))
    as (gi & gc & Wi & Sacc & _ & Hbody & Hcomp).
  specialize (Wi W).
  assert (Sii : same_accumulators gi gi').
  { unfold same_accumulators in *. intuition congruence. }
  destruct Sii as (Es & Ep & Ec & Et).
  destruct (component_fields h gi' ci Hc') as (Gw & Gm & Gc & Gd & Gi).
  destruct (component_fields gc h ci Hcomp) as (Hw & Hm & Hc & Hd & Hi).
  unfold endLearning_body in *.
  assert (En : sampleCount gi' ci = sampleCount gi ci)
    by (unfold sampleCount; rewrite Ec; reflexivity).
  rewrite En, Et.
  destruct (sampleCount gi ci =? 0)%Z.
  - eexists. split; [reflexivity|].
    assert (Egc : gc = set_coefs gi ci d_zero) by congruence.
    destruct (set_coefs_fields gi ci d_zero Wi Hci) as (S1 & _).
    destruct (set_coefs_fields gi' ci d_zero Wi' Hci) as (S1' & S2' & S3').
    apply component_eq_intro.
    + rewrite S1', Hw, Egc, S1. reflexivity.
    + intros k Hk. rewrite S2' by exact Hk. apply Gm, Hk.
    + intros k Hk. rewrite S3' by exact Hk. apply Gc, Hk.
    + exact Gd.
    + apply inverse_fields. exact Gi.
  - destruct (totalSampleCount gi >? 0)%Z; [|discriminate].
    set (f := endLearning_fit gi ci) in *.
    set (f' := endLearning_fit gi' ci) in *.
    assert (Wf : wf f) by (apply (frame_fit ci gi Hci); exact Wi).
    assert (Wf' : wf f') by (apply (frame_fit ci gi' Hci); exact Wi').
    destruct (fit_local gi gi' ci Wi Wi' Hci (conj Es (conj Ep (conj Ec Et))))
      as (Fw & Fm & Fc).
    fold f f' in Fw, Fm, Fc.
    destruct (coefs f ci >? d_zero) eqn:Hact.
    + destruct (calc_component f f' ci d_fix gc Wf Wf' Hci Fw Fm Fc Hact Hbody)
        as (gc' & E' & C').
      exists gc'. split; [exact E'|]. rewrite C'. symmetry. exact Hcomp.
    + destruct (calc_cases f ci d_fix) as [(_ & E)|[(E & _)|(E & _)]];
        [|congruence..].
      destruct (calc_cases f' ci d_fix) as [(_ & E')|[(E' & _)|(E' & _)]];
        [|rewrite Fw in E'; congruence..].
      exists f'. split; [exact E'|].
      assert (Egc : gc = f) by congruence. rewrite Egc in *.
      destruct (cache_endLearning_fit gi' ci) as (I' & D').
      fold f' in I', D'.
      apply component_eq_intro.
      * rewrite Fw. symmetry. exact Hw.
      * intros k Hk. rewrite Fm by exact Hk. symmetry. apply Hm, Hk.
      * intros k Hk. rewrite Fc by exact Hk. symmetry. apply Hc, Hk.
      * unfold covDeterm. rewrite D'. exact Gd.
      * intros r c Hr Hc0. unfold inverseCov. rewrite I'.
        apply (inverse_fields h gi' ci Gi r c Hr Hc0).
Qed.

(** Called again with no sample added, [endLearning] completes and leaves
    the accumulators and everything held about every component as they
    were. *)
Lemma endLearning_again (g h : GMM D) :
  wf g -> endLearning g = Done h ->
  exists h2, endLearning h = Done h2 /\
             same_accumulators h h2 /\
             forall ci, ci < componentsCount -> component h2 ci = component h ci.
Proof.
  intros W Hdone.
  destruct (endLearning_frame g) as (Wh & Sh).
  rewrite Hdone in Wh, Sh. cbn [result_state] in Wh, Sh. specialize (Wh W).
  assert (Hagain : forall gi ci, ci < componentsCount -> wf gi ->
            same_accumulators h gi -> component gi ci = component h ci ->
            exists gc, endLearning_body gi ci = Done gc /\
                       component gc ci = component h ci).
  { intros gi ci Hci Wi Si Ci. apply (body_again g h gi ci W Hdone Hci Wi); auto.
    unfold same_accumulators in *. intuition congruence. }
  pose proof components_below as Hb. rewrite Forall_forall in Hb.
  destruct (for_each_completes_at endLearning_body frame_endLearning_body
              components h components_nodup components_below Wh)
    as (h2 & E2).
  { intros gi ci Hin Wi Si Ci.
    destruct (Hagain gi ci (Hb ci Hin) Wi Si Ci) as (gc & E & _). eauto. }
  exists h2. split; [exact E2|]. split.
  - destruct (endLearning_frame h) as (_ & S2).
    unfold endLearning in S2 at 1. unfold endLearning in E2.
    rewrite E2 in S2. exact S2.
  - intros ci Hci.
    destruct (for_each_done endLearning_body frame_endLearning_body
                components h h2 components_nodup components_below E2 ci
                (components_in ci Hci))
      as (gi & gc & Wi & Si & Ci & Hbody & Hcomp).
    destruct (Hagain gi ci Hci (Wi Wh) Si Ci) as (gc' & E & C).
    rewrite Hcomp. assert (gc = gc') by congruence. subst. exact C.
Qed.

End Again.


(* ================================================================== *)
(** ** Trained components in binary64 *)
(* ================================================================== *)


Lemma weight_positive_b64 (n N : Z) :
  (0 < n <= N)%Z -> (N < 2 ^ 31)%Z ->
  PrimFloat.ltb 0 (b64_of_int n / b64_of_int N)%float = true.
Proof.
  intros Hn HN.
  rewrite ltb_spec, div_spec, !Prim2SF_of_int by lia.
  destruct (normalize_int n ltac:(lia)) as (p1 & s1 & -> & Hp1 & Hs1 & E1).
  destruct (normalize_int N ltac:(lia)) as (p2 & s2 & -> & Hp2 & Hs2 & E2).
  destruct (SFdiv_normal p1 p2 (- s1) (- s2) Hp1 Hp2 ltac:(lia) ltac:(lia))
    as (p & k & Hdiv & _).
  unfold SF64div, FloatOps.prec, FloatOps.emax. rewrite Hdiv. reflexivity.
Qed.

(** X9.  In binary64, after a completed pass every component that
    received a sample is active: its weight is greater than 0 (the quotient
    of the counts never rounds to 0) and within a relative [2^-52] of its
    share of the samples, and its cached determinant is above epsilon. *)
Theorem trained_components_active (g0 : GMM float)
    (samples : list (nat * Vec3d float)) (h : GMM float) (ci : nat) :
  wf g0 ->
  Forall (fun s => fst s < componentsCount) samples ->
  (Z.of_nat (length samples) <= INT_MAX)%Z ->
  endLearning (learning_pass g0 samples) = Done h ->
  ci < componentsCount ->
  samples_of ci samples <> [] ->
  (coefs h ci >? d_zero)%D = true /\
  (covDeterm h ci >? d_eps)%D = true /\
  (Rabs (b64_value (coefs h ci)
         - INR (length (samples_of ci samples)) / INR (length samples))
   <= INR (length (samples_of ci samples)) / INR (length samples) * / 2 ^ 52)%R.
Proof.
  intros W Hs Hmax Hdone Hci Hne.
  pose proof (wf_learning_pass g0 samples W) as Wg.
  destruct (counts_learning_pass g0 samples
              (proj2 (proj2 (proj2 (proj2 (proj2 W))))) Hs Hmax)
    as ((Hlen & Htot & Hpos) & HN).
  pose proof (sampleCount_learning_pass g0 samples ci (proj2 W) Hs Hmax Hci)
    as Hcount.
  set (g := learning_pass g0 samples) in *.
  pose proof (Zsum_bounds (sampleCounts g) ci Hpos) as Hb.
  fold (sampleCount g ci) in Hb. rewrite <- Htot in Hb.
  assert (Hn : (0 < sampleCount g ci)%Z).
  { rewrite Hcount. destruct (samples_of ci samples);
      [congruence|cbn [length]; lia]. }
  assert (Hact : (coefs h ci >? d_zero)%D = true).
  { rewrite (endLearning_active_weight g h ci Wg Hdone Hci) by lia.
    apply weight_positive_b64; [lia|]. rewrite HN. unfold INT_MAX in Hmax. lia. }
  split; [exact Hact|].
  split; [apply (endLearning_ready g h Wg Hdone ci Hci Hact)|].
  rewrite (endLearning_active_weight g h ci Wg Hdone Hci) by lia.
  rewrite !INR_IZR_INZ, <- Hcount, <- HN.
  apply weight_rounding; [lia|]. rewrite HN. unfold INT_MAX in Hmax. lia.
Qed.


(* ================================================================== *)
(** ** Reloading a fitted model *)
(* ================================================================== *)

Section Reload.
Context {D : Type} {A : Arith D} {AL : ArithLaws A}.
Implicit Types (g h a b : GMM D) (ci cj : nat).
Local Open Scope arith_scope.

(** Without a correction, recomputing a coherent cache changes nothing. *)
Lemma calc_zero_coherent h ci :
  cache_coherent h ci -> (coefs h ci >? d_zero) = true ->
  calcInverseCovAndDeterm h ci d_zero = Done h.
Proof.
  intros K Hact. unfold cache_coherent in K. cbv zeta in K.
  destruct K as (Hd & Heps & H00 & H10 & H20 & H01 & H11 & H21 & H02 & H12 & H22).
  pose proof (calc_cases h ci d_zero) as C. cbv zeta in C.
  rewrite zero_not_positive, andb_false_r in C.
  rewrite <- Hd in C.
  rewrite (set_covDeterm_present h ci _ eq_refl) in C.
  destruct C as [(E & _)|[(_ & E & _)|(_ & _ & E)]]; [congruence..|].
  rewrite E. f_equal.
  unfold store_inverse. cbv beta zeta.
  rewrite (set_inverseCov_present h ci 0 0 _ H00).
  rewrite (set_inverseCov_present h ci 1 0 _ H10).
  rewrite (set_inverseCov_present h ci 2 0 _ H20).
  rewrite (set_inverseCov_present h ci 0 1 _ H01).
  rewrite (set_inverseCov_present h ci 1 1 _ H11).
  rewrite (set_inverseCov_present h ci 2 1 _ H21).
  rewrite (set_inverseCov_present h ci 0 2 _ H02).
  rewrite (set_inverseCov_present h ci 1 2 _ H12).
  apply (set_inverseCov_present h ci 2 2 _ H22).
Qed.

Lemma endLearning_coherent g h ci :
  wf g -> endLearning g = Done h -> ci < componentsCount ->
  (coefs h ci >? d_zero) = true -> cache_coherent h ci.
Proof.
  intros W Hdone Hci Hact.
  destruct (for_each_done endLearning_body frame_endLearning_body
              components g h components_nodup components_below Hdone ci
              (components_in ci Hci))
    as (gi & gc & Wi & _ & _ & Hbody & Hcomp).
  apply (cache_coherent_component gc h ci Hcomp).
  destruct (component_fields gc h ci Hcomp) as (Hw & _).
  rewrite Hw in Hact.
  unfold endLearning_body in Hbody.
  destruct (sampleCount gi ci =? 0)%Z.
  - exfalso. assert (Egc : gc = set_coefs gi ci d_zero) by congruence.
    destruct (set_coefs_fields gi ci d_zero (Wi W) Hci) as (S1 & _).
    rewrite Egc, S1, zero_not_positive in Hact. discriminate.
  - destruct (totalSampleCount gi >? 0)%Z; [|discriminate].
    pose proof (calc_keeps_weights (endLearning_fit gi ci) ci d_fix ci Hci Hci)
      as K.
    rewrite Hbody in K. cbn [result_state] in K. rewrite K in Hact.
    assert (Wf : wf (endLearning_fit gi ci))
      by (apply (frame_fit ci gi Hci); auto).
    exact (calc_done_coherent (endLearning_fit gi ci) ci d_fix gc Wf Hci
             Hact Hbody).
Qed.

(** The body of the loop of the constructor on a state whose buffer holds,
    about component [ci], what a model with a coherent cache holds. *)
Lemma ctor_body_reload h gi ci :
  wf h -> wf gi -> ci < componentsCount ->
  coefs gi ci = coefs h ci ->
  (forall k, k < 3 -> mean gi (3 * ci + k) = mean h (3 * ci + k)) ->
  (forall k, k < 9 -> cov gi (9 * ci + k) = cov h (9 * ci + k)) ->
  ((coefs h ci >? d_zero) = true -> cache_coherent h ci) ->
  exists gc, GMM_ctor_body gi ci = Done gc /\
    ((coefs h ci >? d_zero) = true -> component gc ci = component h ci).
Proof.
  intros Wh Wi Hci Ew Em Ec Hco. unfold GMM_ctor_body. rewrite Ew.
  destruct (coefs h ci >? d_zero) eqn:Hact.
  - pose proof (calc_zero_coherent h ci (Hco eq_refl) Hact) as Eh.
    destruct (calc_component h gi ci d_zero h Wh Wi Hci Ew Em Ec Hact Eh)
      as (gc & E & C).
    exists gc. split; [exact E|]. intros _. exact C.
  - eexists. split; [reflexivity|]. discriminate.
Qed.

(** X10.  A model that [endLearning] completed can be reloaded from its
    parameter buffer: the constructor, on any object and that buffer,
    completes, keeps the buffer, and recomputes for every component of
    positive weight the cache that [endLearning] left. *)
Theorem reload_after_endLearning (g h self : GMM D) :
  wf g -> endLearning g = Done h ->
  mat_type (model h) = CV_64FC1 -> rows (model h) = 1%Z ->
  cols (model h) = 65%Z ->
  wf_arrays self ->
  exists h', GMM_ctor self (model h) = Done h' /\
    model h' = model h /\ totalSampleCount h' = 0%Z /\
    forall ci, ci < componentsCount ->
      (coefs h ci >? d_zero) = true -> component h' ci = component h ci.
Proof.
  intros W Hdone Ht Hr Hc Wself.
  destruct (endLearning_frame g) as (Wh & _).
  rewrite Hdone in Wh. cbn [result_state] in Wh. specialize (Wh W).
  assert (Hne : mat_empty (model h) = false).
  { unfold mat_empty. rewrite Hr, Hc.
    destruct Wh as (Wm & _). unfold wf_model, buf in Wm.
    destruct (data (model h)); [discriminate Wm|reflexivity]. }
  set (s0 := set_model self (model h)).
  assert (W0 : wf s0) by (split; [exact (proj1 Wh)|exact Wself]).
  assert (Hfields : forall gi ci, component gi ci = component s0 ci ->
            coefs gi ci = coefs h ci /\
            (forall k, k < 3 -> mean gi (3 * ci + k) = mean h (3 * ci + k)) /\
            (forall k, k < 9 -> cov gi (9 * ci + k) = cov h (9 * ci + k))).
  { intros gi ci E. destruct (component_fields s0 gi ci E) as (F1 & F2 & F3 & _).
    split; [exact F1|]. split; assumption. }
  assert (Hbody : forall gi ci, ci < componentsCount -> wf gi ->
            component gi ci = component s0 ci ->
            exists gc, GMM_ctor_body gi ci = Done gc /\
              ((coefs h ci >? d_zero) = true ->
               component gc ci = component h ci)).
  { intros gi ci Hci Wi E. destruct (Hfields gi ci E) as (F1 & F2 & F3).
    apply (ctor_body_reload h gi ci Wh Wi Hci F1 F2 F3).
    apply (endLearning_coherent g h ci W Hdone Hci). }
  pose proof components_below as Hb. rewrite Forall_forall in Hb.
  destruct (for_each_completes_at GMM_ctor_body frame_ctor_body
              components s0 components_nodup components_below W0)
    as (hl & El).
  { intros gi ci Hin Wi _ Ci.
    destruct (Hbody gi ci (Hb ci Hin) Wi Ci) as (gc & E & _). eauto. }
  exists (set_totalSampleCount hl 0%Z).
  split.
  - unfold GMM_ctor. cbv zeta. rewrite Hne, Ht, Hr, Hc.
    change ((3 + 9 + 1) * Z.of_nat componentsCount)%Z with 65%Z.
    rewrite !Z.eqb_refl. cbn [negb orb]. fold s0. rewrite El. reflexivity.
  - split; [|split; [reflexivity|]].
    + pose proof (for_each_ctor_model components s0) as M.
      rewrite El in M. exact M.
    + intros ci Hci Hact.
      destruct (for_each_done GMM_ctor_body frame_ctor_body
                  components s0 hl components_nodup components_below El ci
                  (components_in ci Hci))
        as (gi & gc & Wi & _ & Ci & Eb & Hcomp).
      destruct (Hbody gi ci Hci (Wi W0) Ci) as (gc' & E & C).
      assert (gc = gc') by congruence. subst gc'.
      change (component (set_totalSampleCount hl 0%Z) ci) with (component hl ci).
      rewrite Hcomp. apply C, Hact.
Qed.

End Reload.


(* ================================================================== *)
(** ** Fitting twice *)
(* ================================================================== *)

Ltac by3 H :=
  first [exact (H 0 ltac:(lia)) | exact (H 1 ltac:(lia)) | exact (H 2 ltac:(lia))].
Ltac by9 H :=
  first [exact (H 0 ltac:(lia)) | exact (H 1 ltac:(lia)) | exact (H 2 ltac:(lia))
        | exact (H 3 ltac:(lia)) | exact (H 4 ltac:(lia)) | exact (H 5 ltac:(lia))
        | exact (H 6 ltac:(lia)) | exact (H 7 ltac:(lia)) | exact (H 8 ltac:(lia))].

Section Ext.
Context {D : Type} {A : Arith D}.
Implicit Types (g h a b : GMM D) (ci cj : nat).

Lemma gmm_ext g h :
  mat_type (model h) = mat_type (model g) ->
  rows (model h) = rows (model g) -> cols (model h) = cols (model g) ->
  buf h = buf g -> inverseCovs h = inverseCovs g ->
  covDeterms h = covDeterms g -> same_accumulators g h ->
  h = g.
Proof.
  destruct g as [[t r c d] ic cd s p sc tot].
  destruct h as [[t' r' c' d'] ic' cd' s' p' sc' tot'].
  unfold same_accumulators, buf. cbn.
  intros -> -> -> -> -> -> (-> & -> & -> & ->). reflexivity.
Qed.

(** An object is its accumulators, the header of its matrix and what it
    holds about its five components. *)
Lemma state_ext g h :
  wf g -> wf h ->
  mat_type (model h) = mat_type (model g) ->
  rows (model h) = rows (model g) -> cols (model h) = cols (model g) ->
  same_accumulators g h ->
  (forall ci, ci < componentsCount -> component h ci = component g ci) ->
  h = g.
Proof.
  intros (Wm & Wi & Wd & _) (Wm' & Wi' & Wd' & _) Ht Hr Hc Sacc Hcomp.
  unfold wf_model, componentsCount in *.
  destruct (component_fields g h 0 (Hcomp 0 ltac:(lia))) as (w0 & m0 & c0 & d0 & i0).
  destruct (component_fields g h 1 (Hcomp 1 ltac:(lia))) as (w1 & m1 & c1 & d1 & i1).
  destruct (component_fields g h 2 (Hcomp 2 ltac:(lia))) as (w2 & m2 & c2 & d2 & i2).
  destruct (component_fields g h 3 (Hcomp 3 ltac:(lia))) as (w3 & m3 & c3 & d3 & i3).
  destruct (component_fields g h 4 (Hcomp 4 ltac:(lia))) as (w4 & m4 & c4 & d4 & i4).
  apply gmm_ext; try assumption.
  - apply (nth_ext _ _ d_zero d_zero); [congruence|].
    rewrite Wm'. intros n Hn.
    do 5 (destruct n as [|n]; [assumption|]).
    do 3 (destruct n as [|n]; [by3 m0|]).
    do 3 (destruct n as [|n]; [by3 m1|]).
    do 3 (destruct n as [|n]; [by3 m2|]).
    do 3 (destruct n as [|n]; [by3 m3|]).
    do 3 (destruct n as [|n]; [by3 m4|]).
    do 9 (destruct n as [|n]; [by9 c0|]).
    do 9 (destruct n as [|n]; [by9 c1|]).
    do 9 (destruct n as [|n]; [by9 c2|]).
    do 9 (destruct n as [|n]; [by9 c3|]).
    do 9 (destruct n as [|n]; [by9 c4|]).
    lia.
  - apply (nth_ext _ _ d_zero d_zero); [congruence|].
    rewrite Wi'. intros n Hn.
    do 9 (destruct n as [|n]; [by9 i0|]).
    do 9 (destruct n as [|n]; [by9 i1|]).
    do 9 (destruct n as [|n]; [by9 i2|]).
    do 9 (destruct n as [|n]; [by9 i3|]).
    do 9 (destruct n as [|n]; [by9 i4|]).
    lia.
  - apply (nth_ext _ _ d_zero d_zero); [congruence|].
    rewrite Wd'. intros n Hn.
    do 5 (destruct n as [|n]; [assumption|]). lia.
Qed.

End Ext.

Section Header.
Context {D : Type} {A : Arith D}.
Implicit Types (g h a b : GMM D) (ci cj : nat).
Local Open Scope arith_scope.


Lemma same_header_refl g : same_header g g.
Proof. unfold same_header. auto. Qed.

Lemma same_header_trans g h k :
  same_header g h -> same_header h k -> same_header g k.
Proof. unfold same_header. intuition congruence. Qed.

Lemma header_set_buf g i v : same_header g (set_buf g i v).
Proof. unfold same_header. auto. Qed.

Lemma header_fit g ci : same_header g (endLearning_fit g ci).
Proof.
  unfold endLearning_fit, set_cov, set_mean, set_coefs, same_header.
  cbn [model set_buf mat_type rows cols]. auto.
Qed.

Lemma header_calc g ci fx :
  same_header g (result_state (calcInverseCovAndDeterm g ci fx)).
Proof.
  assert (H1 : same_header g (if (dtrm_of g ci <=? d_floor) && (fx >? d_zero)
                              then add_white_noise g ci fx else g)).
  { destruct (_ && _); [|apply same_header_refl].
    unfold add_white_noise, set_cov, same_header.
    cbn [model set_buf mat_type rows cols]. auto. }
  destruct (calc_cases g ci fx) as [(_ & ->)|[(_ & _ & ->)|(_ & _ & ->)]];
    cbn [result_state].
  - apply same_header_refl.
  - exact H1.
  - exact H1.
Qed.

Lemma header_endLearning_body g ci :
  same_header g (result_state (endLearning_body g ci)).
Proof.
  unfold endLearning_body.
  destruct (sampleCount g ci =? 0)%Z; cbn [result_state].
  - apply header_set_buf.
  - destruct (totalSampleCount g >? 0)%Z; cbn [result_state].
    + eapply same_header_trans; [apply header_fit|apply header_calc].
    + apply same_header_refl.
Qed.

Lemma header_endLearning g : same_header g (result_state (endLearning g)).
Proof.
  unfold endLearning. generalize components. intros l. revert g.
  induction l as [|a l IH]; intros g; cbn [for_each].
  - apply same_header_refl.
  - rewrite result_state_and_then.
    pose proof (header_endLearning_body g a) as H1.
    destruct (endLearning_body g a) as [g1|e g1]; cbn [result_state] in *.
    + eapply same_header_trans; [exact H1|apply IH].
    + exact H1.
Qed.

(** X11.  A completed [endLearning] is idempotent: called again with no
    sample added it completes and leaves the object exactly as it is. *)
Theorem endLearning_idempotent (g h : GMM D) :
  wf g -> endLearning g = Done h -> endLearning h = Done h.
Proof.
  intros W Hdone.
  destruct (endLearning_again g h W Hdone) as (h2 & E2 & S2 & C2).
  destruct (endLearning_frame g) as (Wh & _).
  rewrite Hdone in Wh. cbn [result_state] in Wh. specialize (Wh W).
  destruct (endLearning_frame h) as (Wh2 & _).
  pose proof (header_endLearning h) as (Ht & Hr & Hc).
  unfold endLearning in Wh2 at 1. unfold endLearning in Ht, Hr, Hc at 1.
  unfold endLearning in E2. rewrite E2 in Wh2, Ht, Hr, Hc.
  cbn [result_state] in Wh2, Ht, Hr, Hc.
  rewrite <- (state_ext h h2 Wh (Wh2 Wh) Ht Hr Hc S2 C2) at 2.
  exact E2.
Qed.

End Header.


(* ================================================================== *)
(** ** What the cache computation writes *)
(* ================================================================== *)

Section Touch.
Context {D : Type} {A : Arith D} {AL : ArithLaws A}.
Implicit Types (g h a b : GMM D) (ci cj : nat).
Local Open Scope arith_scope.

Lemma calc_cov_offdiag g ci fx r c :
  wf g -> ci < componentsCount -> r < 3 -> c < 3 -> r <> c ->
  cov (result_state (calcInverseCovAndDeterm g ci fx)) (9 * ci + (3 * r + c))
  = cov g (9 * ci + (3 * r + c)).
Proof.
  intros W Hci Hr Hc Hne.
  assert (E1 : cov (if (dtrm_of g ci <=? d_floor) && (fx >? d_zero)
                    then add_white_noise g ci fx else g) (9 * ci + (3 * r + c))
               = cov g (9 * ci + (3 * r + c))).
  { destruct (_ && _); [|reflexivity].
    rewrite cov_add_white_noise by (try apply W; lia).
    unfold regularised.
    replace ((3 * r + c =? 0)%nat || (3 * r + c =? 4)%nat || (3 * r + c =? 8)%nat)
      with false; [reflexivity|].
    symmetry. rewrite !orb_false_iff, !Nat.eqb_neq. lia. }
  destruct (calc_cases g ci fx) as [(_ & ->)|[(_ & _ & ->)|(_ & _ & ->)]];
    cbn [result_state]; rewrite ?cov_store_inverse, ?cov_set_covDeterm;
    auto.
Qed.

Lemma calc_model_no_fix g ci fx :
  (fx >? d_zero) = false ->
  model (result_state (calcInverseCovAndDeterm g ci fx)) = model g.
Proof.
  intros Hfx. pose proof (calc_cases g ci fx) as C. cbv zeta in C.
  rewrite Hfx, andb_false_r in C.
  destruct C as [(_ & ->)|[(_ & _ & ->)|(_ & _ & ->)]]; reflexivity.
Qed.

(** X12.  Whatever its outcome, [calcInverseCovAndDeterm] for component
    [ci] leaves the accumulators, every other component, and the weight, the
    mean and the off-diagonal covariances of [ci] as they were; it leaves the
    whole parameter buffer as it was when [singularFix] is not positive, and
    the whole object when the weight of [ci] is not positive. *)
Theorem calc_touches_only_cache_and_diagonal (g : GMM D) (ci : nat)
    (singularFix : D) :
  wf g -> ci < componentsCount ->
  let h := result_state (calcInverseCovAndDeterm g ci singularFix) in
  same_accumulators g h /\
  (forall cj, cj < componentsCount -> cj <> ci ->
     component h cj = component g cj) /\
  coefs h ci = coefs g ci /\
  (forall k, k < 3 -> mean h (3 * ci + k) = mean g (3 * ci + k)) /\
  (forall r c, r < 3 -> c < 3 -> r <> c ->
     cov h (9 * ci + (3 * r + c)) = cov g (9 * ci + (3 * r + c))) /\
  ((singularFix >? d_zero) = false -> model h = model g) /\
  ((coefs g ci >? d_zero) = false -> h = g).
Proof.
  intros W Hci h.
  destruct (frame_calc ci g singularFix Hci) as (_ & Sacc & Hother).
  split; [exact Sacc|]. split; [exact Hother|].
  split; [apply calc_keeps_weights; exact Hci|].
  split; [intros k Hk; apply calc_keeps_means;
          [exact Hci|unfold componentsCount in *; lia]|].
  split; [intros r c Hr Hc Hne; apply calc_cov_offdiag; assumption|].
  split; [apply calc_model_no_fix|].
  intros Hin. subst h.
  destruct (calc_cases g ci singularFix) as [(_ & ->)|[(E & _)|(E & _)]];
    [reflexivity|congruence..].
Qed.

Context {L : Libm D}.

Lemma whichComponent_loop_zero g color l :
  (forall ci, density g ci color = Ok d_zero) ->
  whichComponent_loop g color l 0 d_zero = Ok 0.
Proof.
  intros Hz. induction l as [|a l IH]; cbn [whichComponent_loop].
  - reflexivity.
  - rewrite (Hz a), zero_not_positive. exact IH.
Qed.

(** X13.  On an empty matrix the constructor completes, and the model it
    makes gives every colour the density 0 at every component and the
    component 0. *)
Theorem untrained_model (self : GMM D) (_model : Mat D) (color : Vec3d D) :
  mat_empty _model = true ->
  exists h, GMM_ctor self _model = Done h /\
    (forall ci, density h ci color = Ok d_zero) /\
    whichComponent h color = Ok 0.
Proof.
  intros He. eexists. split.
  - unfold GMM_ctor. rewrite He. cbv zeta.
    change (mat_create_zero 1 ((3 + 9 + 1) * Z.of_nat componentsCount) CV_64FC1)
      with (mkMat CV_64FC1 1 65 (repeat d_zero (13 * componentsCount))).
    rewrite for_each_ctor_zero; [reflexivity|].
    intros ci. unfold coefs, buf. cbn [set_model model data]. apply nth_repeat.
  - assert (Hz : forall ci,
              density
                (set_totalSampleCount
                   (set_model self
                      (mkMat CV_64FC1 1 65 (repeat d_zero (13 * componentsCount))))
                   0%Z) ci color = Ok d_zero).
    { intros ci. unfold density.
      replace (coefs _ ci) with (d_zero : D).
      - rewrite zero_not_positive. reflexivity.
      - unfold coefs, buf. cbn [set_totalSampleCount set_model model data].
        symmetry. apply nth_repeat. }
    split; [exact Hz|]. apply whichComponent_loop_zero. exact Hz.
Qed.

End Touch.

(* ================================================================== *)
(** ** The order of the samples *)
(* ================================================================== *)

Section Order.
Context {D : Type} {A : Arith D}.

Lemma samples_of_perm (ci : nat) (s s' : list (nat * Vec3d D)) :
  Permutation s s' -> Permutation (samples_of ci s) (samples_of ci s').
Proof.
  intros H. unfold samples_of. apply Permutation_map.
  induction H as [|[c y] l l' _ IH|[c1 y1] [c2 y2] l|l l' l'' _ IH1 _ IH2];
    cbn [filter fst].
  - constructor.
  - destruct (c =? ci)%nat; [constructor|]; exact IH.
  - destruct (c1 =? ci)%nat, (c2 =? ci)%nat;
      first [apply perm_swap | apply Permutation_refl].
  - eapply Permutation_trans; eassumption.
Qed.

Lemma wf_arrays_learning_pass (g : GMM D) samples :
  wf_arrays g -> wf_arrays (learning_pass g samples).
Proof.
  intros W. unfold learning_pass. apply wf_arrays_initLearning in W.
  revert W. generalize (initLearning g). unfold add_samples.
  induction samples as [|[ci color] rest IH]; intros g1 W; cbn; auto.
  apply IH. apply wf_arrays_addSample. exact W.
Qed.

End Order.


(* ================================================================== *)
(** ** What [endLearning] fits *)
(* ================================================================== *)

Section FittedComponent.
Context {D : Type} {A : Arith D} {AL : ArithLaws A}.
Implicit Types (g h : GMM D) (ci : nat).
Local Open Scope arith_scope.

Lemma sum_same_accumulators g gi ci k :
  same_accumulators g gi -> sum gi ci k = sum g ci k.
Proof. intros (Es & _). unfold sum. now rewrite Es. Qed.

Lemma prod_same_accumulators g gi ci r c :
  same_accumulators g gi -> prod gi ci r c = prod g ci r c.
Proof. intros (_ & Ep & _). unfold prod. now rewrite Ep. Qed.

Lemma sampleCount_same_accumulators g gi ci :
  same_accumulators g gi -> sampleCount gi ci = sampleCount g ci.
Proof. intros (_ & _ & Ec & _). unfold sampleCount. now rewrite Ec. Qed.

(** The parameters [endLearning_fit] stores, from the accumulators. *)
Lemma fit_fitted g ci :
  wf_model g -> ci < componentsCount ->
  coefs (endLearning_fit g ci) ci
  = d_of_int (sampleCount g ci) / d_of_int (totalSampleCount g) /\
  (forall k, k < 3 ->
     mean (endLearning_fit g ci) (3 * ci + k) = fitted_mean g ci k) /\
  (forall r c, r < 3 -> c < 3 ->
     cov (endLearning_fit g ci) (9 * ci + (3 * r + c)) = fitted_cov g ci r c).
Proof.
  intros W Hci.
  destruct (fit_values g ci W Hci) as (Fw & Fm & Fc). cbv zeta in Fw, Fm, Fc.
  split; [exact Fw|]. split; [exact Fm|].
  intros r c Hr Hc. rewrite (Fc r c Hr Hc), (Fm r Hr), (Fm c Hc). reflexivity.
Qed.

Lemma dtrm_of_entries g ci (a : nat -> nat -> D) :
  (forall r c, r < 3 -> c < 3 -> cov g (9 * ci + (3 * r + c)) = a r c) ->
  dtrm_of g ci = det3x3 a.
Proof.
  intros H. unfold dtrm_of, det3x3. cbv beta zeta.
  change (9 * ci + 0)%nat with (9 * ci + (3 * 0 + 0))%nat.
  change (9 * ci + 1)%nat with (9 * ci + (3 * 0 + 1))%nat.
  change (9 * ci + 2)%nat with (9 * ci + (3 * 0 + 2))%nat.
  change (9 * ci + 3)%nat with (9 * ci + (3 * 1 + 0))%nat.
  change (9 * ci + 4)%nat with (9 * ci + (3 * 1 + 1))%nat.
  change (9 * ci + 5)%nat with (9 * ci + (3 * 1 + 2))%nat.
  change (9 * ci + 6)%nat with (9 * ci + (3 * 2 + 0))%nat.
  change (9 * ci + 7)%nat with (9 * ci + (3 * 2 + 1))%nat.
  change (9 * ci + 8)%nat with (9 * ci + (3 * 2 + 2))%nat.
  rewrite !H by lia. reflexivity.
Qed.

(** What a completed [calcInverseCovAndDeterm] leaves of the covariance of an
    active component. *)
Lemma calc_done_cov g ci fx h :
  wf g -> ci < componentsCount -> (coefs g ci >? d_zero) = true ->
  calcInverseCovAndDeterm g ci fx = Done h ->
  forall r c, r < 3 -> c < 3 ->
    cov h (9 * ci + (3 * r + c)) =
    if (dtrm_of g ci <=? d_floor) && (fx >? d_zero) && (r =? c)%nat
    then cov g (9 * ci + (3 * r + c)) + fx
    else cov g (9 * ci + (3 * r + c)).
Proof.
  intros W Hci Hact Hdone r c Hr Hc.
  destruct (calc_cases g ci fx) as [(E0 & _)|[(_ & _ & E)|(_ & _ & E)]];
    [congruence|rewrite E in Hdone; discriminate|].
  rewrite E in Hdone. injection Hdone as <-.
  rewrite cov_store_inverse, cov_set_covDeterm.
  destruct ((dtrm_of g ci <=? d_floor) && (fx >? d_zero)); cbn [andb]; [|reflexivity].
  rewrite (cov_add_white_noise g ci fx (3 * r + c)%nat (proj1 W) Hci) by lia.
  unfold regularised.
  destruct r as [|[|[|r]]]; [| | |lia];
    (destruct c as [|[|[|c]]]; [| | |lia]); reflexivity.
Qed.

(** What a completed [endLearning] leaves about a component, in any
    arithmetic. *)
Lemma endLearning_component g h ci :
  wf g -> endLearning g = Done h -> ci < componentsCount ->
  let n := sampleCount g ci in
  (n = 0%Z ->
     coefs h ci = d_zero /\
     mu (component h ci) = mu (component g ci) /\
     sigma (component h ci) = sigma (component g ci) /\
     sigma_det (component h ci) = sigma_det (component g ci) /\
     sigma_inv (component h ci) = sigma_inv (component g ci)) /\
  (n <> 0%Z ->
     (totalSampleCount g > 0)%Z /\
     coefs h ci = d_of_int n / d_of_int (totalSampleCount g) /\
     (forall k, k < 3 -> mean h (3 * ci + k) = fitted_mean g ci k) /\
     ((coefs h ci >? d_zero) = true ->
        (forall r c, r < 3 -> c < 3 ->
           cov h (9 * ci + (3 * r + c)) =
           if (det3x3 (fitted_cov g ci) <=? d_floor) && (r =? c)%nat
           then fitted_cov g ci r c + d_fix
           else fitted_cov g ci r c) /\
        cache_coherent h ci) /\
     ((coefs h ci >? d_zero) = false ->
        (forall r c, r < 3 -> c < 3 ->
           cov h (9 * ci + (3 * r + c)) = fitted_cov g ci r c) /\
        sigma_det (component h ci) = sigma_det (component g ci) /\
        sigma_inv (component h ci) = sigma_inv (component g ci))).
Proof.
  intros W Hdone Hci n.
  destruct (for_each_done endLearning_body frame_endLearning_body
              components g h components_nodup components_below Hdone ci
              (components_in ci Hci))
    as (gi & gc & Wi & Sacc & Hgi & Hbody & Hcomp).
  specialize (Wi W).
  assert (En : sampleCount gi ci = n) by (apply sampleCount_same_accumulators; exact Sacc).
  assert (Et : totalSampleCount gi = totalSampleCount g) by apply Sacc.
  unfold endLearning_body in Hbody. rewrite En, Et in Hbody.
  split.
  - intros Hn. rewrite Hn in Hbody. cbn [Z.eqb] in Hbody. injection Hbody as <-.
    rewrite Hcomp.
    split.
    { change (coefs h ci) with (weight (component h ci)). rewrite Hcomp.
      cbn [weight component]. destruct Wi as (Wm & _). views. arrays. reflexivity. }
    rewrite <- Hgi.
    destruct (set_coefs_fields gi ci d_zero Wi Hci) as (_ & Fm & Fc).
    unfold component; cbn [mu sigma sigma_det sigma_inv].
    repeat split.
    + apply map_ext_in. intros k Hk. apply in_seq in Hk. apply Fm. lia.
    + apply map_ext_in. intros k Hk. apply in_seq in Hk. apply Fc. lia.
  - intros Hn. destruct (n =? 0)%Z eqn:E0; [apply Z.eqb_eq in E0; lia|].
    destruct (totalSampleCount g >? 0)%Z eqn:Et0; [|discriminate].
    split; [apply Z.gtb_lt in Et0; lia|].
    set (f := endLearning_fit gi ci) in *.
    assert (Wf : wf f) by (apply (proj1 (frame_fit ci gi Hci)); exact Wi).
    destruct (fit_fitted gi ci (proj1 Wi) Hci) as (Fw & Fm & Fc). fold f in Fw, Fm, Fc.
    rewrite En, Et in Fw.
    assert (Fm' : forall k, k < 3 -> mean f (3 * ci + k) = fitted_mean g ci k).
    { intros k Hk. rewrite (Fm k Hk). unfold fitted_mean.
      now rewrite (sum_same_accumulators g gi), En. }
    assert (Fc' : forall r c, r < 3 -> c < 3 ->
              cov f (9 * ci + (3 * r + c)) = fitted_cov g ci r c).
    { intros r c Hr Hc. rewrite (Fc r c Hr Hc). unfold fitted_cov, fitted_mean.
      now rewrite (prod_same_accumulators g gi), !(sum_same_accumulators g gi), En. }
    clear Fm Fc.
    destruct (component_fields gc h ci Hcomp) as (Hw & Hm & Hc & Hd & Hi).
    assert (Kw := calc_keeps_weights f ci d_fix ci Hci Hci).
    rewrite Hbody in Kw. cbn [result_state] in Kw.
    assert (Ew : coefs h ci = d_of_int n / d_of_int (totalSampleCount g))
      by (rewrite Hw, Kw; exact Fw).
    split; [exact Ew|]. split.
    { intros k Hk. rewrite (Hm k Hk).
      assert (Km := calc_keeps_means f ci d_fix (3 * ci + k)%nat Hci).
      rewrite Hbody in Km. cbn [result_state] in Km.
      rewrite Km by (unfold componentsCount in *; lia). apply Fm'. exact Hk. }
    assert (Edet : dtrm_of f ci = det3x3 (fitted_cov g ci))
      by (apply dtrm_of_entries; exact Fc').
    split.
    + intros Hact. rewrite Hw, Kw in Hact.
      split.
      * intros r c Hr Hc'. rewrite (Hc (3 * r + c)%nat) by lia.
        rewrite (calc_done_cov f ci d_fix gc Wf Hci Hact Hbody r c Hr Hc').
        rewrite Edet, fix_positive, andb_true_r, (Fc' r c Hr Hc'). reflexivity.
      * apply (cache_coherent_component gc h ci Hcomp).
        apply (calc_done_coherent f ci d_fix gc Wf Hci Hact Hbody).
    + intros Hact. rewrite Hw, Kw in Hact.
      destruct (calc_cases f ci d_fix) as [(_ & E)|[(E1 & _)|(E1 & _)]];
        [|congruence|congruence].
      rewrite E in Hbody. injection Hbody as <-.
      split.
      * intros r c Hr Hc'. rewrite (Hc (3 * r + c)%nat) by lia. apply Fc'; assumption.
      * rewrite Hcomp, <- Hgi.
        destruct (cache_endLearning_fit gi ci) as (Ei & Ed).
        unfold component; cbn [sigma_det sigma_inv]. unfold covDeterm.
        fold f in Ei, Ed. rewrite Ei, Ed. split; reflexivity.
Qed.

End FittedComponent.

Section FitAndRecompute.
Context {D : Type} {A : Arith D} {AL : ArithLaws A}.
Implicit Types (g h : GMM D) (ci : nat).
Local Open Scope arith_scope.

(** C1, as amended.  In any arithmetic, on an object whose buffer and arrays
    have their declared sizes, for a pass that [endLearning] completes.  A
    component whose sample count is 0 gets the weight 0, and its mean, its
    covariance and its cache stay as they were.  For a component whose sample
    count n is not 0 the total count is positive; the weight stored is
    [(double)n / totalSampleCount]; the mean stored is
    [sums[k] * (1.0 / n)], the product by the reciprocal and not the
    quotient.  When that weight compares greater than 0, the covariance
    stored is [prods[r][c] * (1.0 / n) - mean[r] * mean[c]], with 0.01 added
    to each diagonal entry when the cofactor determinant of these nine
    entries is at most 1e-6; the cached determinant is the determinant of
    the covariance stored and exceeds machine epsilon; the cached inverse
    holds its cofactors times the reciprocal of that determinant.  When the
    weight does not compare greater than 0 the covariance is stored without
    correction and the cache stays as it was.  When the total count is not
    positive and some component has samples, the assertion fails. *)
Theorem endLearning_fits (g : GMM D) :
  wf g ->
  (forall h, endLearning g = Done h ->
   forall ci, ci < componentsCount ->
     let n := sampleCount g ci in
     (n = 0%Z ->
        coefs h ci = d_zero /\
        mu (component h ci) = mu (component g ci) /\
        sigma (component h ci) = sigma (component g ci) /\
        sigma_det (component h ci) = sigma_det (component g ci) /\
        sigma_inv (component h ci) = sigma_inv (component g ci)) /\
     (n <> 0%Z ->
        (totalSampleCount g > 0)%Z /\
        coefs h ci = d_of_int n / d_of_int (totalSampleCount g) /\
        (forall k, k < 3 -> mean h (3 * ci + k) = fitted_mean g ci k) /\
        ((coefs h ci >? d_zero) = true ->
           (forall r c, r < 3 -> c < 3 ->
              cov h (9 * ci + (3 * r + c)) =
              if (det3x3 (fitted_cov g ci) <=? d_floor) && (r =? c)%nat
              then fitted_cov g ci r c + d_fix
              else fitted_cov g ci r c) /\
           cache_coherent h ci) /\
        ((coefs h ci >? d_zero) = false ->
           (forall r c, r < 3 -> c < 3 ->
              cov h (9 * ci + (3 * r + c)) = fitted_cov g ci r c) /\
           sigma_det (component h ci) = sigma_det (component g ci) /\
           sigma_inv (component h ci) = sigma_inv (component g ci)))) /\
  ((totalSampleCount g <= 0)%Z ->
   (exists ci, ci < componentsCount /\ sampleCount g ci <> 0%Z) ->
   exists h, endLearning g = Thrown StsAssert h).
Proof.
  intros W. split.
  - intros h Hdone ci Hci. exact (endLearning_component g h ci W Hdone Hci).
  - intros Htot (ci & Hci & Hn). apply endLearning_asserts; auto.
    exists ci. split; [apply components_in; auto|auto].
Qed.

(** The second call on an active component whose determinant the first call
    left at or below the floor. *)
Lemma calc_again_regularises g h ci fx :
  wf g -> ci < componentsCount ->
  calcInverseCovAndDeterm g ci fx = Done h ->
  (coefs g ci >? d_zero) = true ->
  ((covDeterm h ci <=? d_floor) && (fx >? d_zero)) = true ->
  let h2 := result_state (calcInverseCovAndDeterm h ci fx) in
  (forall r c, r < 3 -> c < 3 ->
     cov h2 (9 * ci + (3 * r + c)) =
     if (r =? c)%nat then cov h (9 * ci + (3 * r + c)) + fx
     else cov h (9 * ci + (3 * r + c))) /\
  covDeterm h2 ci = dtrm_of h2 ci.
Proof.
  intros W Hci Hdone Hact Hcond h2.
  assert (Wh : wf h).
  { pose proof (frame_calc ci g fx Hci) as (Wf & _). rewrite Hdone in Wf. auto. }
  assert (Hw : coefs h ci = coefs g ci).
  { pose proof (calc_keeps_weights g ci fx ci Hci Hci) as K.
    rewrite Hdone in K. exact K. }
  destruct (calc_done_cache g ci fx h W Hci Hact Hdone) as (Hd & _).
  rewrite Hd in Hcond.
  pose proof (calc_cases h ci fx) as C. cbv zeta in C.
  rewrite Hcond, Hw, Hact in C.
  set (g1 := add_white_noise h ci fx) in *.
  assert (W1 : wf g1) by (apply (frame_add_white_noise ci h fx Hci); exact Wh).
  assert (Hcov : forall r c, r < 3 -> c < 3 ->
            cov g1 (9 * ci + (3 * r + c)) =
            if (r =? c)%nat then cov h (9 * ci + (3 * r + c)) + fx
            else cov h (9 * ci + (3 * r + c))).
  { intros r c Hr Hc. unfold g1.
    rewrite (cov_add_white_noise h ci fx (3 * r + c)%nat (proj1 Wh) Hci) by lia.
    unfold regularised.
    destruct r as [|[|[|r]]]; [| | |lia];
      (destruct c as [|[|[|c]]]; [| | |lia]); reflexivity. }
  assert (Hdet : covDeterm (set_covDeterm g1 ci (dtrm_of g1 ci)) ci = dtrm_of g1 ci).
  { change (nth ci (upd (covDeterms g1) ci (dtrm_of g1 ci)) d_zero = dtrm_of g1 ci).
    apply nth_upd_same. destruct W1 as (_ & _ & -> & _); auto. }
  subst h2.
  destruct C as [(E0 & _)|[(_ & _ & ->)|(_ & _ & ->)]]; [discriminate| |];
    cbn [result_state].
  - split; [intros r c Hr Hc; rewrite cov_set_covDeterm; auto|].
    rewrite Hdet. symmetry. apply dtrm_of_buf. reflexivity.
  - split; [intros r c Hr Hc; rewrite cov_store_inverse, cov_set_covDeterm; auto|].
    change (covDeterm (store_inverse ?x ci ?v) ci) with (covDeterm x ci).
    rewrite Hdet. symmetry. apply dtrm_of_buf. reflexivity.
Qed.

End FitAndRecompute.

(* ================================================================== *)
(** ** The outcomes of the constructor and of a second recomputation *)
(* ================================================================== *)

Section ThrowsAt.
Context {D : Type} {A : Arith D}.
Implicit Types (g h : GMM D) (ci : nat).
Variable body : GMM D -> nat -> outcome D.
Hypothesis body_frame :
  forall g ci, ci < componentsCount -> frame ci g (result_state (body g ci)).

(** A loop throws when its body throws for one of its components on every
    state that holds, about that component, what the state at entry held. *)
Lemma for_each_throws_at l : forall g ci,
  NoDup l -> Forall (fun ci => ci < componentsCount) l -> wf g ->
  In ci l ->
  (forall gi, wf gi -> same_accumulators g gi ->
     component gi ci = component g ci ->
     exists e gt, body gi ci = Thrown e gt) ->
  exists e h, for_each l body g = Thrown e h.
Proof.
  induction l as [|a l IH]; intros g ci Hnd Hl W Hin Hbody; [destruct Hin|].
  inversion Hl as [|? ? Ha Hl']; subst.
  inversion Hnd as [|? ? Hnotin Hnd']; subst.
  cbn [for_each].
  destruct (body g a) as [g1|e g1] eqn:E1; cbn [and_then]; [|eauto].
  destruct Hin as [->|Hin].
  - destruct (Hbody g W) as (e & gt & E);
      [unfold same_accumulators; auto|reflexivity|congruence].
  - pose proof (body_frame g a Ha) as (W1 & S1 & F1).
    rewrite E1 in W1, S1, F1. cbn [result_state] in W1, S1, F1.
    assert (Hne : ci <> a) by (intros ->; contradiction).
    assert (Hci : ci < componentsCount) by (rewrite Forall_forall in Hl'; auto).
    apply (IH g1 ci Hnd' Hl' (W1 W) Hin).
    intros gi Wi Si Ci. apply Hbody; [exact Wi| |rewrite Ci; apply F1; auto].
    unfold same_accumulators in *. intuition congruence.
Qed.

End ThrowsAt.

Section ConstructorOutcomes.
Context {D : Type} {A : Arith D} {AL : ArithLaws A}.
Implicit Types (g h : GMM D) (ci : nat).
Local Open Scope arith_scope.

(** What the loop of the constructor does for one component on a state that
    holds, about it, what the loaded object holds. *)
Lemma ctor_body_cases g gi ci :
  wf gi -> ci < componentsCount -> component gi ci = component g ci ->
  ((coefs g ci >? d_zero) = false /\ GMM_ctor_body gi ci = Done gi) \/
  ((coefs g ci >? d_zero) = true /\ (dtrm_of g ci >? d_eps) = false /\
   exists gt, GMM_ctor_body gi ci = Thrown StsAssert gt) \/
  ((coefs g ci >? d_zero) = true /\ (dtrm_of g ci >? d_eps) = true /\
   exists gc, GMM_ctor_body gi ci = Done gc /\ cache_coherent gc ci).
Proof.
  intros Wi Hci Hcomp.
  destruct (component_fields g gi ci Hcomp) as (Hw & _ & Hc & _).
  assert (Hd : dtrm_of gi ci = dtrm_of g ci)
    by (apply dtrm_of_sigma; now rewrite Hcomp).
  unfold GMM_ctor_body. rewrite Hw.
  destruct (coefs g ci >? d_zero) eqn:Hact; [|left; auto].
  right.
  pose proof (calc_cases gi ci d_zero) as C. cbv zeta in C.
  rewrite zero_not_positive, andb_false_r, Hw, Hact, Hd in C.
  destruct C as [(E0 & _)|[(_ & E1 & E)|(_ & E1 & E)]]; [discriminate| |].
  - left. split; [reflexivity|]. split; [exact E1|]. eauto.
  - right. split; [reflexivity|]. split; [exact E1|].
    eexists. split; [exact E|].
    apply (calc_done_coherent gi ci d_zero _ Wi Hci); [rewrite Hw; exact Hact|exact E].
Qed.

(** C8.  The constructor, in any arithmetic.  On an empty matrix it makes
    the model a 1 x 65 matrix of doubles, all 0, and completes with the total
    sample count 0.  On a matrix that is not empty and whose type is not
    [CV_64FC1], or whose rows are not 1, or whose columns are not 65, it
    throws [StsBadArg] and leaves the object as it was.  On a 1 x 65 matrix
    of doubles: when the covariance of every component of positive weight
    has a determinant above machine epsilon it completes, the buffer is the
    caller's, the total sample count is 0, the accumulators are untouched,
    the cache of a component whose weight is not positive is untouched, and
    the cache of a component of positive weight holds the determinant of its
    covariance and the cofactors times the reciprocal of that determinant;
    when some component of positive weight has a determinant that does not
    exceed machine epsilon, it throws the assertion of the cache. *)
Theorem constructor_outcomes (self : GMM D) (_model : Mat D) :
  (mat_empty _model = true ->
     GMM_ctor self _model =
       Done (set_totalSampleCount
               (set_model self
                  (mkMat CV_64FC1 1 65 (repeat d_zero (13 * componentsCount)%nat)))
               0%Z)) /\
  (mat_empty _model = false ->
     mat_type _model <> CV_64FC1 \/ rows _model <> 1%Z \/ cols _model <> 65%Z ->
     GMM_ctor self _model = Thrown StsBadArg self) /\
  (mat_empty _model = false ->
     mat_type _model = CV_64FC1 -> rows _model = 1%Z -> cols _model = 65%Z ->
     length (data _model) = (13 * componentsCount)%nat ->
     wf_arrays self ->
     let loaded := set_model self _model in
     ((forall ci, ci < componentsCount -> (coefs loaded ci >? d_zero) = true ->
         (dtrm_of loaded ci >? d_eps) = true) ->
      exists h, GMM_ctor self _model = Done h /\
        model h = _model /\
        totalSampleCount h = 0%Z /\
        sums h = sums self /\ prods h = prods self /\
        sampleCounts h = sampleCounts self /\
        forall ci, ci < componentsCount ->
          ((coefs loaded ci >? d_zero) = false ->
             covDeterm h ci = covDeterm self ci /\
             sigma_inv (component h ci) = sigma_inv (component self ci)) /\
          ((coefs loaded ci >? d_zero) = true -> cache_coherent h ci)) /\
     ((exists ci, ci < componentsCount /\ (coefs loaded ci >? d_zero) = true /\
                  (dtrm_of loaded ci >? d_eps) = false) ->
      exists h, GMM_ctor self _model = Thrown StsAssert h)).
Proof.
  split; [|split].
  - intros He. unfold GMM_ctor. rewrite He. cbv zeta.
    change (mat_create_zero 1 ((3 + 9 + 1) * Z.of_nat componentsCount) CV_64FC1)
      with (mkMat CV_64FC1 1 65 (repeat d_zero (13 * componentsCount)%nat)).
    rewrite for_each_ctor_zero; [reflexivity|].
    intros ci. unfold coefs, buf. cbn [set_model model data]. apply nth_repeat.
  - intros He Hbad. unfold GMM_ctor. rewrite He.
    replace (negb (mat_type _model =? CV_64FC1)%Z
             || negb (rows _model =? 1)%Z
             || negb (cols _model =? (3 + 9 + 1) * Z.of_nat componentsCount)%Z)
      with true; [reflexivity|].
    symmetry. change ((3 + 9 + 1) * Z.of_nat componentsCount)%Z with 65%Z.
    destruct Hbad as [H|[H|H]]; apply Z.eqb_neq in H; rewrite H;
      cbn; rewrite ?orb_true_r; reflexivity.
  - intros He Ht Hr Hc Hlen Wself loaded.
    assert (Ector : GMM_ctor self _model =
              and_then (for_each components GMM_ctor_body loaded)
                       (fun g => Done (set_totalSampleCount g 0%Z))).
    { unfold GMM_ctor. rewrite He, Ht, Hr, Hc. reflexivity. }
    rewrite Ector. clear Ector.
    assert (Wl : wf loaded) by (split; [exact Hlen|exact Wself]).
    split.
    + intros Hall.
      destruct (for_each_completes_at GMM_ctor_body frame_ctor_body components
                  loaded components_nodup components_below Wl) as (g1 & Eloop).
      { intros gi ci Hin Wi _ Ci.
        assert (Hci : ci < componentsCount).
        { pose proof components_below as Hb. rewrite Forall_forall in Hb. auto. }
        destruct (ctor_body_cases loaded gi ci Wi Hci Ci)
          as [(_ & E)|[(Hact & Hd & _)|(_ & _ & gc & E & _)]]; eauto.
        rewrite (Hall ci Hci Hact) in Hd. discriminate. }
      rewrite Eloop. cbn [and_then]. eexists. split; [reflexivity|].
      pose proof (for_each_ctor_model components loaded) as M.
      rewrite Eloop in M. cbn [result_state] in M.
      pose proof (for_each_frame GMM_ctor_body frame_ctor_body components loaded
                    components_below) as (_ & (Es & Ep & Ec & _) & _).
      rewrite Eloop in Es, Ep, Ec. cbn [result_state] in Es, Ep, Ec.
      split; [exact M|]. split; [reflexivity|].
      split; [exact Es|]. split; [exact Ep|]. split; [exact Ec|].
      intros ci Hci.
      destruct (for_each_done GMM_ctor_body frame_ctor_body components loaded g1
                  components_nodup components_below Eloop ci
                  (components_in ci Hci))
        as (gi & gc & Wi & _ & Hsame & Hbody & Hcomp).
      change (covDeterm (set_totalSampleCount g1 0%Z) ci) with (covDeterm g1 ci).
      change (component (set_totalSampleCount g1 0%Z) ci) with (component g1 ci).
      destruct (ctor_body_cases loaded gi ci (Wi Wl) Hci Hsame)
        as [(H0 & E)|[(_ & _ & gt & E)|(H1 & _ & gc' & E & Hco)]];
        [|congruence|].
      * rewrite E in Hbody. injection Hbody as <-.
        split; [|congruence]. intros _.
        change (covDeterm g1 ci) with (sigma_det (component g1 ci)).
        rewrite Hcomp, Hsame. split; reflexivity.
      * rewrite E in Hbody. injection Hbody as <-.
        split; [congruence|]. intros _.
        change (cache_coherent g1 ci).
        apply (cache_coherent_component gc' g1 ci Hcomp Hco).
    + intros (ci & Hci & Hact & Hd).
      destruct (for_each_throws_at GMM_ctor_body frame_ctor_body components
                  loaded ci components_nodup components_below Wl
                  (components_in ci Hci)) as (e & h & Eloop).
      { intros gi Wi _ Ci.
        destruct (ctor_body_cases loaded gi ci Wi Hci Ci)
          as [(H0 & _)|[(_ & _ & gt & E)|(_ & H1 & _)]]; [congruence|eauto|congruence]. }
      rewrite Eloop. cbn [and_then].
      rewrite (for_each_ctor_throws components loaded e h Eloop). eauto.
Qed.

(** C7, as amended.  In any arithmetic, after a call of
    [calcInverseCovAndDeterm] that completed, a second call on the same
    component with the same [singularFix].  When the component is inactive,
    or the first call did not leave a determinant at or below 1e-6 together
    with a positive [singularFix] (in particular whenever [singularFix] is
    0), the second call completes and leaves the object as the first call
    left it.  Otherwise the second call, whatever its outcome, adds
    [singularFix] to each diagonal entry of the covariance the first call
    left, leaves the other entries, and stores the determinant of the
    result. *)
Theorem recompute_idempotent (g h : GMM D) (ci : nat) (singularFix : D) :
  wf g -> ci < componentsCount ->
  calcInverseCovAndDeterm g ci singularFix = Done h ->
  ((coefs g ci >? d_zero) = false \/
   ((covDeterm h ci <=? d_floor) && (singularFix >? d_zero)) = false ->
   calcInverseCovAndDeterm h ci singularFix = Done h) /\
  ((coefs g ci >? d_zero) = true ->
   ((covDeterm h ci <=? d_floor) && (singularFix >? d_zero)) = true ->
   let h2 := result_state (calcInverseCovAndDeterm h ci singularFix) in
   (forall r c, r < 3 -> c < 3 ->
      cov h2 (9 * ci + (3 * r + c)) =
      if (r =? c)%nat then cov h (9 * ci + (3 * r + c)) + singularFix
      else cov h (9 * ci + (3 * r + c))) /\
   covDeterm h2 ci = dtrm_of h2 ci).
Proof.
  intros W Hci Hdone. split.
  - intros Hcond. exact (calc_again_same g h ci singularFix W Hci Hdone Hcond).
  - intros Hact Hcond. exact (calc_again_regularises g h ci singularFix W Hci Hdone Hact Hcond).
Qed.

End ConstructorOutcomes.

(* ================================================================== *)
(** ** The density as the code computes it *)
(* ================================================================== *)

Section DensityCases.
Context {D : Type} {A : Arith D} {L : Libm D}.
Local Open Scope arith_scope.

(** C3, as amended.  In any arithmetic.  The density of a component whose
    weight does not compare greater than 0 (a weight that is 0, negative or
    not a number) is 0.  For a weight greater than 0, when the cached
    determinant exceeds machine epsilon the density is
    [1 / sqrt(determinant) * exp(-0.5 * Q)], each operation rounded, with
    [Q] the quadratic form of [color - mean] under the cached inverse
    covariance, summed column by column, and no factor of 2 pi; when the
    cached determinant does not exceed machine epsilon the assertion
    fails. *)
Theorem density_formula (g : GMM D) (ci : nat) (color : Vec3d D) :
  let Q := quadratic_form (centred g ci color) (inverseCov g ci) in
  ((coefs g ci >? d_zero) = false -> density g ci color = Ok d_zero) /\
  ((coefs g ci >? d_zero) = true -> (covDeterm g ci >? d_eps) = true ->
     density g ci color =
       Ok (d_one / d_sqrt (covDeterm g ci) * d_exp (- d_half * Q))) /\
  ((coefs g ci >? d_zero) = true -> (covDeterm g ci >? d_eps) = false ->
     density g ci color = Err StsAssert).
Proof.
  cbv zeta. unfold density, quadratic_form, centred, channel.
  repeat split; intros H; rewrite H; try reflexivity; intros H'; rewrite H'; reflexivity.
Qed.

End DensityCases.

(** A binary64 number that does not compare less than 0 compares at least
    0, or it is not a number. *)
Lemma not_negative_cases (p : float) :
  PrimFloat.ltb p 0 = false ->
  PrimFloat.leb 0 p = true \/ Prim2SF p = S754_nan.
Proof.
  rewrite ltb_spec, leb_spec.
  change (Prim2SF 0%float) with (S754_zero false).
  destruct (Prim2SF p) as [[|]|[|]| |[|] m e]; cbn; intros H;
    try discriminate; auto.
Qed.

Lemma exp_fixed_not_negative (x : float) : PrimFloat.ltb (exp_fixed x) 0 = false.
Proof.
  unfold exp_fixed.
  destruct (PrimFloat.eqb x 0); [reflexivity|].
  destruct (PrimFloat.eqb x neg_infinity); [reflexivity|].
  destruct (PrimFloat.eqb x infinity); reflexivity.
Qed.

(** C9, as amended.  In binary64, with an [exp] that never returns a
    number below 0: when the cached determinant of the component exceeds
    machine epsilon if its weight is positive, the density at any colour is
    a value, and that value does not compare less than 0: it is at least 0
    or it is not a number. *)
Theorem density_nonnegative (exp : float -> float) :
  (forall x, PrimFloat.ltb (exp x) 0 = false) ->
  forall (g : GMM float) (ci : nat) (color : Vec3d float),
    ((coefs g ci >? d_zero)%D = true -> (covDeterm g ci >? d_eps)%D = true) ->
    exists p, @density float b64 (b64_libm exp) g ci color = Ok p /\
      PrimFloat.ltb p 0 = false /\
      (PrimFloat.leb 0 p = true \/ Prim2SF p = S754_nan).
Proof.
  intros Hexp g ci color Hpre.
  assert (E : exists p, @density float b64 (b64_libm exp) g ci color = Ok p).
  { unfold density. destruct (coefs g ci >? d_zero)%D; [|eauto].
    rewrite (Hpre eq_refl). eauto. }
  destruct E as (p & E). exists p. split; [exact E|].
  pose proof (density_b64_not_negative exp Hexp g ci color p E) as Hp.
  split; [exact Hp|]. apply not_negative_cases. exact Hp.
Qed.

(* ================================================================== *)
(** ** The outcome of [endLearning] and the trained components *)
(* ================================================================== *)

Section Outcome.
Context {D : Type} {A : Arith D} {AL : ArithLaws A}.
Implicit Types (g h a b : GMM D) (ci : nat).
Local Open Scope arith_scope.

Lemma calc_outcome_cases g ci fx :
  (exists h, calcInverseCovAndDeterm g ci fx = Done h) \/
  (exists h, calcInverseCovAndDeterm g ci fx = Thrown StsAssert h).
Proof.
  destruct (calc_cases g ci fx) as [(_ & ->)|[(_ & _ & ->)|(_ & _ & ->)]]; eauto.
Qed.

(** Whether a call completes follows from the weight and the covariance it
    finds. *)
Lemma calc_done_transfer a b ci fx :
  wf a -> wf b -> ci < componentsCount ->
  coefs b ci = coefs a ci ->
  (forall k, k < 3 -> mean b (3 * ci + k) = mean a (3 * ci + k)) ->
  (forall k, k < 9 -> cov b (9 * ci + k) = cov a (9 * ci + k)) ->
  (exists a', calcInverseCovAndDeterm a ci fx = Done a') ->
  exists b', calcInverseCovAndDeterm b ci fx = Done b'.
Proof.
  intros Wa Wb Hci Ew Em Ec (a' & Ea).
  destruct (coefs a ci >? d_zero) eqn:Hact.
  - destruct (calc_component a b ci fx a' Wa Wb Hci Ew Em Ec Hact Ea) as (b' & E & _).
    eauto.
  - unfold calcInverseCovAndDeterm. rewrite Ew, Hact. eauto.
Qed.

Lemma for_each_endLearning_throws l : forall g e h,
  for_each l endLearning_body g = Thrown e h -> e = StsAssert.
Proof.
  induction l as [|a l IH]; intros g e h; [discriminate|].
  cbn [for_each]. unfold endLearning_body at 1.
  destruct (sampleCount g a =? 0)%Z; [cbn [and_then]; apply IH|].
  destruct (totalSampleCount g >? 0)%Z; [|cbn [and_then]; congruence].
  destruct (calc_outcome_cases (endLearning_fit g a) a d_fix) as [(c & ->)|(c & ->)];
    cbn [and_then]; [apply IH|congruence].
Qed.

(** The body of the loop of [endLearning] on a state that holds the
    accumulators of [g]. *)
Lemma body_transfer g gi ci :
  wf g -> wf gi -> ci < componentsCount -> same_accumulators g gi ->
  (exists c, endLearning_body g ci = Done c) ->
  exists c, endLearning_body gi ci = Done c.
Proof.
  intros W Wi Hci Si. unfold endLearning_body.
  rewrite (sampleCount_same_accumulators g gi ci Si).
  replace (totalSampleCount gi) with (totalSampleCount g) by (symmetry; apply Si).
  destruct (sampleCount g ci =? 0)%Z; [eauto|].
  destruct (totalSampleCount g >? 0)%Z; [|intros (c & E); discriminate].
  destruct (fit_local g gi ci W Wi Hci Si) as (Fw & Fm & Fc).
  apply calc_done_transfer; auto.
  - apply (proj1 (frame_fit ci g Hci)); exact W.
  - apply (proj1 (frame_fit ci gi Hci)); exact Wi.
Qed.

Lemma same_accumulators_sym g h : same_accumulators g h -> same_accumulators h g.
Proof. unfold same_accumulators. intuition congruence. Qed.

Lemma body_outcome_cases g ci :
  (exists c, endLearning_body g ci = Done c) \/
  (exists c, endLearning_body g ci = Thrown StsAssert c).
Proof.
  unfold endLearning_body.
  destruct (sampleCount g ci =? 0)%Z; [eauto|].
  destruct (totalSampleCount g >? 0)%Z; [|eauto].
  apply calc_outcome_cases.
Qed.

Lemma endLearning_body_spelled g ci :
  endLearning_body g ci =
  if (sampleCount g ci =? 0)%Z then Done (set_coefs g ci d_zero)
  else if (totalSampleCount g >? 0)%Z
       then calcInverseCovAndDeterm (endLearning_fit g ci) ci d_fix
       else Thrown StsAssert g.
Proof. reflexivity. Qed.

(** X5.  [endLearning] fits the components independently of one another,
    in any arithmetic.  It completes when, for every component whose sample
    count is not 0, the total count is positive and
    [calcInverseCovAndDeterm] completes on the parameters fitted from the
    accumulators the object holds at entry; it throws the assertion error
    when, for some such component, the total count is not positive or that
    call throws. *)
Theorem endLearning_outcome (g : GMM D) :
  wf g ->
  ((forall ci, ci < componentsCount -> sampleCount g ci <> 0%Z ->
      (totalSampleCount g > 0)%Z /\
      exists c, calcInverseCovAndDeterm (endLearning_fit g ci) ci d_fix = Done c) ->
   exists h, endLearning g = Done h) /\
  ((exists ci, ci < componentsCount /\ sampleCount g ci <> 0%Z /\
      ((totalSampleCount g <= 0)%Z \/
       exists e c, calcInverseCovAndDeterm (endLearning_fit g ci) ci d_fix
                   = Thrown e c)) ->
   exists h, endLearning g = Thrown StsAssert h).
Proof.
  intros W. split.
  - intros Hall.
    apply (for_each_completes_at endLearning_body frame_endLearning_body
             components g components_nodup components_below W).
    intros gi ci Hin Wi Si _.
    assert (Hci : ci < componentsCount).
    { pose proof components_below as Hb. rewrite Forall_forall in Hb. auto. }
    apply (body_transfer g gi ci W Wi Hci Si).
    rewrite endLearning_body_spelled.
    destruct (sampleCount g ci =? 0)%Z eqn:En; [eauto|].
    apply Z.eqb_neq in En. destruct (Hall ci Hci En) as (Ht & c & E).
    replace (totalSampleCount g >? 0)%Z with true
      by (symmetry; apply Z.gtb_lt; lia).
    eauto.
  - intros (ci & Hci & Hn & Hbad).
    destruct (for_each_throws_at endLearning_body frame_endLearning_body
                components g ci components_nodup components_below W
                (components_in ci Hci)) as (e & h & E).
    + intros gi Wi Si _.
      destruct (body_outcome_cases gi ci) as [Hd|(c & E)]; [|eauto].
      exfalso.
      destruct (body_transfer gi g ci Wi W Hci (same_accumulators_sym g gi Si) Hd)
        as (c & E).
      rewrite endLearning_body_spelled in E.
      apply Z.eqb_neq in Hn. rewrite Hn in E.
      destruct Hbad as [Ht|(e & c' & E')].
      * destruct (totalSampleCount g >? 0)%Z eqn:Et; [|discriminate].
        apply Z.gtb_lt in Et. lia.
      * destruct (totalSampleCount g >? 0)%Z; congruence.
    + unfold endLearning. rewrite E.
      rewrite (for_each_endLearning_throws components g e h E). eauto.
Qed.

End Outcome.

Section Trained.
Context {D : Type} {A : Arith D} {L : Libm D}.
Context {AL : ArithLaws A} {OL : OrderLaws A}.
Implicit Types (g h : GMM D) (ci : nat).
Local Open Scope arith_scope.

Lemma density_zero_weight h ci color :
  (coefs h ci >? d_zero) = false -> density_value h color ci = d_zero.
Proof. intros H. unfold density_value, density. now rewrite H. Qed.

(** X7.  After a completed [endLearning], in any arithmetic whose
    comparison is a strict order: [whichComponent] returns for every colour
    the component 0, or a component that received samples in the pass and
    whose weight and density at the colour compare greater than 0. *)
Theorem whichComponent_picks_trained (g h : GMM D) (color : Vec3d D) :
  wf g -> endLearning g = Done h ->
  exists k, whichComponent h color = Ok k /\ k < componentsCount /\
    (k = 0%nat \/
     (sampleCount g k <> 0%Z /\ (coefs h k >? d_zero) = true /\
      (density_value h color k >? d_zero) = true)).
Proof.
  intros W Hdone.
  pose proof (endLearning_ready g h W Hdone) as R.
  destruct (whichComponent_first_maximum h color
              (fun ci Hci => ready_density h color ci R Hci))
    as (k & E & Hk & Hcases).
  exists k. split; [exact E|]. split; [exact Hk|]. cbv zeta in Hcases.
  destruct Hcases as [(-> & _)|(Hpos & _)]; [left; reflexivity|right].
  assert (Hact : (coefs h k >? d_zero) = true).
  { destruct (coefs h k >? d_zero) eqn:Hact; [reflexivity|].
    rewrite (density_zero_weight h k color Hact), zero_not_positive in Hpos.
    discriminate. }
  split; [|split; [exact Hact|exact Hpos]].
  intros Hn.
  destruct (endLearning_component g h k W Hdone Hk) as (H0 & _).
  destruct (H0 Hn) as (Hz & _).
  rewrite Hz, zero_not_positive in Hact. discriminate.
Qed.

End Trained.

Section OrderCounts.
Context {D : Type} {A : Arith D} {AL : ArithLaws A}.
Implicit Types (g h : GMM D) (ci : nat).
Local Open Scope arith_scope.

(** The weight a completed [endLearning] leaves, from the counts. *)
Lemma endLearning_weight_counts g h ci :
  wf g -> endLearning g = Done h -> ci < componentsCount ->
  coefs h ci =
  if (sampleCount g ci =? 0)%Z then d_zero
  else d_of_int (sampleCount g ci) / d_of_int (totalSampleCount g).
Proof.
  intros W Hdone Hci.
  destruct (endLearning_component g h ci W Hdone Hci) as (H0 & H1).
  destruct (sampleCount g ci =? 0)%Z eqn:En.
  - apply Z.eqb_eq in En. apply H0. exact En.
  - apply Z.eqb_neq in En. apply H1. exact En.
Qed.

(** X14.  In any arithmetic, the counts do not depend on the order of the
    [addSample] calls: after a pass over a permutation of the samples the
    total count and the count of every component are the same, and when
    [endLearning] completes after both passes, so is every weight.  (The
    sums do depend on the order in binary64.) *)
Theorem learning_pass_order_counts (g0 : GMM D) (s s' : list (nat * Vec3d D)) :
  wf g0 ->
  Permutation s s' ->
  Forall (fun x => fst x < componentsCount) s ->
  (Z.of_nat (length s) <= INT_MAX)%Z ->
  totalSampleCount (learning_pass g0 s') = totalSampleCount (learning_pass g0 s) /\
  (forall ci, ci < componentsCount ->
     sampleCount (learning_pass g0 s') ci = sampleCount (learning_pass g0 s) ci) /\
  (forall h h', endLearning (learning_pass g0 s) = Done h ->
     endLearning (learning_pass g0 s') = Done h' ->
     forall ci, ci < componentsCount -> coefs h' ci = coefs h ci).
Proof.
  intros W Hperm Hs Hmax.
  assert (Hs' : Forall (fun x => fst x < componentsCount) s')
    by (eapply Permutation_Forall; eassumption).
  assert (Hlen : length s' = length s)
    by (symmetry; apply Permutation_length; exact Hperm).
  assert (Hmax' : (Z.of_nat (length s') <= INT_MAX)%Z) by (rewrite Hlen; exact Hmax).
  assert (Wc : length (sampleCounts g0) = componentsCount) by apply W.
  destruct (counts_learning_pass g0 s Wc Hs Hmax) as (_ & Ht).
  destruct (counts_learning_pass g0 s' Wc Hs' Hmax') as (_ & Ht').
  assert (Etot : totalSampleCount (learning_pass g0 s')
                 = totalSampleCount (learning_pass g0 s))
    by (rewrite Ht, Ht', Hlen; reflexivity).
  assert (Ecnt : forall ci, ci < componentsCount ->
            sampleCount (learning_pass g0 s') ci = sampleCount (learning_pass g0 s) ci).
  { intros ci Hci.
    rewrite (sampleCount_learning_pass g0 s ci (proj2 W) Hs Hmax Hci).
    rewrite (sampleCount_learning_pass g0 s' ci (proj2 W) Hs' Hmax' Hci).
    f_equal. symmetry. apply Permutation_length. apply samples_of_perm. exact Hperm. }
  split; [exact Etot|]. split; [exact Ecnt|].
  intros h h' Hd Hd' ci Hci.
  rewrite (endLearning_weight_counts _ h ci (wf_learning_pass g0 s W) Hd Hci).
  rewrite (endLearning_weight_counts _ h' ci (wf_learning_pass g0 s' W) Hd' Hci).
  rewrite (Ecnt ci Hci), Etot. reflexivity.
Qed.

End OrderCounts.

(* ================================================================== *)
(** ** Instances of the theorems above *)
(* ================================================================== *)

Lemma wf_fresh64 : wf fresh64.
Proof. repeat apply conj; vm_compute; reflexivity. Qed.

Lemma six_samples_valid :
  Forall (fun s : nat * Vec3d float => fst s < componentsCount) six_samples64.
Proof. unfold componentsCount. repeat constructor. Qed.

Lemma six_samples_count : (Z.of_nat (length six_samples64) <= INT_MAX)%Z.
Proof. vm_compute. discriminate. Qed.

Lemma six_samples_done :
  endLearning (learning_pass fresh64 six_samples64) = Done fitted_six64.
Proof. vm_compute. reflexivity. Qed.

Lemma wf_fitted_five64 : wf fitted_five64.
Proof. repeat apply conj; vm_compute; reflexivity. Qed.

Lemma wf_pass_six64 : wf (learning_pass fresh64 six_samples64).
Proof. apply wf_learning_pass. exact wf_fresh64. Qed.

(** C1 as stated fails in binary64.  [initLearning], three samples for
    component 0 whose first channels are 1, 2 and 2, [endLearning]: the sum
    is 5, the count 3, and the mean stored is [5 * (1.0 / 3)], the double
    below the quotient [5 / 3]. *)
Lemma stored_mean_is_not_quotient :
  endLearning (learning_pass fresh64 three_samples64) = Done learned_three64 /\
  sum (learning_pass fresh64 three_samples64) 0 0 = 5%float /\
  sampleCount (learning_pass fresh64 three_samples64) 0 = 3%Z /\
  mean learned_three64 0 = 1.6666666666666665%float /\
  (5 / 3)%float = 1.6666666666666667%float /\
  PrimFloat.eqb (mean learned_three64 0) (5 / 3)%float = false.
Proof. repeat apply conj; vm_compute; reflexivity. Qed.

(** [endLearning_fits] on the pass of six samples, in binary64: component 3
    received no sample, component 1 received four of the six. *)
Lemma endLearning_fits_witness :
  coefs fitted_six64 3 = 0%float /\
  coefs fitted_six64 1 = (4 / 6)%float /\
  mean fitted_six64 (3 * 1 + 0) = 142.5%float /\
  cache_coherent fitted_six64 1.
Proof.
  destruct (@endLearning_fits float b64 b64_laws
              (learning_pass fresh64 six_samples64) wf_pass_six64) as (Hfit & _).
  pose proof (Hfit fitted_six64 six_samples_done) as H.
  destruct (H 3 ltac:(unfold componentsCount; lia)) as (H3 & _).
  destruct (H3 ltac:(vm_compute; reflexivity)) as (Hz & _).
  destruct (H 1 ltac:(unfold componentsCount; lia)) as (_ & H1).
  destruct (H1 ltac:(vm_compute; discriminate)) as (_ & Hw & Hm & Hc & _).
  destruct (Hc ltac:(vm_compute; reflexivity)) as (_ & Hcc).
  split; [exact Hz|]. split; [|split; [|exact Hcc]].
  - rewrite Hw. vm_compute. reflexivity.
  - rewrite (Hm 0) by lia. vm_compute. reflexivity.
Defined.

(** [recompute_idempotent] on the scenario of the specification, where the
    second call changes nothing, and on the pass of five samples, where it
    adds 0.01 to the diagonal again. *)
Lemma recompute_idempotent_witness :
  calcInverseCovAndDeterm once_ten64 2 d_fix = Done once_ten64 /\
  cov twice_five64 (9 * 0 + (3 * 0 + 0)) = (cov once_five64 0 + d_fix)%D.
Proof.
  split.
  - apply (@recompute_idempotent float b64 fitted_ten64 once_ten64 2 d_fix
             wf_fitted_ten64).
    + unfold componentsCount. lia.
    + vm_compute. reflexivity.
    + right. vm_compute. reflexivity.
  - destruct (@recompute_idempotent float b64 fitted_five64 once_five64 0 d_fix
                wf_fitted_five64) as (_ & H).
    + unfold componentsCount. lia.
    + vm_compute. reflexivity.
    + destruct H as (Hc & _); [vm_compute; reflexivity|vm_compute; reflexivity|].
      exact (Hc 0 0 ltac:(lia) ltac:(lia)).
Defined.

(** [constructor_outcomes] in binary64: on the empty matrix, on a 1 x 64
    matrix, and on the buffer of the model fitted on six samples. *)
Lemma constructor_outcomes_witness :
  GMM_ctor raw64 no_mat64 =
    Done (set_totalSampleCount
            (set_model raw64
               (mkMat CV_64FC1 1 65 (repeat d_zero (13 * componentsCount))))
            0%Z) /\
  GMM_ctor raw64 short_mat64 = Thrown StsBadArg raw64 /\
  exists h, GMM_ctor raw64 (model fitted_six64) = Done h /\
    model h = model fitted_six64 /\ cache_coherent h 1.
Proof.
  split; [|split].
  - apply (@constructor_outcomes float b64 b64_laws raw64 no_mat64). reflexivity.
  - apply (@constructor_outcomes float b64 b64_laws raw64 short_mat64).
    + reflexivity.
    + right. right. vm_compute. discriminate.
  - destruct (@constructor_outcomes float b64 b64_laws raw64 (model fitted_six64))
      as (_ & _ & H).
    destruct H as (Hdone & _); try (vm_compute; reflexivity).
    + repeat apply conj; reflexivity.
    + destruct Hdone as (h & E & M & _ & _ & _ & _ & Hc).
      * intros ci Hci. unfold componentsCount in Hci.
        do 5 (destruct ci as [|ci];
              [intros Hw;
               first [vm_compute; reflexivity|vm_compute in Hw; discriminate]|]).
        lia.
      * exists h. split; [exact E|]. split; [exact M|].
        apply (Hc 1); [unfold componentsCount; lia|vm_compute; reflexivity].
Defined.

(** [density_formula] in binary64 at the mean of component 1 of the model
    fitted on six samples, where the exponent is 0. *)
Lemma density_formula_witness :
  @density float b64 (b64_libm exp_fixed) fitted_six64 1
    (mkVec3d 142.5%float 145%float 50%float) = Ok 0.00032000000000000003%float.
Proof.
  destruct (@density_formula float b64 (b64_libm exp_fixed) fitted_six64 1
              (mkVec3d 142.5%float 145%float 50%float)) as (_ & H & _).
  rewrite H by (vm_compute; reflexivity). vm_compute. reflexivity.
Defined.

(** [endLearning_outcome] in binary64: the pass of six samples completes,
    the pass of the two samples (1e8,1e8,0) and (-1e8,-1e8,0) throws. *)
Lemma endLearning_outcome_witness :
  (exists h, endLearning (learning_pass fresh64 six_samples64) = Done h) /\
  (exists h, endLearning (learning_pass fresh64 two_samples64) = Thrown StsAssert h).
Proof.
  split.
  - apply (@endLearning_outcome float b64
             (learning_pass fresh64 six_samples64) wf_pass_six64).
    intros ci Hci. unfold componentsCount in Hci.
    do 5 (destruct ci as [|ci];
          [intros Hn;
           first [exfalso; apply Hn; vm_compute; reflexivity
                 |split; [vm_compute; reflexivity|eexists; vm_compute; reflexivity]]|]).
    lia.
  - apply (@endLearning_outcome float b64
             (learning_pass fresh64 two_samples64)).
    + apply wf_learning_pass. exact wf_fresh64.
    + exists 0. split; [unfold componentsCount; lia|].
      split; [vm_compute; discriminate|].
      right. eexists. eexists. vm_compute. reflexivity.
Defined.

(** [whichComponent_picks_trained] on the scenario of the specification, in
    binary64, at the colour of the samples. *)
Lemma whichComponent_picks_trained_witness :
  exists k,
    @whichComponent float b64 (b64_libm exp_fixed) learned_ten64
      (mkVec3d 100%float 100%float 100%float) = Ok k /\
    k < componentsCount /\
    (k = 0 \/
     sampleCount (learning_pass fresh64 ten_samples64) k <> 0%Z /\
     (coefs learned_ten64 k >? d_zero)%D = true /\
     (@density_value float b64 (b64_libm exp_fixed) learned_ten64
        (mkVec3d 100%float 100%float 100%float) k >? d_zero)%D = true).
Proof.
  apply (@whichComponent_picks_trained float b64 (b64_libm exp_fixed) b64_laws
           b64_order (learning_pass fresh64 ten_samples64) learned_ten64).
  - apply wf_learning_pass. exact wf_fresh64.
  - vm_compute. reflexivity.
Defined.

(** [learning_pass_order_counts] on the samples 0.1, 0.2, 0.3 and their
    reverse, in binary64. *)
Lemma learning_pass_order_counts_witness :
  totalSampleCount (learning_pass fresh64 descending64)
  = totalSampleCount (learning_pass fresh64 ascending64) /\
  sampleCount (learning_pass fresh64 descending64) 0
  = sampleCount (learning_pass fresh64 ascending64) 0.
Proof.
  destruct (@learning_pass_order_counts float b64 b64_laws fresh64
              ascending64 descending64 wf_fresh64 (Permutation_rev ascending64))
    as (Ht & Hc & _).
  - unfold componentsCount. repeat constructor.
  - vm_compute. discriminate.
  - split; [exact Ht|]. apply Hc. unfold componentsCount. lia.
Defined.

(** [queries_defined_after_endLearning] on the model fitted on six samples,
    in binary64. *)
Lemma queries_defined_after_endLearning_witness :
  exists v, @mixture float b64 (b64_libm exp_fixed) fitted_six64
              (mkVec3d 142.5%float 145%float 50%float) = Ok v.
Proof.
  apply (@queries_defined_after_endLearning float b64 (b64_libm exp_fixed)
           b64_laws (learning_pass fresh64 six_samples64) fitted_six64).
  - exact wf_pass_six64.
  - exact six_samples_done.
Defined.

(** [density_nonnegative] at the mean of component 1 of the model fitted on
    six samples. *)
Lemma density_nonnegative_witness :
  exists p, @density float b64 (b64_libm exp_fixed) fitted_six64 1
              (mkVec3d 142.5%float 145%float 50%float) = Ok p /\
    PrimFloat.ltb p 0 = false /\
    (PrimFloat.leb 0 p = true \/ Prim2SF p = S754_nan).
Proof.
  apply (density_nonnegative exp_fixed exp_fixed_not_negative).
  intros _. vm_compute. reflexivity.
Defined.

(** C3 as stated fails.  The constructor accepts a buffer whose first weight
    is -1.  The density of that component is 0 at every colour, whatever
    [exp] is, although the weight is not 0; the quotient of the claim is not
    0 there: at the colour (0,0,0), with the determinant 7 the object
    holds, it is [1 / sqrt 7]. *)
Lemma density_of_negative_weight :
  GMM_ctor raw64 negative_weight_mat = Done negative64 /\
  coefs negative64 0 = (-1)%float /\
  (covDeterm negative64 0 >? d_eps)%D = true /\
  (forall exp, @density float b64 (b64_libm exp) negative64 0 origin64 = Ok 0%float) /\
  (forall exp, exp (-0)%float = 1%float ->
     let Q := @quadratic_form float b64 (centred negative64 0 origin64) (inverseCov negative64 0) in
     PrimFloat.div (exp (PrimFloat.mul (-0.5)%float Q)) (PrimFloat.sqrt (covDeterm negative64 0))
     = 0.3779644730092272%float).
Proof.
  split; [vm_compute; reflexivity|].
  split; [vm_compute; reflexivity|].
  split; [vm_compute; reflexivity|].
  split.
  - intros exp. vm_compute. reflexivity.
  - intros exp H. cbv zeta.
    replace (PrimFloat.mul (-0.5)%float
               (@quadratic_form float b64 (centred negative64 0 origin64)
                  (inverseCov negative64 0))) with (-0)%float
      by (vm_compute; reflexivity).
    rewrite H. vm_compute. reflexivity.
Qed.

(** C9 as stated fails in binary64, for every [exp] that maps not-a-number
    to not-a-number as C requires.  On the scenario of the specification the
    density of component 2 at the colour (inf,100,100) is not a number.
    After a pass of six finite samples of magnitude 1e81 for component 0,
    which [endLearning] completes, the cached determinant is infinite, so
    above epsilon, and the density at the colour (1,2,3) is not a number.
    Not-a-number is not at least 0. *)
Lemma density_can_be_nan :
  endLearning (learning_pass fresh64 ten_samples64) = Done learned_ten64 /\
  (covDeterm learned_ten64 2 >? d_eps)%D = true /\
  (forall exp, exp nan = nan ->
     @density float b64 (b64_libm exp) learned_ten64 2
       (mkVec3d infinity 100%float 100%float) = Ok nan) /\
  endLearning (learning_pass fresh64 huge_samples64) = Done learned_huge64 /\
  (coefs learned_huge64 0 >? d_zero)%D = true /\
  covDeterm learned_huge64 0 = infinity /\
  (covDeterm learned_huge64 0 >? d_eps)%D = true /\
  (forall exp, exp nan = nan ->
     @density float b64 (b64_libm exp) learned_huge64 0
       (mkVec3d 1%float 2%float 3%float) = Ok nan) /\
  PrimFloat.leb 0 nan = false.
Proof.
  split; [vm_compute; reflexivity|].
  split; [vm_compute; reflexivity|].
  split; [|split; [vm_compute; reflexivity|]].
  2: split; [vm_compute; reflexivity|].
  2: split; [vm_compute; reflexivity|].
  2: split; [vm_compute; reflexivity|].
  2: split; [|vm_compute; reflexivity].
  - intros exp H. unfold density.
    replace (coefs learned_ten64 2 >? d_zero)%D with true by (vm_compute; reflexivity).
    replace (covDeterm learned_ten64 2 >? d_eps)%D with true by (vm_compute; reflexivity).
    cbv zeta. f_equal.
    cbn [d_exp b64_libm].
    match goal with |- context [exp ?a] => replace a with nan by (vm_compute; reflexivity) end.
    rewrite H. vm_compute. reflexivity.
  - intros exp H. unfold density.
    replace (coefs learned_huge64 0 >? d_zero)%D with true by (vm_compute; reflexivity).
    replace (covDeterm learned_huge64 0 >? d_eps)%D with true by (vm_compute; reflexivity).
    cbv zeta. f_equal.
    cbn [d_exp b64_libm].
    match goal with |- context [exp ?a] => replace a with nan by (vm_compute; reflexivity) end.
    rewrite H. vm_compute. reflexivity.
Qed.

(** The order of the samples matters in binary64: the sums of 0.1, 0.2 and
    0.3 in the two orders differ in the last place, and so do the means. *)
Remark learning_pass_order_binary64 :
  sum (learning_pass fresh64 ascending64) 0 0 = 0x1.3333333333334p-1%float /\
  sum (learning_pass fresh64 descending64) 0 0 = 0x1.3333333333333p-1%float /\
  PrimFloat.eqb
    (mean (result_state (endLearning (learning_pass fresh64 ascending64))) 0)
    (mean (result_state (endLearning (learning_pass fresh64 descending64))) 0)
  = false.
Proof. repeat apply conj; vm_compute; reflexivity. Qed.

Lemma calc_touches_only_cache_and_diagonal_witness :
  same_accumulators fitted_ten64
    (result_state (calcInverseCovAndDeterm fitted_ten64 2 d_fix)) /\
  coefs (result_state (calcInverseCovAndDeterm fitted_ten64 2 d_fix)) 2
  = coefs fitted_ten64 2.
Proof.
  destruct (calc_touches_only_cache_and_diagonal fitted_ten64 2 d_fix
              wf_fitted_ten64 ltac:(unfold componentsCount; lia))
    as (A & _ & B & _).
  split; assumption.
Defined.

Lemma accumulators_after_pass_witness :
  sampleCount (learning_pass fresh64 six_samples64) 1
  = Z.of_nat (length (samples_of 1 six_samples64)) /\
  totalSampleCount (learning_pass fresh64 six_samples64) = 6%Z.
Proof.
  destruct (accumulators_after_pass fresh64 six_samples64 1
              (proj2 wf_fresh64) six_samples_valid six_samples_count
              ltac:(unfold componentsCount; lia))
    as (A & B & _).
  split; assumption.
Defined.

Lemma endLearning_idempotent_witness :
  endLearning fitted_six64 = Done fitted_six64.
Proof.
  apply (endLearning_idempotent (learning_pass fresh64 six_samples64)).
  - apply wf_learning_pass. exact wf_fresh64.
  - exact six_samples_done.
Defined.

Lemma trained_components_active_witness :
  (coefs fitted_six64 1 >? d_zero)%D = true /\
  (covDeterm fitted_six64 1 >? d_eps)%D = true.
Proof.
  destruct (trained_components_active fresh64 six_samples64 fitted_six64 1
              wf_fresh64 six_samples_valid six_samples_count six_samples_done
              ltac:(unfold componentsCount; lia) ltac:(discriminate))
    as (A & B & _).
  split; assumption.
Defined.

Lemma reload_after_endLearning_witness :
  exists h', GMM_ctor raw64 (model fitted_six64) = Done h' /\
             model h' = model fitted_six64.
Proof.
  destruct (reload_after_endLearning (learning_pass fresh64 six_samples64)
              fitted_six64 raw64) as (h' & A & B & _).
  - apply wf_learning_pass. exact wf_fresh64.
  - exact six_samples_done.
  - vm_compute. reflexivity.
  - vm_compute. reflexivity.
  - vm_compute. reflexivity.
  - repeat apply conj; reflexivity.
  - exists h'. split; assumption.
Defined.

Lemma untrained_model_witness :
  exists h, GMM_ctor blank no_mat = Done h /\ whichComponent h grey = Ok 0.
Proof.
  destruct (untrained_model blank no_mat grey eq_refl) as (h & A & _ & B).
  exists h. split; assumption.
Defined.
